(** * Personal-finance ledger: the views layer and the recurrence and
      notification engine

    The persistent store is a set of tables keyed by an integer primary key;
    every view function of [app/views.py] is a function from the store to a
    response and a new store.  Amounts of money and balances are Python
    floats; user, row and category identifiers are integers. *)

From Stdlib Require Import ZArith Lia String.
From Stdlib Require Import Floats.SpecFloat.
From stdpp Require Import base option list gmap fin_maps strings sorting.

Local Open Scope Z_scope.

(** ** Numbers *)

(** A Python [float]: a number of the IEEE 754 binary64 format, with its
    signed zeros, its infinities and NaN.  Sums and differences are rounded
    to the nearest float, ties to even. *)
Definition float : Type := spec_float.

#[global] Instance float_eq_dec : EqDecision float.
Proof. solve_decision. Defined.

(** [x + y], [x - y], [x < y] and [x <= y] on floats. *)
Definition fadd : float → float → float := SFadd 53 1024.
Definition fsub : float → float → float := SFsub 53 1024.
Definition fltb : float → float → bool := SFltb.
Definition fleb : float → float → bool := SFleb.

(** [0.0], and [float(z)] for an integer [z]. *)
Definition fzero : float := S754_zero false.
Definition float_of_Z (z : Z) : float := binary_normalize 53 1024 z 0 false.

(** The float that Python reads the decimal [n/d] as: the float nearest to
    it ([0.1] is [decimal 1 10]). *)
Definition decimal (n d : Z) : float := SFdiv 53 1024 (float_of_Z n) (float_of_Z d).

(** [x or 0.0] and [x or 0] where the result is used as a float: a missing
    value and a zero of either sign give [0.0]. *)
Definition or_zero (x : option float) : float :=
  match x with
  | Some v => if SFeqb v fzero then fzero else v
  | None => fzero
  end.

(** ** Rows *)

Inductive TransactionType := income | expense.

#[global] Instance TransactionType_eq_dec : EqDecision TransactionType.
Proof. solve_decision. Defined.

(** A [datetime] is a calendar day (as a day number) and a time of day. *)
Record datetime := { dt_day : Z; dt_time : Z }.

(** [datetime.combine(d, datetime.min.time())] *)
Definition datetime_combine_min (d : Z) : datetime := {| dt_day := d; dt_time := 0 |}.

(** [db.func.date(...)] *)
Definition func_date (dt : datetime) : Z := dt_day dt.

Record Account := {
  acc_user_id : Z;
  acc_balance : float;
  acc_is_active : bool
}.

Record Category := { cat_user_id : option Z }.

Record Transaction := {
  tx_user_id : Z;
  tx_date : datetime;
  tx_amount : float;
  tx_type : TransactionType;
  tx_category_id : option Z;
  tx_account_id : option Z
}.

Record Recurring := { rec_user_id : Z; rec_active : bool }.

(** Modelled from the spec: the fields [kind], [dedup_key] and [message] of a
    notification are those of section 3 of the specification
    ([app/models.py] is not among the sources); [views.py] reads [user_id],
    [is_read] and [created_at]. *)
Record Notification := {
  notif_user_id : Z;
  notif_kind : string;
  notif_dedup_key : string;
  notif_message : string;
  notif_created_at : datetime;
  notif_is_read : bool
}.

Record Achievement := {
  ach_user_id : Z;
  ach_condition_type : string;
  ach_condition_value : Z;
  ach_is_unlocked : bool;
  ach_unlocked_at : option datetime
}.

(** ** The store *)

Record DB := {
  accounts : gmap Z Account;
  categories : gmap Z Category;
  transactions : gmap Z Transaction;
  recurrings : gmap Z Recurring;
  notifications : gmap Z Notification;
  achievements : gmap Z Achievement
}.

Definition set_accounts (f : gmap Z Account → gmap Z Account) (s : DB) : DB :=
  {| accounts := f (accounts s); categories := categories s;
     transactions := transactions s; recurrings := recurrings s;
     notifications := notifications s; achievements := achievements s |}.

Definition set_transactions (f : gmap Z Transaction → gmap Z Transaction) (s : DB) : DB :=
  {| accounts := accounts s; categories := categories s;
     transactions := f (transactions s); recurrings := recurrings s;
     notifications := notifications s; achievements := achievements s |}.

Definition set_recurrings (f : gmap Z Recurring → gmap Z Recurring) (s : DB) : DB :=
  {| accounts := accounts s; categories := categories s;
     transactions := transactions s; recurrings := f (recurrings s);
     notifications := notifications s; achievements := achievements s |}.

Definition set_notifications (f : gmap Z Notification → gmap Z Notification) (s : DB) : DB :=
  {| accounts := accounts s; categories := categories s;
     transactions := transactions s; recurrings := recurrings s;
     notifications := f (notifications s); achievements := achievements s |}.

Definition set_achievements (f : gmap Z Achievement → gmap Z Achievement) (s : DB) : DB :=
  {| accounts := accounts s; categories := categories s;
     transactions := transactions s; recurrings := recurrings s;
     notifications := notifications s; achievements := f (achievements s) |}.

(** The primary key given to a new row: one more than the largest key in use. *)
Definition next_id {A} (m : gmap Z A) : Z :=
  1 + foldr Z.max 0 (map_to_list m).*1.

(** [acc.balance += d] on the row [a] of the identity map. *)
Definition balance_add (a : Z) (d : float) (s : DB) : DB :=
  set_accounts (alter (λ acc, {| acc_user_id := acc_user_id acc;
                                 acc_balance := fadd (acc_balance acc) d;
                                 acc_is_active := acc_is_active acc |}) a) s.

(** [acc.balance -= d] *)
Definition balance_sub (a : Z) (d : float) (s : DB) : DB :=
  set_accounts (alter (λ acc, {| acc_user_id := acc_user_id acc;
                                 acc_balance := fsub (acc_balance acc) d;
                                 acc_is_active := acc_is_active acc |}) a) s.

(** The relationship [t.account]: the id of the linked row when the foreign
    key is set and the row exists, [None] otherwise. *)
Definition tx_account (s : DB) (t : Transaction) : option Z :=
  a ← tx_account_id t; _ ← accounts s !! a; Some a.

(** [Account.query.get(i)] and [Category.query.get(i)], as the id of the row found. *)
Definition Account_get (s : DB) (i : Z) : option Z := _ ← accounts s !! i; Some i.
Definition Category_get (s : DB) (i : Z) : option Z := _ ← categories s !! i; Some i.

(** [Account.query.filter_by(id=i, user_id=u).first()] *)
Definition Account_first_by (s : DB) (i u : Z) : option Z :=
  acc ← accounts s !! i; if decide (acc_user_id acc = u) then Some i else None.

(** [Category.query.filter_by(id=i, user_id=u).first()] *)
Definition Category_first_by (s : DB) (i u : Z) : option Z :=
  c ← categories s !! i; if decide (cat_user_id c = Some u) then Some i else None.

(** [Transaction.query.filter_by(id=i, user_id=u).first()] *)
Definition Transaction_first_by (s : DB) (i u : Z) : option Transaction :=
  t ← transactions s !! i; if decide (tx_user_id t = u) then Some t else None.

(** ** Responses *)

Inductive Response :=
  | redirect (endpoint : string)
  | render_template (template : string)
  | abort404
  | jsonify (status : Z) (success : bool) (count : Z).

(** ** Forms *)

Record TransactionForm := {
  form_date : Z;
  form_amount : float;
  form_type : string;
  form_category : Z;
  form_account : Z;
}.

(** The ids offered by [form.account.choices] in the transaction views: 0 and
    the active accounts of the user. *)
Definition account_choices (s : DB) (user_id : Z) : list Z :=
  0 :: (map_to_list (filter (λ kv, acc_is_active kv.2 = true ∧ acc_user_id kv.2 = user_id)
                            (accounts s))).*1.

(** The ids offered by [form.category.choices]: 0, the categories of the user
    and the shared ones. *)
Definition category_choices (s : DB) (user_id : Z) : list Z :=
  0 :: (map_to_list (filter (λ kv, cat_user_id kv.2 = Some user_id ∨ cat_user_id kv.2 = None)
                            (categories s))).*1.

(** [form.validate_on_submit()] for a posted [TransactionForm]: a select field
    accepts only a value among its choices. *)
Definition validate_on_submit (s : DB) (user_id : Z) (form : TransactionForm) : bool :=
  bool_decide (form_category form ∈ category_choices s user_id)
  && bool_decide (form_account form ∈ account_choices s user_id).

Definition form_transaction_type (form : TransactionForm) : TransactionType :=
  if String.eqb (form_type form) "income" then income else expense.

(** ** Transaction views *)

(** [add_transaction], POST branch. *)
Definition add_transaction (user_id : Z) (form : TransactionForm) (s : DB) : Response * DB :=
  if validate_on_submit s user_id form then
    let cat := if decide (form_category form ≠ 0) then Category_get s (form_category form) else None in
    let acc := if decide (form_account form ≠ 0) then Account_get s (form_account form) else None in
    let s1 :=
      match acc with
      | Some a =>
          if String.eqb (form_type form) "income"
          then balance_add a (form_amount form) s
          else balance_sub a (form_amount form) s
      | None => s
      end in
    let t := {| tx_user_id := user_id;
                tx_date := datetime_combine_min (form_date form);
                tx_amount := form_amount form;
                tx_type := form_transaction_type form;
                tx_category_id := cat;
                tx_account_id := acc |} in
    (redirect "transactions", set_transactions (insert (next_id (transactions s1)) t) s1)
  else (render_template "add_transaction.html", s).

(** [edit_transaction], POST branch. *)
Definition edit_transaction (user_id trans_id : Z) (form : TransactionForm) (s : DB) : Response * DB :=
  match Transaction_first_by s trans_id user_id with
  | None => (abort404, s)
  | Some t =>
      if validate_on_submit s user_id form then
        let old_account := tx_account s t in
        let old_amount := tx_amount t in
        let old_type := tx_type t in
        let s1 :=
          match old_account with
          | Some a =>
              match old_type with
              | income => balance_sub a old_amount s
              | expense => balance_add a old_amount s
              end
          | None => s
          end in
        let cat := if decide (form_category form ≠ 0) then Category_get s1 (form_category form) else None in
        let acc := if decide (form_account form ≠ 0) then Account_get s1 (form_account form) else None in
        let t' := {| tx_user_id := user_id;
                     tx_date := datetime_combine_min (form_date form);
                     tx_amount := form_amount form;
                     tx_type := form_transaction_type form;
                     tx_category_id := cat;
                     tx_account_id := acc |} in
        let s2 := set_transactions (insert trans_id t') s1 in
        let s3 :=
          match acc with
          | Some a =>
              match tx_type t' with
              | income => balance_add a (tx_amount t') s2
              | expense => balance_sub a (tx_amount t') s2
              end
          | None => s2
          end in
        (redirect "transactions", s3)
      else (render_template "add_transaction.html", s)
  end.

(** The body shared by [delete_transaction] and the loop of
    [bulk_delete_transactions]: undo the effect of [t] on its account, then
    delete the row. *)
Definition rollback_and_delete (trans_id : Z) (t : Transaction) (s : DB) : DB :=
  let s1 :=
    match tx_account s t with
    | Some a =>
        match tx_type t with
        | income => balance_sub a (tx_amount t) s
        | expense => balance_add a (tx_amount t) s
        end
    | None => s
    end in
  set_transactions (delete trans_id) s1.

(** [delete_transaction] *)
Definition delete_transaction (user_id trans_id : Z) (s : DB) : Response * DB :=
  match Transaction_first_by s trans_id user_id with
  | None => (abort404, s)
  | Some t => (redirect "transactions", rollback_and_delete trans_id t s)
  end.

(** ** Exceptions *)

(** The instances of Python's [Exception] class that the views can meet. *)
Inductive Exception :=
  | AttributeError
  | OtherException (name : string).

Inductive result (A : Type) :=
  | Ok (a : A)
  | Raise (e : Exception).
Arguments Ok {A} a.
Arguments Raise {A} e.

Definition result_bind {A B} (r : result A) (k : A → result B) : result B :=
  match r with
  | Ok a => k a
  | Raise e => Raise e
  end.

(** A [for] loop whose body may raise: the first exception ends the loop. *)
Fixpoint for_each {A S} (body : A → S → result S) (l : list A) (st : S) : result S :=
  match l with
  | [] => Ok st
  | x :: l' => result_bind (body x st) (for_each body l')
  end.

(** Python truthiness of a JSON field holding an integer id or nothing. *)
Definition truthy (v : option Z) : option Z :=
  match v with
  | Some i => if decide (i = 0) then None else Some i
  | None => None
  end.

(** ** Bulk operations *)

(** [Transaction.query.filter(Transaction.id.in_(ids), Transaction.user_id == u).all()] *)
Definition Transaction_in (s : DB) (transaction_ids : list Z) (user_id : Z) : list (Z * Transaction) :=
  map_to_list (filter (λ kv, kv.1 ∈ transaction_ids ∧ tx_user_id kv.2 = user_id) (transactions s)).

Definition tx_set_category (c : Z) (t : Transaction) : Transaction :=
  {| tx_user_id := tx_user_id t; tx_date := tx_date t; tx_amount := tx_amount t;
     tx_type := tx_type t; tx_category_id := Some c; tx_account_id := tx_account_id t |}.

Definition tx_set_account (a : Z) (t : Transaction) : Transaction :=
  {| tx_user_id := tx_user_id t; tx_date := tx_date t; tx_amount := tx_amount t;
     tx_type := tx_type t; tx_category_id := tx_category_id t; tx_account_id := Some a |}.

(** The first block of the loop body of [bulk_edit_transactions],
    [if category_id: ...], on the row [t] of key [i]: the row as it is after
    the block, the session and [updated]. *)
Definition bulk_edit_category (user_id : Z) (category_id : option Z)
    (i : Z) (t : Transaction) (s : DB) (updated : Z) : Transaction * DB * Z :=
  match truthy category_id with
  | Some c =>
      match Category_first_by s c user_id with
      | Some cat =>
          (tx_set_category cat t, set_transactions (insert i (tx_set_category cat t)) s,
           updated + 1)
      | None => (t, s, updated)
      end
  | None => (t, s, updated)
  end.

(** The second block of the loop body, [if account_id: ...]. *)
Definition bulk_edit_account (user_id : Z) (account_id : option Z)
    (i : Z) (t1 : Transaction) (s1 : DB) (updated1 : Z) : result (DB * Z) :=
  match truthy account_id with
  | Some a =>
      let old_account := tx_account s1 t1 in
      match Account_first_by s1 a user_id with
      | Some new_acc =>
          let s2 :=
            match old_account with
            | Some old =>
                if decide (old ≠ new_acc) then
                  match tx_type t1 with
                  | income => balance_sub old (tx_amount t1) s1
                  | expense => balance_add old (tx_amount t1) s1
                  end
                else s1
            | None => s1
            end in
          (* [old_account.id] outside the guard *)
          match old_account with
          | None => Raise AttributeError
          | Some old =>
              let s3 :=
                if decide (old ≠ new_acc) then
                  match tx_type t1 with
                  | income => balance_add new_acc (tx_amount t1) s2
                  | expense => balance_sub new_acc (tx_amount t1) s2
                  end
                else s2 in
              Ok (set_transactions (insert i (tx_set_account new_acc t1)) s3, updated1 + 1)
          end
      | None => Ok (s1, updated1)
      end
  | None => Ok (s1, updated1)
  end.

(** One iteration of the loop of [bulk_edit_transactions] on the row [it] of
    the query result; the state of the loop is the session and [updated]. *)
Definition bulk_edit_body (user_id : Z) (category_id account_id : option Z)
    (it : Z * Transaction) (st : DB * Z) : result (DB * Z) :=
  let '(i, t) := it in
  let '(s, updated) := st in
  let '(t1, s1, updated1) := bulk_edit_category user_id category_id i t s updated in
  bulk_edit_account user_id account_id i t1 s1 updated1.

(** [bulk_edit_transactions]: the session is committed when the loop ends and
    rolled back to the stored state when it raises. *)
Definition bulk_edit_transactions (user_id : Z) (transaction_ids : list Z)
    (category_id account_id : option Z) (s : DB) : Response * DB :=
  match transaction_ids with
  | [] => (jsonify 400 false 0, s)
  | _ =>
      match for_each (bulk_edit_body user_id category_id account_id)
                     (Transaction_in s transaction_ids user_id) (s, 0) with
      | Ok (s', updated) => (jsonify 200 true updated, s')
      | Raise _ => (jsonify 500 false 0, s)
      end
  end.

(** One iteration of the loop of [bulk_delete_transactions]. *)
Definition bulk_delete_body (it : Z * Transaction) (st : DB * Z) : result (DB * Z) :=
  let '(i, t) := it in
  let '(s, deleted) := st in
  Ok (rollback_and_delete i t s, deleted + 1).

(** [bulk_delete_transactions] *)
Definition bulk_delete_transactions (user_id : Z) (transaction_ids : list Z) (s : DB) : Response * DB :=
  match transaction_ids with
  | [] => (jsonify 400 false 0, s)
  | _ =>
      match for_each bulk_delete_body (Transaction_in s transaction_ids user_id) (s, 0) with
      | Ok (s', deleted) => (jsonify 200 true deleted, s')
      | Raise _ => (jsonify 500 false 0, s)
      end
  end.

(** ** Transfers *)

Record TransferForm := {
  form_from_account : Z;
  form_to_account : Z;
  form_transfer_amount : float;
  form_transfer_date : Z
}.

(** The ids offered by [form.from_account.choices] and [form.to_account.choices]. *)
Definition transfer_choices (s : DB) (user_id : Z) : list Z :=
  (map_to_list (filter (λ kv, acc_is_active kv.2 = true ∧ acc_user_id kv.2 = user_id)
                       (accounts s))).*1.

Definition validate_transfer (s : DB) (user_id : Z) (form : TransferForm) : bool :=
  bool_decide (form_from_account form ∈ transfer_choices s user_id)
  && bool_decide (form_to_account form ∈ transfer_choices s user_id).

(** An exception that no handler of the view catches: the framework answers 500
    and the session is discarded. *)
Definition uncaught (s : DB) : Response * DB := (jsonify 500 false 0, s).

(** [transfer], POST branch. *)
Definition transfer (user_id : Z) (form : TransferForm) (s : DB) : Response * DB :=
  if validate_transfer s user_id form then
    match accounts s !! form_from_account form, accounts s !! form_to_account form with
    | Some from_acc, Some to_acc =>
        if decide (form_from_account form = form_to_account form) then
          (render_template "transfer.html", s)
        else if fltb (acc_balance from_acc) (form_transfer_amount form) then
          (render_template "transfer.html", s)
        else
          let expense_tx :=
            {| tx_user_id := user_id;
               tx_date := datetime_combine_min (form_transfer_date form);
               tx_amount := form_transfer_amount form;
               tx_type := expense;
               tx_category_id := None;
               tx_account_id := Some (form_from_account form) |} in
          let income_tx :=
            {| tx_user_id := user_id;
               tx_date := datetime_combine_min (form_transfer_date form);
               tx_amount := form_transfer_amount form;
               tx_type := income;
               tx_category_id := None;
               tx_account_id := Some (form_to_account form) |} in
          let s1 := balance_sub (form_from_account form) (form_transfer_amount form) s in
          let s2 := balance_add (form_to_account form) (form_transfer_amount form) s1 in
          let s3 := set_transactions (insert (next_id (transactions s2)) expense_tx) s2 in
          let s4 := set_transactions (insert (next_id (transactions s3)) income_tx) s3 in
          (redirect "transactions", s4)
    | _, _ => uncaught s
    end
  else (render_template "transfer.html", s).

(** ** Recurring rules and notifications, as the views touch them *)

(** [recurring_delete] *)
Definition recurring_delete (user_id rec_id : Z) (s : DB) : Response * DB :=
  match recurrings s !! rec_id with
  | Some r =>
      if decide (rec_user_id r = user_id)
      then (redirect "recurring_list", set_recurrings (delete rec_id) s)
      else (abort404, s)
  | None => (abort404, s)
  end.

Definition notif_set_read (n : Notification) : Notification :=
  {| notif_user_id := notif_user_id n; notif_kind := notif_kind n;
     notif_dedup_key := notif_dedup_key n; notif_message := notif_message n;
     notif_created_at := notif_created_at n; notif_is_read := true |}.

(** [mark_notification_read] *)
Definition mark_notification_read (user_id notif_id : Z) (s : DB) : Response * DB :=
  match notifications s !! notif_id with
  | Some n =>
      if decide (notif_user_id n = user_id)
      then (redirect "notifications", set_notifications (insert notif_id (notif_set_read n)) s)
      else (abort404, s)
  | None => (abort404, s)
  end.

(** [mark_all_notifications_read] *)
Definition mark_all_notifications_read (user_id : Z) (s : DB) : Response * DB :=
  (redirect "notifications",
   set_notifications (fmap (λ n, if decide (notif_user_id n = user_id) then notif_set_read n else n)) s).

(** ** Achievements *)

(** [Transaction.query.filter_by(user_id=u).count()] *)
Definition total_transactions (s : DB) (user_id : Z) : Z :=
  Z.of_nat (size (filter (λ kv : Z * Transaction, tx_user_id kv.2 = user_id) (transactions s))).

(** The number of distinct days that carry a transaction of the user. *)
Definition days_with_transactions (s : DB) (user_id : Z) : Z :=
  Z.of_nat (size (list_to_set (C := gset Z)
    ((λ kv : Z * Transaction, func_date (tx_date kv.2)) <$>
       map_to_list (filter (λ kv : Z * Transaction, tx_user_id kv.2 = user_id) (transactions s))))).

Definition ach_unlock (now : datetime) (ach : Achievement) : Achievement :=
  {| ach_user_id := ach_user_id ach;
     ach_condition_type := ach_condition_type ach;
     ach_condition_value := ach_condition_value ach;
     ach_is_unlocked := true;
     ach_unlocked_at := Some now |}.

(** The body of the loop of [achievements] on one row. *)
Definition check_achievement (now : datetime) (total days : Z) (ach : Achievement) : Achievement :=
  if negb (ach_is_unlocked ach) then
    if String.eqb (ach_condition_type ach) "transactions_count"
       && bool_decide (total >= ach_condition_value ach)
    then ach_unlock now ach
    else if String.eqb (ach_condition_type ach) "days_streak"
            && bool_decide (days >= ach_condition_value ach)
    then ach_unlock now ach
    else ach
  else ach.

(** [achievements]; [now] is what [datetime.now()] returns during the request. *)
Definition achievements_view (now : datetime) (user_id : Z) (s : DB) : Response * DB :=
  let total := total_transactions s user_id in
  let days := days_with_transactions s user_id in
  (render_template "achievements.html",
   set_achievements (fmap (λ ach, if decide (ach_user_id ach = user_id)
                                  then check_achievement now total days ach else ach)) s).

(** ** Sequences of transaction requests *)

Inductive LedgerOp :=
  | OpAdd (user_id : Z) (form : TransactionForm)
  | OpEdit (user_id trans_id : Z) (form : TransactionForm)
  | OpDelete (user_id trans_id : Z).

Definition perform (op : LedgerOp) (s : DB) : Response * DB :=
  match op with
  | OpAdd u form => add_transaction u form s
  | OpEdit u i form => edit_transaction u i form s
  | OpDelete u i => delete_transaction u i s
  end.


(** ** The trigger boundary

    [generate_recurring_occurrences] (app/utils.py) and
    [generate_all_notifications] (app/notifications.py) are called from the
    before-request hook and from [create_app].  A pass is any function that
    leaves a store behind and either returns or raises. *)

Definition pass := DB → DB * option Exception.

(** [p(); q()] *)
Definition and_then (p q : pass) : pass :=
  λ s, match p s with
       | (s1, None) => q s1
       | (s1, Some e) => (s1, Some e)
       end.

(** [try: p() except Exception: pass] *)
Definition try_except_pass (p : pass) : pass :=
  λ s, match p s with
       | (s1, _) => (s1, None)
       end.

Definition PUBLIC_ENDPOINTS : list string :=
  ["index"; "login"; "register"; "logout"; "api_chart_income_expense";
   "api_chart_categories"; "api_chart_trends"]%string.

(** [enforce_authentication]: [Some] response ends the request, [None] lets it
    go on to the view. *)
Definition enforce_authentication (user : option Z) (endpoint : option string) : option Response :=
  match endpoint with
  | None => None
  | Some e =>
      if String.eqb e "" || String.prefix "static" e then None
      else if bool_decide (is_Some user) then None
      else if bool_decide (e ∈ PUBLIC_ENDPOINTS) then None
      else Some (redirect "login")
  end.

(** What the client gets: the response of a hook or of the view, or the error
    page of the framework when an exception leaves a hook. *)
Inductive Served :=
  | Responded (r : Response) (s : DB)
  | ErrorPage (e : Exception) (s : DB).

Section Trigger.
Variable generate_recurring_occurrences : pass.
Variable generate_all_notifications : pass.

(** [ensure_recurring_generated], the part that runs the background tasks. *)
Definition ensure_recurring_generated : pass :=
  try_except_pass (and_then generate_recurring_occurrences generate_all_notifications).

(** The end of [create_app]. *)
Definition create_app : pass :=
  try_except_pass generate_recurring_occurrences.

(** A request: the two before-request hooks in the order of their
    registration, then the view. *)
Definition handle_request (user : option Z) (endpoint : option string)
    (view : DB → Response * DB) (s : DB) : Served :=
  match ensure_recurring_generated s with
  | (s1, Some e) => ErrorPage e s1
  | (s1, None) =>
      match enforce_authentication user endpoint with
      | Some r => Responded r s1
      | None => let '(r, s2) := view s1 in Responded r s2
      end
  end.
End Trigger.

(** ** The balance of an account against its transactions *)

(** The exact value of a finite float, counted in units of 2^-1074, the
    smallest positive float; the infinities and NaN have none. *)
Definition units (x : float) : option Z :=
  if valid_binary 53 1024 x then
    match x with
    | S754_zero _ => Some 0
    | S754_finite s m e => Some (if s then - (Z.pos m * 2 ^ (e + 1074)) else Z.pos m * 2 ^ (e + 1074))
    | _ => None
    end
  else None.

(** The float sum [x + y] is the sum of [x] and [y]: nothing was rounded
    away, and nothing overflowed. *)
Definition exact_add (x y : float) : Prop :=
  match units x, units y with
  | Some a, Some b => units (fadd x y) = Some (a + b)
  | _, _ => False
  end.

Definition exact_sub (x y : float) : Prop :=
  match units x, units y with
  | Some a, Some b => units (fsub x y) = Some (a - b)
  | _, _ => False
  end.

#[global] Instance exact_add_dec x y : Decision (exact_add x y).
Proof. unfold exact_add. destruct (units x), (units y); apply _. Defined.

#[global] Instance exact_sub_dec x y : Decision (exact_sub x y).
Proof. unfold exact_sub. destruct (units x), (units y); apply _. Defined.





(** The balance of the account [a], when the row exists. *)
Definition balance_of (s : DB) (a : Z) : option float := acc_balance <$> accounts s !! a.


(** The update of a balance by a view is exact. *)
Definition exact_balance_add (a : Z) (d : float) (s : DB) : Prop :=
  match accounts s !! a with
  | Some acc => exact_add (acc_balance acc) d
  | None => True
  end.

Definition exact_balance_sub (a : Z) (d : float) (s : DB) : Prop :=
  match accounts s !! a with
  | Some acc => exact_sub (acc_balance acc) d
  | None => True
  end.

#[global] Instance exact_balance_add_dec a d s : Decision (exact_balance_add a d s).
Proof. unfold exact_balance_add. destruct (accounts s !! a); apply _. Defined.

#[global] Instance exact_balance_sub_dec a d s : Decision (exact_balance_sub a d s).
Proof. unfold exact_balance_sub. destruct (accounts s !! a); apply _. Defined.

(** The session after the block that rolls the balance change of the row
    [t] back, in [edit_transaction] and [delete_transaction]. *)
Definition rolled_back (t : Transaction) (s : DB) : DB :=
  match tx_account s t with
  | Some a =>
      match tx_type t with
      | income => balance_sub a (tx_amount t) s
      | expense => balance_add a (tx_amount t) s
      end
  | None => s
  end.

(** That block computes exactly. *)
Definition exact_rollback (t : Transaction) (s : DB) : Prop :=
  match tx_account s t with
  | Some a =>
      match tx_type t with
      | income => exact_balance_sub a (tx_amount t) s
      | expense => exact_balance_add a (tx_amount t) s
      end
  | None => True
  end.

(** The block that applies the balance change of a row of type [ty] and
    amount [d] to the account [acc] computes exactly. *)
Definition exact_apply (acc : option Z) (ty : TransactionType) (d : float) (s : DB) : Prop :=
  match acc with
  | Some a =>
      match ty with
      | income => exact_balance_add a d s
      | expense => exact_balance_sub a d s
      end
  | None => True
  end.

#[global] Instance exact_rollback_dec t s : Decision (exact_rollback t s).
Proof. unfold exact_rollback. destruct (tx_account s t); [destruct (tx_type t)|]; apply _. Defined.

#[global] Instance exact_apply_dec acc ty d s : Decision (exact_apply acc ty d s).
Proof. unfold exact_apply. destruct acc; [destruct ty|]; apply _. Defined.

(** Every addition and subtraction on a balance that the request performs
    in the store [s] is exact.  A request that is refused (404, a form that
    does not validate) performs none. *)
Definition exact_request (op : LedgerOp) (s : DB) : Prop :=
  match op with
  | OpAdd u form =>
      if validate_on_submit s u form then
        exact_apply (if decide (form_account form ≠ 0) then Account_get s (form_account form)
                     else None)
                    (form_transaction_type form) (form_amount form) s
      else True
  | OpEdit u i form =>
      match Transaction_first_by s i u with
      | Some t =>
          if validate_on_submit s u form then
            exact_rollback t s
            ∧ exact_apply (if decide (form_account form ≠ 0)
                           then Account_get (rolled_back t s) (form_account form) else None)
                          (form_transaction_type form) (form_amount form) (rolled_back t s)
          else True
      | None => True
      end
  | OpDelete u i =>
      match Transaction_first_by s i u with
      | Some t => exact_rollback t s
      | None => True
      end
  end.

#[global] Instance exact_request_dec op s : Decision (exact_request op s).
Proof.
  destruct op; simpl.
  - destruct (validate_on_submit s user_id form); apply _.
  - destruct (Transaction_first_by s trans_id user_id); [|apply _].
    destruct (validate_on_submit s user_id form); apply _.
  - destruct (Transaction_first_by s trans_id user_id); apply _.
Defined.

(** Every request of the sequence computes exactly, each in the store the
    requests before it have left. *)
Fixpoint exact_run (ops : list LedgerOp) (s : DB) : Prop :=
  match ops with
  | [] => True
  | op :: ops' => exact_request op s ∧ exact_run ops' (perform op s).2
  end.

#[global] Instance exact_run_dec ops s : Decision (exact_run ops s).
Proof. revert s. induction ops as [|op ops IH]; intros s; simpl; apply _. Defined.

(** The exact sum of two finite floats, in units. *)
Definition units_sum (x y : float) : option Z :=
  a ← units x; b ← units y; Some (a + b).

(** A balance after the effect of a row of type [ty] and amount [d] is
    applied to it, and after it is rolled back: one float operation each. *)
Definition apply_effect (ty : TransactionType) (d b : float) : float :=
  match ty with
  | income => fadd b d
  | expense => fsub b d
  end.

Definition undo_effect (ty : TransactionType) (d b : float) : float :=
  match ty with
  | income => fsub b d
  | expense => fadd b d
  end.

#[global] Instance Response_eq_dec : EqDecision Response.
Proof. solve_decision. Defined.

(** ** Requests of a logged-in user *)

Inductive Request :=
  | ReqAddTransaction (form : TransactionForm)
  | ReqEditTransaction (trans_id : Z) (form : TransactionForm)
  | ReqDeleteTransaction (trans_id : Z)
  | ReqBulkEdit (transaction_ids : list Z) (category_id account_id : option Z)
  | ReqBulkDelete (transaction_ids : list Z)
  | ReqTransfer (form : TransferForm)
  | ReqRecurringDelete (rec_id : Z)
  | ReqMarkNotificationRead (notif_id : Z)
  | ReqMarkAllNotificationsRead
  | ReqAchievements (now : datetime).

(** The view that serves a request, with [flask_g.user.id = user_id]. *)
Definition serve (user_id : Z) (req : Request) (s : DB) : Response * DB :=
  match req with
  | ReqAddTransaction form => add_transaction user_id form s
  | ReqEditTransaction i form => edit_transaction user_id i form s
  | ReqDeleteTransaction i => delete_transaction user_id i s
  | ReqBulkEdit ids c a => bulk_edit_transactions user_id ids c a s
  | ReqBulkDelete ids => bulk_delete_transactions user_id ids s
  | ReqTransfer form => transfer user_id form s
  | ReqRecurringDelete i => recurring_delete user_id i s
  | ReqMarkNotificationRead i => mark_notification_read user_id i s
  | ReqMarkAllNotificationsRead => mark_all_notifications_read user_id s
  | ReqAchievements now => achievements_view now user_id s
  end.

(** ** Ownership *)

(** The account a transaction is linked to, when it is stored, belongs to the
    user of the transaction. *)
Definition link_owned (s : DB) (t : Transaction) : Prop :=
  match tx_account_id t with
  | Some a =>
      match accounts s !! a with
      | Some acc => acc_user_id acc = tx_user_id t
      | None => True
      end
  | None => True
  end.

#[global] Instance link_owned_dec s t : Decision (link_owned s t).
Proof.
  unfold link_owned. destruct (tx_account_id t) as [a|]; [|apply _].
  destruct (accounts s !! a); apply _.
Defined.

(** Every transaction is linked to an account of its own user. *)
Definition links_owned (s : DB) : Prop :=
  map_Forall (λ _ t, link_owned s t) (transactions s).

#[global] Instance links_owned_dec s : Decision (links_owned s).
Proof. unfold links_owned. apply _. Defined.

(** The rows of the users other than [u] are the same in [s] and [s']: none
    changed, none removed, none added. *)
Definition others_untouched (u : Z) (s s' : DB) : Prop :=
  (∀ i t, tx_user_id t ≠ u → transactions s' !! i = Some t ↔ transactions s !! i = Some t)
  ∧ (∀ i a, acc_user_id a ≠ u → accounts s' !! i = Some a ↔ accounts s !! i = Some a)
  ∧ (∀ i r, rec_user_id r ≠ u → recurrings s' !! i = Some r ↔ recurrings s !! i = Some r)
  ∧ (∀ i n, notif_user_id n ≠ u → notifications s' !! i = Some n ↔ notifications s !! i = Some n)
  ∧ (∀ i h, ach_user_id h ≠ u → achievements s' !! i = Some h ↔ achievements s !! i = Some h)
  ∧ categories s' = categories s.



(** What the user [u] has in the store: the rows of [u] and, among the
    categories, also the shared ones. *)
Definition restrict (u : Z) (s : DB) : DB :=
  {| accounts := filter (λ kv, acc_user_id kv.2 = u) (accounts s);
     categories := filter (λ kv, cat_user_id kv.2 = Some u ∨ cat_user_id kv.2 = None)
                          (categories s);
     transactions := filter (λ kv, tx_user_id kv.2 = u) (transactions s);
     recurrings := filter (λ kv, rec_user_id kv.2 = u) (recurrings s);
     notifications := filter (λ kv, notif_user_id kv.2 = u) (notifications s);
     achievements := filter (λ kv, ach_user_id kv.2 = u) (achievements s) |}.



(** * The recurrence scheduler

    [generate_recurring_occurrences] is imported from [app/utils.py], which is
    not among the sources; the scheduler below follows sections 3 and 4.2 of
    the specification. *)

(** ** Calendar dates *)

Record date := { year : Z; month : Z; day : Z }.

#[global] Instance date_eq_dec : EqDecision date.
Proof. solve_decision. Defined.

Definition is_leap (y : Z) : bool :=
  (y mod 4 =? 0) && (negb (y mod 100 =? 0) || (y mod 400 =? 0)).

Definition days_in_month (y m : Z) : Z :=
  if m =? 2 then (if is_leap y then 29 else 28)
  else if (m =? 4) || (m =? 6) || (m =? 9) || (m =? 11) then 30
  else 31.

Definition valid_date (d : date) : Prop :=
  1 ≤ month d ≤ 12 ∧ 1 ≤ day d ≤ days_in_month (year d) (month d).

(** Comparison of dates: year, then month, then day. *)
Definition date_ltb (a b : date) : bool :=
  (year a <? year b)
  || ((year a =? year b)
      && ((month a <? month b) || ((month a =? month b) && (day a <? day b)))).

Definition date_leb (a b : date) : bool := negb (date_ltb b a).

(** The day after [d]. *)
Definition next_day (d : date) : date :=
  if day d <? days_in_month (year d) (month d)
  then {| year := year d; month := month d; day := day d + 1 |}
  else if month d <? 12
  then {| year := year d; month := month d + 1; day := 1 |}
  else {| year := year d + 1; month := 1; day := 1 |}.

Definition add_days (n : nat) (d : date) : date := Nat.iter n next_day d.

(** The number of days from 0001-01-01 to [d], for checking [next_day]
    against the calendar. *)
Definition days_before_year (y : Z) : Z :=
  365 * (y - 1) + (y - 1) / 4 - (y - 1) / 100 + (y - 1) / 400.

Fixpoint days_before_month_nat (y : Z) (m : nat) : Z :=
  match m with
  | O => 0
  | S m' => days_before_month_nat y m' + days_in_month y (Z.of_nat (S m'))
  end.

Definition days_before_month (y m : Z) : Z := days_before_month_nat y (Z.to_nat (m - 1)).

Definition toordinal (d : date) : Z :=
  days_before_year (year d) + days_before_month (year d) (month d) + day d.

(** ** Rules *)

Inductive Frequency := daily | weekly | monthly | yearly.

(** Modelled from the spec: the [RecurringRule] entity of section 3 (the
    model class lives in [app/models.py], which is not among the sources).
    The key of the rule in its table is its [id]. *)
Record RecurringRule := {
  owner : Z;
  amount : Z;
  direction : TransactionType;
  frequency : Frequency;
  category : option Z;
  account : option Z;
  start_date : date;
  end_date : option date;
  next_due_date : date;
  active : bool
}.

Definition set_next_due_date (d : date) (r : RecurringRule) : RecurringRule :=
  {| owner := owner r; amount := amount r; direction := direction r;
     frequency := frequency r; category := category r; account := account r;
     start_date := start_date r; end_date := end_date r;
     next_due_date := d; active := active r |}.

Definition set_active (b : bool) (r : RecurringRule) : RecurringRule :=
  {| owner := owner r; amount := amount r; direction := direction r;
     frequency := frequency r; category := category r; account := account r;
     start_date := start_date r; end_date := end_date r;
     next_due_date := next_due_date r; active := b |}.

(** The month after the month of [d], as a year and a month. *)
Definition next_month (d : date) : Z * Z :=
  if month d <? 12 then (year d, month d + 1) else (year d + 1, 1).

(** Modelled from the spec: step 1c of section 4.2, the advancement of
    [next_due_date] by the frequency of the rule ([app/utils.py] is not among
    the sources).  A monthly or yearly rule keeps its day of the month, the
    one of [start_date], and falls on the last day of a target month that is
    shorter. *)
Definition advance (r : RecurringRule) (d : date) : date :=
  match frequency r with
  | daily => add_days 1 d
  | weekly => add_days 7 d
  | monthly =>
      let '(y, m) := next_month d in
      {| year := y; month := m; day := Z.min (day (start_date r)) (days_in_month y m) |}
  | yearly =>
      {| year := year d + 1; month := month d;
         day := Z.min (day (start_date r)) (days_in_month (year d + 1) (month d)) |}
  end.

(** The due dates of a rule from [d] on: [d], then one advancement, then two... *)
Definition schedule (r : RecurringRule) (d : date) (k : nat) : date :=
  Nat.iter k (advance r) d.

(** ** Materialized occurrences and the ledger *)

(** Modelled from the spec: a [Transaction] of section 3 with
    [source = recurring], tagged with the rule that produced it. *)
Record Occurrence := {
  occ_rule_id : Z;
  occ_owner : Z;
  occ_date : date;
  occ_amount : Z;
  occ_direction : TransactionType;
  occ_category : option Z;
  occ_account : option Z
}.

(** Modelled from the spec: the state the scheduler works on, the rules, the
    balances of the accounts and the occurrences materialized so far. *)
Record Scheduler := {
  rules : gmap Z RecurringRule;
  balances : gmap Z Z;
  ledger : list Occurrence
}.

(** Modelled from the spec: [LedgerMutator.apply] of section 4.1, income
    positive and expense negative. *)
Definition signed_amount (dir : TransactionType) (amt : Z) : Z :=
  match dir with
  | income => amt
  | expense => - amt
  end.

Definition LedgerMutator_apply (acct : Z) (signedAmount : Z) (b : gmap Z Z) : gmap Z Z :=
  alter (λ x, x + signedAmount) acct b.

(** Modelled from the spec: step 1b of section 4.2 for one occurrence, the
    balance of the linked account when there is one. *)
Definition apply_occurrence (o : Occurrence) (b : gmap Z Z) : gmap Z Z :=
  match occ_account o with
  | Some acct => LedgerMutator_apply acct (signed_amount (occ_direction o) (occ_amount o)) b
  | None => b
  end.

(** Modelled from the spec: step 1a of section 4.2, the occurrence of the rule
    [rid] dated [next_due_date]. *)
Definition materialize (rid : Z) (r : RecurringRule) : Occurrence :=
  {| occ_rule_id := rid; occ_owner := owner r; occ_date := next_due_date r;
     occ_amount := amount r; occ_direction := direction r;
     occ_category := category r; occ_account := account r |}.

(** Modelled from the spec: the condition of the loop of step 1 of
    section 4.2. *)
Definition due (asOf : date) (r : RecurringRule) : bool :=
  date_leb (next_due_date r) asOf
  && match end_date r with
     | Some e => date_leb (next_due_date r) e
     | None => true
     end.

(** Modelled from the spec: the loop of step 1 of section 4.2 for one rule.
    [fuel] bounds the number of iterations; [None] is a loop that did not end
    within the bound. *)
Fixpoint catch_up (fuel : nat) (asOf : date) (rid : Z) (r : RecurringRule)
    : option (list Occurrence * RecurringRule) :=
  if due asOf r then
    match fuel with
    | O => None
    | S fuel' =>
        '(occs, r') ← catch_up fuel' asOf rid
                         (set_next_due_date (advance r (next_due_date r)) r);
        Some (materialize rid r :: occs, r')
    end
  else Some ([], r).

(** Modelled from the spec: step 1d of section 4.2, a rule whose pointer is
    past its [end_date] is deactivated. *)
Definition deactivate_if_ended (r : RecurringRule) : RecurringRule :=
  match end_date r with
  | Some e => if date_ltb e (next_due_date r) then set_active false r else r
  | None => r
  end.

(** A position of [d] on a line on which valid dates keep their order. *)
Definition date_rank (d : date) : Z := (year d * 12 + (month d - 1)) * 31 + (day d - 1).

(** Enough iterations to take a valid pointer past [asOf]. *)
Definition catch_up_bound (asOf : date) (r : RecurringRule) : nat :=
  S (Z.to_nat (date_rank asOf - date_rank (next_due_date r))).

(** Modelled from the spec: the unit of work of section 4.2 and section 5 for
    the rule [rid]: the whole catch-up of the rule, its effects on the
    balances and the new pointer, committed together or not at all.  The
    result is the new state and the occurrences materialized. *)
Definition process_rule (asOf : date) (rid : Z) (s : Scheduler) : Scheduler * list Occurrence :=
  match rules s !! rid with
  | Some r =>
      if active r && date_leb (next_due_date r) asOf then
        match catch_up (catch_up_bound asOf r) asOf rid r with
        | Some (occs, r') =>
            ({| rules := <[rid := deactivate_if_ended r']> (rules s);
                balances := foldl (λ b o, apply_occurrence o b) (balances s) occs;
                ledger := ledger s ++ occs |}, occs)
        | None => (s, [])
        end
      else (s, [])
  | None => (s, [])
  end.

(** Modelled from the spec: a sequence of units of work of section 5, each
    with the instant of the call of [tick] it belongs to; overlapping calls
    are interleavings of their units. *)
Fixpoint run_units (units : list (date * Z)) (s : Scheduler) : Scheduler * list Occurrence :=
  match units with
  | [] => (s, [])
  | (asOf, rid) :: units' =>
      let '(s1, occs1) := process_rule asOf rid s in
      let '(s2, occs2) := run_units units' s1 in
      (s2, occs1 ++ occs2)
  end.

(** Modelled from the spec: the rules a call of [tick] looks at, all of them
    or those of one owner (section 4.2). *)
Definition in_scope (scope : option Z) (r : RecurringRule) : bool :=
  match scope with
  | Some u => bool_decide (owner r = u)
  | None => true
  end.

Definition rules_in_scope (scope : option Z) (s : Scheduler) : list Z :=
  (map_to_list (filter (λ kv : Z * RecurringRule, in_scope scope kv.2 = true) (rules s))).*1.

(** Modelled from the spec: [tick(asOf, owner?)] of section 4.2. *)
Definition tick (asOf : date) (scope : option Z) (s : Scheduler) : Scheduler * list Occurrence :=
  run_units ((λ rid, (asOf, rid)) <$> rules_in_scope scope s) s.

(** ** Valid dates and rules *)

Definition in_range (d : date) : Prop := 1 ≤ month d ≤ 12 ∧ 1 ≤ day d ≤ 31.

Definition valid_rule (r : RecurringRule) : Prop :=
  valid_date (start_date r) ∧ valid_date (next_due_date r).

(** The occurrence of the rule at the [j]-th date of its schedule. *)
Definition occurrence_at (rid : Z) (r : RecurringRule) (j : nat) : Occurrence :=
  materialize rid (set_next_due_date (schedule r (next_due_date r) j) r).

(** What a catch-up loop that ends has done: [k] occurrences, one per date of
    the schedule from the old pointer on, each of them due; the pointer is
    the next date of the schedule, and it is no longer due. *)
Definition caught_up (asOf : date) (rid : Z) (r : RecurringRule) (k : nat)
    (occs : list Occurrence) (r' : RecurringRule) : Prop :=
  r' = set_next_due_date (schedule r (next_due_date r) k) r
  ∧ occs = occurrence_at rid r <$> seq 0 k
  ∧ (∀ j, (j < k)%nat → due asOf (set_next_due_date (schedule r (next_due_date r) j) r) = true)
  ∧ due asOf r' = false.

(** The key under which an occurrence must be unique. *)
Definition occurrence_key (o : Occurrence) : Z * date := (occ_rule_id o, occ_date o).

(** * The notification evaluator

    [generate_all_notifications] is imported from [app/notifications.py],
    which is not among the sources; the evaluator below follows section 4.3
    of the specification. *)

(** Modelled from the spec: a candidate notification of section 4.3, the
    result of one rule check, keyed by its [dedup_key]. *)
Record Candidate := {
  cand_kind : string;
  cand_dedup_key : string;
  cand_message : string
}.

(** Modelled from the spec: the test of the upsert policy of section 4.3, an
    unread notification of [owner] with the key [key] is stored. *)
Definition has_unread (s : DB) (owner : Z) (key : string) : bool :=
  bool_decide
    (map_Exists (λ _ n, notif_user_id n = owner ∧ notif_dedup_key n = key
                        ∧ notif_is_read n = false)
                (notifications s)).

(** Modelled from the spec: the notification inserted for a candidate,
    unread and created now. *)
Definition new_notification (owner : Z) (now : datetime) (c : Candidate) : Notification :=
  {| notif_user_id := owner; notif_kind := cand_kind c;
     notif_dedup_key := cand_dedup_key c; notif_message := cand_message c;
     notif_created_at := now; notif_is_read := false |}.

(** Modelled from the spec: the upsert policy of section 4.3 for one
    candidate.  The state is the list of notifications inserted by the call
    so far and the store. *)
Definition upsert (owner : Z) (now : datetime) (c : Candidate)
    (st : list Notification * DB) : list Notification * DB :=
  let '(out, s) := st in
  if has_unread s owner (cand_dedup_key c) then (out, s)
  else
    (out ++ [new_notification owner now c],
     set_notifications (insert (next_id (notifications s)) (new_notification owner now c)) s).

(** Modelled from the spec: [evaluate(owner)] of section 4.3.  The battery of
    rule checks is a list of functions of the aggregates of the owner
    (budgets, goals, debts, accounts), each giving one candidate or none; the
    candidates are upserted in the order of the checks.  The result is the
    list of the notifications inserted and the store. *)
Definition evaluate {Aggregates : Type} (checks : list (Aggregates → Z → option Candidate))
    (agg : Aggregates) (owner : Z) (now : datetime) (s : DB) : list Notification * DB :=
  foldl (λ st c, upsert owner now c st) ([], s) (omap (λ check, check agg owner) checks).

(** At most one unread notification per owner and key. *)
Definition unique_unread (s : DB) : Prop :=
  ∀ i j ni nj,
    notifications s !! i = Some ni → notifications s !! j = Some nj →
    notif_is_read ni = false → notif_is_read nj = false →
    notif_user_id ni = notif_user_id nj →
    notif_dedup_key ni = notif_dedup_key nj →
    i = j.

(** * Sample data *)

(** Two users, 7 and 8.  User 7 has the accounts 1 and 2, user 8 the
    account 3; transaction 2 of user 7 has no account. *)
Definition sample_store : DB :=
  {| accounts :=
       {[ 1 := {| acc_user_id := 7; acc_balance := float_of_Z 5000; acc_is_active := true |};
          2 := {| acc_user_id := 7; acc_balance := float_of_Z 300; acc_is_active := true |};
          3 := {| acc_user_id := 8; acc_balance := float_of_Z 50; acc_is_active := true |} ]};
     categories := {[ 1 := {| cat_user_id := None |}; 2 := {| cat_user_id := Some 7 |} ]};
     transactions :=
       {[ 1 := {| tx_user_id := 7; tx_date := datetime_combine_min 10;
                  tx_amount := float_of_Z 40; tx_type := expense;
                  tx_category_id := None; tx_account_id := Some 2 |};
          2 := {| tx_user_id := 7; tx_date := datetime_combine_min 11;
                  tx_amount := float_of_Z 25; tx_type := income;
                  tx_category_id := Some 1; tx_account_id := None |};
          3 := {| tx_user_id := 8; tx_date := datetime_combine_min 11;
                  tx_amount := float_of_Z 5; tx_type := expense;
                  tx_category_id := None; tx_account_id := Some 3 |} ]};
     recurrings := {[ 1 := {| rec_user_id := 7; rec_active := true |} ]};
     notifications := ∅;
     achievements :=
       {[ 1 := {| ach_user_id := 7; ach_condition_type := "transactions_count";
                  ach_condition_value := 2; ach_is_unlocked := false;
                  ach_unlocked_at := None |};
          2 := {| ach_user_id := 7; ach_condition_type := "days_streak";
                  ach_condition_value := 9; ach_is_unlocked := true;
                  ach_unlocked_at := Some (datetime_combine_min 5) |} ]} |}.

(** The same store with two locked achievements of user 7, whose
    transactions are two, on the days 10 and 11: one for two days with a
    transaction, one for five transactions. *)
Definition streak_store : DB :=
  set_achievements
    (λ _, {[ 3 := {| ach_user_id := 7; ach_condition_type := "days_streak";
                     ach_condition_value := 2; ach_is_unlocked := false;
                     ach_unlocked_at := None |};
             4 := {| ach_user_id := 7; ach_condition_type := "transactions_count";
                     ach_condition_value := 5; ach_is_unlocked := false;
                     ach_unlocked_at := None |} ]})
    sample_store.



Definition sample_transfer : TransferForm :=
  {| form_from_account := 1; form_to_account := 2;
     form_transfer_amount := float_of_Z 1200; form_transfer_date := 21 |}.

(** A store with amounts that are no binary fractions.  User 7 has the
    account 1 with a balance of 0.0, the account 2 with 1000.0, the account 3
    with 0.1 and the account 4, which holds 50.0 and is closed.  There is no
    transaction yet. *)
Definition float_store : DB :=
  {| accounts :=
       {[ 1 := {| acc_user_id := 7; acc_balance := fzero; acc_is_active := true |};
          2 := {| acc_user_id := 7; acc_balance := float_of_Z 1000; acc_is_active := true |};
          3 := {| acc_user_id := 7; acc_balance := decimal 1 10; acc_is_active := true |};
          4 := {| acc_user_id := 7; acc_balance := float_of_Z 50; acc_is_active := false |} ]};
     categories := ∅; transactions := ∅; recurrings := ∅; notifications := ∅;
     achievements := ∅ |}.



(** 0.7 from the account 2 to the account 3, and 10.0 from the account 2 to
    the closed account 4. *)
Definition rounding_transfer : TransferForm :=
  {| form_from_account := 2; form_to_account := 3;
     form_transfer_amount := decimal 7 10; form_transfer_date := 21 |}.

Definition closed_transfer : TransferForm :=
  {| form_from_account := 2; form_to_account := 4;
     form_transfer_amount := float_of_Z 10; form_transfer_date := 21 |}.

Definition ymd (y m d : Z) : date := {| year := y; month := m; day := d |}.

(** The rule of the scenario of section 8: monthly, 1000, expense, from
    2024-01-01, on an account that holds 5000. *)
Definition sample_rule : RecurringRule :=
  {| owner := 7; amount := 1000; direction := expense; frequency := monthly;
     category := None; account := Some 1;
     start_date := ymd 2024 1 1; end_date := None;
     next_due_date := ymd 2024 1 1; active := true |}.

Definition sample_scheduler : Scheduler :=
  {| rules := {[ 3 := sample_rule ]}; balances := {[ 1 := 5000 ]}; ledger := [] |}.

(** A monthly rule that starts on the 31st. *)
Definition end_of_month_rule : RecurringRule :=
  {| owner := 7; amount := 10; direction := expense; frequency := monthly;
     category := None; account := None;
     start_date := ymd 2024 1 31; end_date := None;
     next_due_date := ymd 2024 1 31; active := true |}.



(** * Notions used in the statements *)

(** The loop changes balances and rows of [transactions], never the set of
    accounts nor their owners. *)
Definition same_accounts (s s' : DB) : Prop :=
  ∀ a, acc_user_id <$> accounts s' !! a = acc_user_id <$> accounts s !! a.

Definition owned_account (u : Z) (s : DB) (a : Z) : Prop :=
  ∀ acc, accounts s !! a = Some acc → acc_user_id acc = u.

Definition owned_slot (u : Z) (s : DB) (i : Z) : Prop :=
  ∀ t, transactions s !! i = Some t → tx_user_id t = u.


(** Every occurrence produced so far is dated before the pointer of its rule. *)
Definition behind_pointer (s : Scheduler) (out : list Occurrence) : Prop :=
  ∀ o, o ∈ out →
    ∃ r, rules s !! occ_rule_id o = Some r ∧ date_ltb (occ_date o) (next_due_date r) = true.

(** The loop over the candidates. *)
Definition upsert_all (owner : Z) (now : datetime) (cs : list Candidate)
    (st : list Notification * DB) : list Notification * DB :=
  foldl (λ st c, upsert owner now c st) st cs.




(** * More of the views *)

(** Requests of several users, one after the other. *)
Definition serve_all (reqs : list (Z * Request)) (s : DB) : DB :=
  foldl (λ s ur, (serve ur.1 ur.2 s).2) s reqs.

(** ** Accounts *)

Definition acc_set_inactive (acc : Account) : Account :=
  {| acc_user_id := acc_user_id acc; acc_balance := acc_balance acc; acc_is_active := false |}.

(** [delete_account]: the row is kept and marked inactive. *)
Definition delete_account (user_id acc_id : Z) (s : DB) : Response * DB :=
  match accounts s !! acc_id with
  | Some acc =>
      if decide (acc_user_id acc = user_id)
      then (redirect "accounts", set_accounts (insert acc_id (acc_set_inactive acc)) s)
      else (abort404, s)
  | None => (abort404, s)
  end.

(** ** The decorator of the views *)

(** [login_required(fn)]: the wrapper reads [flask_g.user]; the view it wraps
    reads [flask_g.user.id]. *)
Definition login_required (fn : Z → DB → Response * DB) (user : option Z) (s : DB) : Response * DB :=
  match user with
  | Some user_id => fn user_id s
  | None => (redirect "login", s)
  end.

(** ** The chart queries

    The day number of a [datetime] is the ordinal of its calendar day
    ([date.toordinal]); its time of day counts from midnight. *)

Definition ValueError : Exception := OtherException "ValueError".

Definition OverflowError : Exception := OtherException "OverflowError".

(** The integers that fit the C [int] to which [datetime] converts its
    arguments. *)
Definition fits_c_int (z : Z) : Prop := - 2 ^ 31 ≤ z < 2 ^ 31.

#[global] Instance fits_c_int_dec z : Decision (fits_c_int z).
Proof. unfold fits_c_int. apply _. Defined.

(** [datetime(year, month, 1)]: midnight of the first day of a month.  The
    arguments are Python integers of any size: [OverflowError] when one does
    not fit a C [int], and otherwise [ValueError] outside the years 1 to 9999
    and the months 1 to 12. *)
Definition first_of_month (y m : Z) : result datetime :=
  if bool_decide (fits_c_int y ∧ fits_c_int m) then
    if bool_decide (1 ≤ y ≤ 9999 ∧ 1 ≤ m ≤ 12)
    then Ok {| dt_day := toordinal {| year := y; month := m; day := 1 |}; dt_time := 0 |}
    else Raise ValueError
  else Raise OverflowError.

Definition datetime_ltb (a b : datetime) : bool :=
  (dt_day a <? dt_day b) || ((dt_day a =? dt_day b) && (dt_time a <? dt_time b)).

Definition datetime_leb (a b : datetime) : bool := negb (datetime_ltb b a).

(** [start] and [end] of [api_chart_income_expense] and [api_chart_categories],
    [month_start] and [month_end] of [api_chart_trends]. *)
Definition month_window (y m : Z) : result (datetime * datetime) :=
  result_bind (first_of_month y m) (λ start,
    result_bind (first_of_month (y + (if decide (m = 12) then 1 else 0))
                                (if decide (m = 12) then 1 else m + 1))
      (λ end_, Ok (start, end_))).

(** [Transaction.date >= start, Transaction.date < end] *)
Definition in_window (w : datetime * datetime) (t : Transaction) : bool :=
  datetime_leb w.1 (tx_date t) && datetime_ltb (tx_date t) w.2.

(** [common_filters] with the filter on the type of the row. *)
Definition chart_rows (ty : TransactionType) (w : datetime * datetime) (user_id : Z)
    (s : DB) : gmap Z Transaction :=
  filter (λ kv, tx_type kv.2 = ty ∧ in_window w kv.2 = true ∧ tx_user_id kv.2 = user_id)
         (transactions s).

(** The rows of a table in the order of their primary keys. *)
Definition rows_in_order {A} (m : gmap Z A) : list A :=
  omap (λ k, m !! k) (merge_sort Z.le (map_to_list m).*1).

(** [db.func.sum(...)] over the rows of a query: [None] over no row, and
    otherwise the amounts added up one after the other, in floats. *)
Definition sql_sum (xs : list float) : option float :=
  match xs with
  | [] => None
  | x :: xs' => Some (foldl fadd x xs')
  end.

(** [with_entities(db.func.sum(Transaction.amount)).scalar() or 0.0] *)
Definition sum_amount (txs : gmap Z Transaction) : float :=
  or_zero (sql_sum (tx_amount <$> rows_in_order txs)).

(** [api_chart_income_expense], with the query arguments [year] and [month]
    already read as integers: the two totals of the answer, or the exception
    that leaves the view. *)
Definition api_chart_income_expense (user_id y m : Z) (s : DB) : result (float * float) :=
  result_bind (month_window y m) (λ w,
    Ok (sum_amount (chart_rows income w user_id s),
        sum_amount (chart_rows expense w user_id s))).

(** Months counted from the year 0, and the ordinal of the first day of the
    month of index [k]. *)
Definition month_index (y m : Z) : Z := y * 12 + (m - 1).

Definition month_start (k : Z) : Z :=
  toordinal {| year := k / 12; month := k mod 12 + 1; day := 1 |}.

(** * Categories by name, templates and debts

    The tables that the views below use besides those of [DB].  The name of a
    category is kept beside its row, under the same key. *)

Record Template := {
  tpl_user_id : option Z;
  tpl_amount : float;
  tpl_type : TransactionType;
  tpl_category_id : option Z;
  tpl_account_id : option Z;
  tpl_use_count : Z
}.

(** [views.py] names two members of [DebtType]. *)
Inductive DebtType := credit_card | credit | other_debt_type (name : string).

(** The columns of a debt that [make_payment] uses.  [payment_date] is kept
    as a calendar day and a time of day, since the view adds a month to it. *)
Record Debt := {
  debt_user_id : Z;
  debt_type : DebtType;
  debt_amount : option float;
  debt_paid_amount : option float;
  debt_current_balance : option float;
  debt_account_id : option Z;
  debt_payment_date : option (date * Z)
}.

Record Store := {
  db : DB;
  category_names : gmap Z string;
  templates : gmap Z Template;
  debts : gmap Z Debt
}.

Definition set_db (f : DB → DB) (st : Store) : Store :=
  {| db := f (db st); category_names := category_names st;
     templates := templates st; debts := debts st |}.

Definition set_templates (f : gmap Z Template → gmap Z Template) (st : Store) : Store :=
  {| db := db st; category_names := category_names st;
     templates := f (templates st); debts := debts st |}.

Definition set_debts (f : gmap Z Debt → gmap Z Debt) (st : Store) : Store :=
  {| db := db st; category_names := category_names st;
     templates := templates st; debts := f (debts st) |}.

Definition set_categories (f : gmap Z Category → gmap Z Category) (s : DB) : DB :=
  {| accounts := accounts s; categories := f (categories s);
     transactions := transactions s; recurrings := recurrings s;
     notifications := notifications s; achievements := achievements s |}.

(** The smallest key of a table: the row that [first()] returns for a query
    with no ordering. *)
Definition first_key {A} (m : gmap Z A) : option Z :=
  map_fold (λ k _ r, Some (from_option (Z.min k) k r)) None m.

(** [Category.query.filter_by(name=name, user_id=user_id).first()] *)
Definition Category_by_name (st : Store) (name : string) (user_id : Z) : option Z :=
  first_key (filter (λ kv, cat_user_id kv.2 = Some user_id
                           ∧ category_names st !! kv.1 = Some name)
                    (categories (db st))).

(** [db.session.add(Category(name=name, user_id=user_id))] *)
Definition add_category (user_id : Z) (name : string) (st : Store) : Store :=
  let i := next_id (categories (db st)) in
  {| db := set_categories (insert i {| cat_user_id := Some user_id |}) (db st);
     category_names := <[i:=name]> (category_names st);
     templates := templates st; debts := debts st |}.

(** ** Category views *)

(** [categories], POST branch.  [valid] is what [form.validate_on_submit()]
    answers and [name] is [form.name.data.strip()]. *)
Definition categories_view (user_id : Z) (valid : bool) (name : string) (st : Store)
    : Response * Store :=
  if valid then
    match Category_by_name st name user_id with
    | Some _ => (render_template "categories.html", st)
    | None => (redirect "categories", add_category user_id name st)
    end
  else (render_template "categories.html", st).

(** The answers of the quick-add endpoint. *)
Inductive QuickAddResponse :=
  | quick_added (category_id : Z) (name : string)
  | quick_error (status : Z).

(** [add_quick_category].  [name] is [data.get('name', '').strip()];
    [commit_raises] is the exception that adding and committing the row
    meets, if any. *)
Definition add_quick_category (user_id : Z) (name : string)
    (commit_raises : option Exception) (st : Store) : QuickAddResponse * Store :=
  if decide (name = ""%string) then (quick_error 400, st)
  else
    match Category_by_name st name user_id with
    | Some _ => (quick_error 409, st)
    | None =>
        match commit_raises with
        | None => (quick_added (next_id (categories (db st))) name, add_category user_id name st)
        | Some _ => (quick_error 500, st)
        end
    end.

(** ** Templates *)

(** The relationships [template.account] and [template.category]. *)
Definition tpl_account (s : DB) (tpl : Template) : option Z :=
  a ← tpl_account_id tpl; _ ← accounts s !! a; Some a.

Definition tpl_category (s : DB) (tpl : Template) : option Z :=
  c ← tpl_category_id tpl; _ ← categories s !! c; Some c.

Definition tpl_used (tpl : Template) : Template :=
  {| tpl_user_id := tpl_user_id tpl; tpl_amount := tpl_amount tpl; tpl_type := tpl_type tpl;
     tpl_category_id := tpl_category_id tpl; tpl_account_id := tpl_account_id tpl;
     tpl_use_count := tpl_use_count tpl + 1 |}.

(** [use_template]; [now] is what [datetime.now()] returns. *)
Definition use_template (now : datetime) (user_id template_id : Z) (st : Store)
    : Response * Store :=
  match templates st !! template_id with
  | Some template =>
      if decide (tpl_user_id template = Some user_id ∨ tpl_user_id template = None) then
        let s := db st in
        let t := {| tx_user_id := user_id;
                    tx_date := now;
                    tx_amount := tpl_amount template;
                    tx_type := tpl_type template;
                    tx_category_id := tpl_category s template;
                    tx_account_id := tpl_account s template |} in
        let s1 :=
          match tpl_account s template with
          | Some a =>
              match tpl_type template with
              | income => balance_add a (tpl_amount template) s
              | expense => balance_sub a (tpl_amount template) s
              end
          | None => s
          end in
        (redirect "transactions",
         {| db := set_transactions (insert (next_id (transactions s1)) t) s1;
            category_names := category_names st;
            templates := <[template_id := tpl_used template]> (templates st);
            debts := debts st |})
      else (abort404, st)
  | None => (abort404, st)
  end.

(** ** Payments on a debt *)

Definition TypeError : Exception := OtherException "TypeError".

Definition debt_set_current_balance (b : float) (d : Debt) : Debt :=
  {| debt_user_id := debt_user_id d; debt_type := debt_type d; debt_amount := debt_amount d;
     debt_paid_amount := debt_paid_amount d; debt_current_balance := Some b;
     debt_account_id := debt_account_id d; debt_payment_date := debt_payment_date d |}.

Definition debt_set_paid_amount (p : float) (d : Debt) : Debt :=
  {| debt_user_id := debt_user_id d; debt_type := debt_type d; debt_amount := debt_amount d;
     debt_paid_amount := Some p; debt_current_balance := debt_current_balance d;
     debt_account_id := debt_account_id d; debt_payment_date := debt_payment_date d |}.

Definition debt_set_payment_date (p : date * Z) (d : Debt) : Debt :=
  {| debt_user_id := debt_user_id d; debt_type := debt_type d; debt_amount := debt_amount d;
     debt_paid_amount := debt_paid_amount d; debt_current_balance := debt_current_balance d;
     debt_account_id := debt_account_id d; debt_payment_date := Some p |}.

(** The block [# Update debt balance].  Comparing the paid amount with an
    amount that is [None] raises [TypeError]. *)
Definition update_debt_balance (payment_amount : float) (d : Debt) : result Debt :=
  match debt_type d with
  | credit_card =>
      let b := fsub (or_zero (debt_current_balance d)) payment_amount in
      Ok (debt_set_current_balance (if fltb b fzero then fzero else b) d)
  | _ =>
      let p := fadd (or_zero (debt_paid_amount d)) payment_amount in
      match debt_amount d with
      | Some amount => Ok (debt_set_paid_amount (if fltb amount p then amount else p) d)
      | None => Raise TypeError
      end
  end.

(** [dt + relativedelta(months=1)] on the calendar day of a [datetime]: the
    same day of the next month, or its last day when the month is shorter;
    [ValueError] past the year 9999. *)
Definition add_one_month (d : date) : result date :=
  let '(y, m) := next_month d in
  if decide (y ≤ 9999)
  then Ok {| year := y; month := m; day := Z.min (day d) (days_in_month y m) |}
  else Raise ValueError.

(** The block [# Update next payment date]. *)
Definition update_payment_date (payment_date_obj : datetime) (d : Debt) : result Debt :=
  match debt_payment_date d with
  | Some (day, time) =>
      if decide (toordinal day = dt_day payment_date_obj) then
        result_bind (add_one_month day) (λ day', Ok (debt_set_payment_date (day', time) d))
      else Ok d
  | None => Ok d
  end.

Definition debt_category_name : string := "Погашение долга".

(** The relationship [d.account]. *)
Definition debt_account (s : DB) (d : Debt) : option Z :=
  a ← debt_account_id d; _ ← accounts s !! a; Some a.

(** The block [# Create transaction if needed], when the box is ticked. *)
Definition create_payment_transaction (user_id : Z) (payment_amount : float)
    (payment_date_obj : datetime) (d : Debt) (st : Store) : Store :=
  let '(category, st1) :=
    match Category_by_name st debt_category_name user_id with
    | Some c => (c, st)
    | None => (next_id (categories (db st)), add_category user_id debt_category_name st)
    end in
  let s1 := db st1 in
  let t := {| tx_user_id := user_id;
              tx_date := payment_date_obj;
              tx_amount := payment_amount;
              tx_type := expense;
              tx_category_id := Some category;
              tx_account_id := debt_account s1 d |} in
  let s2 := set_transactions (insert (next_id (transactions s1)) t) s1 in
  let s3 :=
    match debt_account s1 d with
    | Some a => balance_sub a payment_amount s2
    | None => s2
    end in
  set_db (λ _, s3) st1.

(** An exception that leaves a view on the larger store. *)
Definition uncaught_in (st : Store) : Response * Store := ((uncaught (db st)).1, st).

(** [make_payment].  [payment_amount] is the posted amount; [payment_date]
    is the posted date when [strptime] reads it, and [now] stands in for it
    otherwise.  An exception leaves the view: the answer is the error page
    and the session is discarded. *)
Definition make_payment (now : datetime) (user_id debt_id : Z) (payment_amount : float)
    (payment_date : option datetime) (create_transaction : bool) (st : Store)
    : Response * Store :=
  match debts st !! debt_id with
  | Some d =>
      if decide (debt_user_id d = user_id) then
        if fleb payment_amount fzero then (redirect "debt_detail", st)
        else
          let payment_date_obj := default now payment_date in
          match update_debt_balance payment_amount d with
          | Ok d1 =>
              let st1 :=
                if create_transaction
                then create_payment_transaction user_id payment_amount payment_date_obj d1 st
                else st in
              match update_payment_date payment_date_obj d1 with
              | Ok d2 => (redirect "debt_detail", set_debts (insert debt_id d2) st1)
              | Raise _ => uncaught_in st
              end
          | Raise _ => uncaught_in st
          end
      else (abort404, st)
  | None => (abort404, st)
  end.

(** ** Requests on the larger store *)

Inductive StoreRequest :=
  | ReqLedger (req : Request)
  | ReqDeleteAccount (acc_id : Z)
  | ReqCategories (valid : bool) (name : string)
  | ReqQuickCategory (name : string) (commit_raises : option Exception)
  | ReqUseTemplate (now : datetime) (template_id : Z)
  | ReqMakePayment (now : datetime) (debt_id : Z) (payment_amount : float)
      (payment_date : option datetime) (create_transaction : bool).

(** The store that a request of the user leaves behind. *)
Definition serve_store (user_id : Z) (req : StoreRequest) (st : Store) : Store :=
  match req with
  | ReqLedger r => set_db (λ s, (serve user_id r s).2) st
  | ReqDeleteAccount a => set_db (λ s, (delete_account user_id a s).2) st
  | ReqCategories valid name => (categories_view user_id valid name st).2
  | ReqQuickCategory name e => (add_quick_category user_id name e st).2
  | ReqUseTemplate now i => (use_template now user_id i st).2
  | ReqMakePayment now i amount date box =>
      (make_payment now user_id i amount date box st).2
  end.

Definition serve_store_all (reqs : list (Z * StoreRequest)) (st : Store) : Store :=
  foldl (λ st ur, serve_store ur.1 ur.2 st) st reqs.

(** No user has two categories of the same name. *)
Definition names_unique (st : Store) : Prop :=
  map_Forall (λ i ci,
    map_Forall (λ j cj,
      is_Some (cat_user_id ci) → cat_user_id ci = cat_user_id cj →
      is_Some (category_names st !! i) → category_names st !! i = category_names st !! j →
      i = j) (categories (db st))) (categories (db st)).

#[global] Instance names_unique_dec st : Decision (names_unique st).
Proof. unfold names_unique. apply _. Defined.

(** Where a payment leaves a debt: a card balance is not below zero, and
    what is paid on another debt is not above its amount. *)
Definition debt_settled_within (d : Debt) : Prop :=
  match debt_type d with
  | credit_card => fltb (default fzero (debt_current_balance d)) fzero = false
  | _ =>
      match debt_amount d with
      | Some amount => fltb amount (default fzero (debt_paid_amount d)) = false
      | None => True
      end
  end.

#[global] Instance debt_settled_within_dec d : Decision (debt_settled_within d).
Proof.
  unfold debt_settled_within.
  destruct (debt_type d); [apply _|destruct (debt_amount d); apply _..].
Defined.

(** ** More chart queries *)

Definition no_category_label : string := "Без категории".

(** The relationship [t.category]. *)
Definition tx_category (s : DB) (t : Transaction) : option Z :=
  c ← tx_category_id t; _ ← categories s !! c; Some c.

(** [t.category.name if t.category else ...]; the name of a stored category
    is [None] when its name is missing. *)
Definition cat_name (st : Store) (t : Transaction) : option string :=
  match tx_category (db st) t with
  | Some c => category_names st !! c
  | None => Some no_category_label
  end.

(** The body of the loop of [api_chart_categories] on [categories_data]. *)
Definition count_in_category (st : Store) (data : gmap (option string) float)
    (t : Transaction) : gmap (option string) float :=
  <[cat_name st t := fadd (default fzero (data !! cat_name st t)) (tx_amount t)]> data.

(** [api_chart_categories]: the part [data] of the answer. *)
Definition api_chart_categories (user_id y m : Z) (st : Store)
    : result (gmap (option string) float) :=
  result_bind (month_window y m) (λ w,
    Ok (foldl (count_in_category st) ∅
              (rows_in_order (chart_rows expense w user_id (db st))))).

(** The amounts of the rows filed under the name [name], in the order of
    the rows. *)
Definition amounts_under (st : Store) (name : option string) (rows : list Transaction)
    : list float :=
  tx_amount <$> filter (λ t, cat_name st t = name) rows.

(** [today - relativedelta(months=i)] for [i] from 0 to 11, as a year and a
    month. *)
Definition months_before (today : date) (i : Z) : Z * Z :=
  if decide (month today - i < 1)
  then (year today - 1, month today - i + 12)
  else (year today, month today - i).

(** One turn of the loop of [api_chart_trends]: year, month, income and
    expense of the month that lies [i] months back. *)
Definition trend_of_month (user_id : Z) (today : date) (s : DB) (i : Z)
    (months_data : list (Z * Z * float * float))
    : result (list (Z * Z * float * float)) :=
  let '(y, m) := months_before today i in
  result_bind (month_window y m) (λ w,
    Ok (months_data ++ [(y, m, sum_amount (chart_rows income w user_id s),
                         sum_amount (chart_rows expense w user_id s))])).

(** [api_chart_trends]; [today] is what [date.today()] returns. *)
Definition api_chart_trends (user_id : Z) (today : date) (s : DB)
    : result (list (Z * Z * float * float)) :=
  for_each (trend_of_month user_id today s) [5; 4; 3; 2; 1; 0] [].

(** * More sample data *)

(** February and March 2024 as chart windows, and two moments at the edge
    between them. *)
Definition midnight (d : date) : datetime := {| dt_day := toordinal d; dt_time := 0 |}.

Definition february_2024 : datetime * datetime :=
  (midnight (ymd 2024 2 1), midnight (ymd 2024 3 1)).

Definition march_2024 : datetime * datetime :=
  (midnight (ymd 2024 3 1), midnight (ymd 2024 4 1)).

Definition row_dated (dt : datetime) : Transaction :=
  {| tx_user_id := 7; tx_date := dt; tx_amount := float_of_Z 1; tx_type := expense;
     tx_category_id := None; tx_account_id := None |}.

Definition leap_day_evening : datetime :=
  {| dt_day := toordinal (ymd 2024 2 29); dt_time := 86399 |}.

(** A form of user 7 dated 2024-03-15. *)
Definition march_form : TransactionForm :=
  {| form_date := toordinal (ymd 2024 3 15); form_amount := float_of_Z 120; form_type := "expense";
     form_category := 0; form_account := 1 |}.

(** The larger store over [sample_store]: user 7 has a template on the
    account 1, a loan of 1000 with 950 paid, due on 2024-03-15, and a credit
    card that owes 200. *)
Definition sample_ledger : Store :=
  {| db := sample_store;
     category_names := {[ 1 := "Food"%string; 2 := "Rent"%string ]};
     templates :=
       {[ 1 := {| tpl_user_id := Some 7; tpl_amount := float_of_Z 30; tpl_type := expense;
                  tpl_category_id := Some 2; tpl_account_id := Some 1;
                  tpl_use_count := 0 |};
          2 := {| tpl_user_id := None; tpl_amount := float_of_Z 5; tpl_type := income;
                  tpl_category_id := None; tpl_account_id := None;
                  tpl_use_count := 3 |} ]};
     debts :=
       {[ 1 := {| debt_user_id := 7; debt_type := credit; debt_amount := Some (float_of_Z 1000);
                  debt_paid_amount := Some (float_of_Z 950); debt_current_balance := None;
                  debt_account_id := Some 1;
                  debt_payment_date := Some (ymd 2024 3 15, 0) |};
          2 := {| debt_user_id := 7; debt_type := credit_card; debt_amount := Some (float_of_Z 3000);
                  debt_paid_amount := None; debt_current_balance := Some (float_of_Z 200);
                  debt_account_id := None; debt_payment_date := None |} ]} |}.

Definition sample_store_requests : list (Z * StoreRequest) :=
  [ (7, ReqQuickCategory "Rent" None);
    (8, ReqQuickCategory "Rent" None);
    (7, ReqCategories true "Travel");
    (7, ReqMakePayment (midnight (ymd 2024 3 20)) 1 (float_of_Z 120) (Some (midnight (ymd 2024 3 15))) true);
    (7, ReqMakePayment (midnight (ymd 2024 3 20)) 2 (float_of_Z 500) None true);
    (7, ReqUseTemplate (midnight (ymd 2024 3 21)) 1);
    (7, ReqDeleteAccount 2);
    (7, ReqLedger (ReqBulkDelete [1; 2; 3])) ].

(** * Properties *)

(** * Float comparisons *)

Lemma fleb_not_fltb x y : fleb x y = true → fltb y x = false.
Proof.
  unfold fleb, fltb, SFleb, SFltb.
  destruct x as [sx|sx| |sx mx ex], y as [sy|sy| |sy my ey]; simpl;
    try destruct sx; try destruct sy; simpl; try congruence.
  all: rewrite (Z.compare_antisym ex ey); destruct (ex ?= ey)%Z; simpl; try congruence.
  all: fold (Pos.compare my mx); fold (Pos.compare mx my);
    rewrite (Pos.compare_antisym mx my); destruct (mx ?= my)%positive; simpl; congruence.
Qed.

Lemma fltb_not_fleb x y : fltb x y = true → fleb y x = false.
Proof.
  intros Hlt. destruct (fleb y x) eqn:Hle; [|done].
  apply fleb_not_fltb in Hle. congruence.
Qed.

Lemma fltb_irrefl x : fltb x x = false.
Proof.
  unfold fltb, SFltb. destruct x as [s|s| |s m e]; simpl; try destruct s; simpl; try congruence.
  all: rewrite Z.compare_refl; fold (Pos.compare m m); rewrite Pos.compare_refl; reflexivity.
Qed.


(** ** Primary keys *)

Lemma foldr_max_ge (l : list Z) (k : Z) : k ∈ l → k ≤ foldr Z.max 0 l.
Proof.
  induction l as [|x l IH]; intros Hin; [by apply elem_of_nil in Hin|].
  apply elem_of_cons in Hin as [->|Hin]; simpl; [lia|].
  specialize (IH Hin). lia.
Qed.

Lemma next_id_above {A} (m : gmap Z A) (k : Z) : is_Some (m !! k) → k < next_id m.
Proof.
  intros [x Hx]. unfold next_id.
  assert (k ∈ (map_to_list m).*1) as Hin.
  { apply list_elem_of_fmap. exists (k, x). split; [done|]. by apply elem_of_map_to_list. }
  apply foldr_max_ge in Hin. lia.
Qed.

Lemma next_id_fresh {A} (m : gmap Z A) : m !! next_id m = None.
Proof.
  destruct (m !! next_id m) eqn:E; [|done].
  assert (next_id m < next_id m) by (apply next_id_above; eauto). lia.
Qed.

(** ** The balance invariant *)





Lemma balance_of_balance_add a d s b :
  balance_of (balance_add a d s) b =
  (λ x, if decide (a = b) then fadd x d else x) <$> balance_of s b.
Proof.
  unfold balance_of, balance_add; simpl. rewrite lookup_alter.
  destruct (decide (a = b)) as [->|]; destruct (accounts s !! b); simpl; try done.
Qed.

Lemma balance_of_balance_sub a d s b :
  balance_of (balance_sub a d s) b =
  (λ x, if decide (a = b) then fsub x d else x) <$> balance_of s b.
Proof.
  unfold balance_of, balance_sub; simpl. rewrite lookup_alter.
  destruct (decide (a = b)) as [->|]; destruct (accounts s !! b); simpl; try done.
Qed.

Lemma balance_of_set_transactions f s b :
  balance_of (set_transactions f s) b = balance_of s b.
Proof. done. Qed.

Lemma tx_account_Some s t a :
  tx_account s t = Some a ↔ tx_account_id t = Some a ∧ is_Some (accounts s !! a).
Proof.
  unfold tx_account. destruct (tx_account_id t) as [a'|]; simpl.
  - destruct (accounts s !! a') eqn:E; simpl; split.
    + intros [= ->]. eauto.
    + by intros [[= ->] _].
    + done.
    + intros [[= ->] [? ?]]. congruence.
  - split; [done|]. by intros [? _].
Qed.


Lemma Account_get_Some s i a : Account_get s i = Some a → a = i ∧ is_Some (accounts s !! i).
Proof.
  unfold Account_get. destruct (accounts s !! i); simpl; [|done]. intros [= <-]. eauto.
Qed.




Lemma transactions_apply s t :
  transactions
    match tx_account_id t with
    | Some a =>
        match tx_type t with
        | income => balance_add a (tx_amount t) s
        | expense => balance_sub a (tx_amount t) s
        end
    | None => s
    end
  = transactions s.
Proof. destruct (tx_account_id t); [|done]. by destruct (tx_type t). Qed.

(** *** Balances in units, under exact additions and subtractions *)

Lemma exact_add_units x y :
  exact_add x y → ∃ a b, units x = Some a ∧ units y = Some b ∧ units (fadd x y) = Some (a + b).
Proof. unfold exact_add. destruct (units x), (units y); [eauto|done..]. Qed.

Lemma exact_sub_units x y :
  exact_sub x y → ∃ a b, units x = Some a ∧ units y = Some b ∧ units (fsub x y) = Some (a - b).
Proof. unfold exact_sub. destruct (units x), (units y); [eauto|done..]. Qed.





















(** ** Transfers *)

Lemma next_id_insert_ne {A} (m : gmap Z A) (x : A) :
  next_id (<[next_id m:=x]> m) ≠ next_id m.
Proof.
  intros E. pose proof (next_id_fresh (<[next_id m:=x]> m)) as Hf.
  rewrite E, lookup_insert_eq in Hf. done.
Qed.

Lemma next_id_insert_fresh {A} (m : gmap Z A) (x : A) :
  m !! next_id (<[next_id m:=x]> m) = None.
Proof.
  pose proof (next_id_fresh (<[next_id m:=x]> m)) as Hf.
  rewrite lookup_insert_ne in Hf; [done|]. apply not_eq_sym, next_id_insert_ne.
Qed.

Lemma transfer_choices_elem s u a :
  a ∈ transfer_choices s u ↔
  ∃ acc, accounts s !! a = Some acc ∧ acc_is_active acc = true ∧ acc_user_id acc = u.
Proof.
  unfold transfer_choices. rewrite list_elem_of_fmap. split.
  - intros [[a' acc] [-> Hin]]. apply elem_of_map_to_list in Hin.
    apply map_lookup_filter_Some in Hin as [Hacc [Hact Hu]]. simpl in *. eauto.
  - intros (acc & Hacc & Hact & Hu). exists (a, acc). split; [done|].
    apply elem_of_map_to_list, map_lookup_filter_Some. done.
Qed.

Lemma validate_transfer_true s u form :
  validate_transfer s u form = true ↔
  (∃ acc, accounts s !! form_from_account form = Some acc
          ∧ acc_is_active acc = true ∧ acc_user_id acc = u)
  ∧ (∃ acc, accounts s !! form_to_account form = Some acc
            ∧ acc_is_active acc = true ∧ acc_user_id acc = u).
Proof.
  unfold validate_transfer.
  rewrite andb_true_iff, !bool_decide_eq_true, !transfer_choices_elem. done.
Qed.

(** C9, as the code has it.  A transfer of [m] between two accounts of the
    same user; balances and amounts are floats.  When both accounts are
    active, they differ and the source holds at least [m], exactly two rows
    are added under two new keys, an expense of [m] on the source and an
    income of [m] on the destination; the balance of the source becomes
    the float difference [bf - m], that of the destination the float sum
    [bt + m], and no other account changes; when that subtraction and that
    addition are exact, the two balances keep their sum.  When the accounts
    are the same or the source holds less than [m], the store stays as it
    was.  So it does when one of the two accounts is not active: the form
    offers the active accounts only. *)
Theorem transfer_moves_amount (user_id : Z) (form : TransferForm) (s : DB)
    (from_acc to_acc : Account) :
  accounts s !! form_from_account form = Some from_acc →
  accounts s !! form_to_account form = Some to_acc →
  acc_user_id from_acc = user_id →
  acc_user_id to_acc = user_id →
  let src := form_from_account form in
  let dst := form_to_account form in
  let m := form_transfer_amount form in
  let bf := acc_balance from_acc in
  let bt := acc_balance to_acc in
  let s' := (transfer user_id form s).2 in
  (acc_is_active from_acc = true ∧ acc_is_active to_acc = true
   ∧ src ≠ dst ∧ fleb m bf = true →
     ∃ i1 i2 t1 t2,
       transactions s !! i1 = None ∧ transactions s !! i2 = None ∧ i1 ≠ i2 ∧
       transactions s' = <[i2:=t2]> (<[i1:=t1]> (transactions s)) ∧
       tx_type t1 = expense ∧ tx_amount t1 = m ∧ tx_account_id t1 = Some src ∧
       tx_user_id t1 = user_id ∧
       tx_type t2 = income ∧ tx_amount t2 = m ∧ tx_account_id t2 = Some dst ∧
       tx_user_id t2 = user_id ∧
       balance_of s' src = Some (fsub bf m) ∧
       balance_of s' dst = Some (fadd bt m) ∧
       (exact_sub bf m → exact_add bt m →
          is_Some (units_sum bf bt)
          ∧ units_sum (fsub bf m) (fadd bt m) = units_sum bf bt) ∧
       (∀ a, a ≠ src → a ≠ dst → accounts s' !! a = accounts s !! a))
  ∧ (src = dst ∨ fltb bf m = true → s' = s)
  ∧ (acc_is_active from_acc = false ∨ acc_is_active to_acc = false → s' = s).
Proof.
  intros Hfrom Hto Hfu Htu src dst m bf bt s'. subst s'. unfold transfer.
  split; [|split].
  - intros (Hfa & Hta & Hne & Hle).
    assert (validate_transfer s user_id form = true) as ->.
    { apply validate_transfer_true. split; eauto. }
    rewrite Hfrom, Hto. fold src dst m bf.
    destruct (decide (src = dst)) as [|_]; [done|].
    rewrite (fleb_not_fltb m bf Hle).
    cbv zeta. unfold snd.
    eexists _, _, _, _. split_and!.
    4: reflexivity.
    all: simpl; try done.
    + apply next_id_fresh.
    + apply next_id_insert_fresh.
    + apply not_eq_sym, next_id_insert_ne.
    + rewrite !balance_of_set_transactions, balance_of_balance_add, balance_of_balance_sub.
      unfold balance_of. subst src dst. rewrite Hfrom. simpl.
      rewrite decide_False, decide_True by done. done.
    + rewrite !balance_of_set_transactions, balance_of_balance_add, balance_of_balance_sub.
      unfold balance_of. subst src dst. rewrite Hto. simpl.
      rewrite decide_True, decide_False by done. done.
    + intros Hsub Hadd.
      apply exact_sub_units in Hsub as (zf & zm & Hzf & Hzm & Hzf').
      apply exact_add_units in Hadd as (zt & zm' & Hzt & Hzm' & Hzt').
      assert (zm' = zm) as -> by congruence.
      unfold units_sum. rewrite Hzf, Hzt, Hzf', Hzt'. simpl.
      split; [eauto|]. f_equal. lia.
    + intros a Ha1 Ha2. by rewrite !lookup_alter_ne.
  - intros Hor. destruct (validate_transfer s user_id form); [|done].
    rewrite Hfrom, Hto. fold src dst m bf.
    destruct Hor as [Heq|Hlt].
    + by rewrite decide_True.
    + destruct (decide (src = dst)); [done|]. by rewrite Hlt.
  - intros Hor.
    assert (validate_transfer s user_id form = false) as ->; [|done].
    apply not_true_is_false. rewrite validate_transfer_true.
    rewrite Hfrom, Hto. intros [(a1 & ? & ? & _) (a2 & ? & ? & _)].
    simplify_eq. destruct Hor; congruence.
Qed.

(** ** Loops that may raise *)

Lemma for_each_raises {A S} (body : A → S → result S) (Inv : S → Prop)
    (bad : Exception → Prop) (l : list A) (x0 : A) (st : S) :
  Inv st →
  (∀ x st st', Inv st → body x st = Ok st' → Inv st') →
  (∀ x st e, body x st = Raise e → bad e) →
  x0 ∈ l →
  (∀ st, Inv st → ∃ e, body x0 st = Raise e) →
  ∃ e, for_each body l st = Raise e ∧ bad e.
Proof.
  intros Hst Hpres Hbad Hin Hx0. revert st Hst.
  induction l as [|x l IH]; intros st Hst; [by apply elem_of_nil in Hin|].
  simpl. destruct (body x st) as [st'|e] eqn:Hbody; simpl.
  - apply elem_of_cons in Hin as [->|Hin].
    + destruct (Hx0 st Hst) as [e He]. congruence.
    + apply IH; [done|]. by eapply Hpres.
  - exists e. split; [done|]. by eapply Hbad.
Qed.

(** ** The unguarded dereference of [bulk_edit_transactions] *)

Lemma same_accounts_refl s : same_accounts s s.
Proof. by intros a. Qed.

Lemma same_accounts_trans s1 s2 s3 :
  same_accounts s1 s2 → same_accounts s2 s3 → same_accounts s1 s3.
Proof. intros H12 H23 a. by rewrite H23, H12. Qed.

Lemma same_accounts_balance_add a d s : same_accounts s (balance_add a d s).
Proof.
  intros b. unfold balance_add; simpl. rewrite lookup_alter.
  case_decide; subst; by destruct (accounts s !! _).
Qed.

Lemma same_accounts_balance_sub a d s : same_accounts s (balance_sub a d s).
Proof.
  intros b. unfold balance_sub; simpl. rewrite lookup_alter.
  case_decide; subst; by destruct (accounts s !! _).
Qed.

Lemma same_accounts_set_transactions f s : same_accounts s (set_transactions f s).
Proof. by intros b. Qed.

Lemma same_accounts_is_Some s s' a :
  same_accounts s s' → is_Some (accounts s' !! a) ↔ is_Some (accounts s !! a).
Proof.
  intros H. specialize (H a). rewrite <- !fmap_is_Some with (f := acc_user_id).
  by rewrite H.
Qed.

Lemma same_accounts_tx_account s s' t :
  same_accounts s s' → tx_account s' t = tx_account s t.
Proof.
  intros H. unfold tx_account. destruct (tx_account_id t) as [a|]; simpl; [|done].
  pose proof (same_accounts_is_Some s s' a H) as Hiff.
  destruct (accounts s' !! a) eqn:E1, (accounts s !! a) eqn:E2; simpl; try done.
  - destruct Hiff as [Hiff _]. destruct Hiff; eauto. done.
  - destruct Hiff as [_ Hiff]. destruct Hiff; eauto. done.
Qed.

Lemma same_accounts_first_by s s' a u :
  same_accounts s s' → Account_first_by s' a u = Account_first_by s a u.
Proof.
  intros H. specialize (H a). unfold Account_first_by.
  destruct (accounts s' !! a) as [x|], (accounts s !! a) as [y|]; simpl in *; try done.
  injection H as H. by rewrite H.
Qed.

Lemma bulk_edit_body_same_accounts s0 user_id category_id account_id it s n s' n' :
  same_accounts s0 s →
  bulk_edit_body user_id category_id account_id it (s, n) = Ok (s', n') →
  same_accounts s0 s'.
Proof.
  intros H0 Hbody. eapply same_accounts_trans; [exact H0|]. clear H0.
  unfold bulk_edit_body in Hbody. destruct it as [i t].
  destruct (bulk_edit_category user_id category_id i t s n)
    as [[t1 s1] updated1] eqn:Hcat.
  unfold bulk_edit_category in Hcat. unfold bulk_edit_account in Hbody.
  assert (same_accounts s s1) as H1.
  { destruct (truthy category_id) as [c|]; [|by injection Hcat as _ <- _; intros a].
    destruct (Category_first_by s c user_id); injection Hcat as _ <- _; by intros a. }
  eapply same_accounts_trans; [exact H1|]. clear Hcat H1.
  destruct (truthy account_id) as [a|]; [|by injection Hbody as <- _; intros b].
  destruct (Account_first_by s1 a user_id) as [new_acc|]; [|by injection Hbody as <- _; intros b].
  destruct (tx_account s1 t1) as [old|]; [|done].
  injection Hbody as <- _.
  eapply same_accounts_trans; [|apply same_accounts_set_transactions].
  destruct (decide (old ≠ new_acc)); [|apply same_accounts_refl].
  destruct (tx_type t1).
  - eapply same_accounts_trans; [apply same_accounts_balance_sub|apply same_accounts_balance_add].
  - eapply same_accounts_trans; [apply same_accounts_balance_add|apply same_accounts_balance_sub].
Qed.

Lemma bulk_edit_body_raises user_id category_id account_id it st e :
  bulk_edit_body user_id category_id account_id it st = Raise e → e = AttributeError.
Proof.
  unfold bulk_edit_body. destruct it as [i t], st as [s n].
  destruct (bulk_edit_category user_id category_id i t s n) as [[t1 s1] updated1].
  unfold bulk_edit_account.
  destruct (truthy account_id) as [a|]; [|done].
  destruct (Account_first_by s1 a user_id) as [new_acc|]; [|done].
  destruct (tx_account s1 t1) as [old|]; [done|]. by intros [= <-].
Qed.

Lemma bulk_edit_body_unlinked s0 user_id category_id account_id a i t s n :
  truthy account_id = Some a →
  is_Some (Account_first_by s0 a user_id) →
  tx_account s0 t = None →
  same_accounts s0 s →
  bulk_edit_body user_id category_id account_id (i, t) (s, n) = Raise AttributeError.
Proof.
  intros Ha [new_acc Hnew] Hold Hsame. unfold bulk_edit_body.
  destruct (bulk_edit_category user_id category_id i t s n)
    as [[t1 s1] updated1] eqn:Hcat.
  unfold bulk_edit_category in Hcat. unfold bulk_edit_account.
  assert (same_accounts s s1 ∧ tx_account_id t1 = tx_account_id t) as [H1 Ht1].
  { destruct (truthy category_id) as [c|]; [|by injection Hcat as <- <- _].
    destruct (Category_first_by s c user_id); by injection Hcat as <- <- _. }
  assert (same_accounts s0 s1) as H01 by (by eapply same_accounts_trans).
  rewrite Ha. rewrite (same_accounts_first_by s0 s1) by done. rewrite Hnew.
  assert (tx_account s1 t1 = None) as ->; [|done].
  rewrite (same_accounts_tx_account s0 s1) by done.
  unfold tx_account in *. by rewrite Ht1.
Qed.

Lemma Transaction_in_elem s ids u i t :
  (i, t) ∈ Transaction_in s ids u ↔
  transactions s !! i = Some t ∧ i ∈ ids ∧ tx_user_id t = u.
Proof.
  unfold Transaction_in. rewrite elem_of_map_to_list, map_lookup_filter_Some. simpl.
  tauto.
Qed.

(** C10. When the request names a target account that the query finds for
    the user, and one of the selected rows of the user has no linked account,
    the loop raises [AttributeError]; the handler rolls the session back and
    answers 500: the stored rows and balances are what they were. *)
Theorem bulk_edit_unlinked_row_raises (user_id : Z) (transaction_ids : list Z)
    (category_id account_id : option Z) (s : DB) (a i : Z) (t : Transaction) :
  truthy account_id = Some a →
  is_Some (Account_first_by s a user_id) →
  i ∈ transaction_ids →
  transactions s !! i = Some t →
  tx_user_id t = user_id →
  tx_account s t = None →
  for_each (bulk_edit_body user_id category_id account_id)
           (Transaction_in s transaction_ids user_id) (s, 0) = Raise AttributeError
  ∧ bulk_edit_transactions user_id transaction_ids category_id account_id s
    = (jsonify 500 false 0, s).
Proof.
  intros Ha Hnew Hi Ht Hu Hold.
  destruct (for_each_raises (bulk_edit_body user_id category_id account_id)
              (λ st, same_accounts s st.1) (λ e, e = AttributeError)
              (Transaction_in s transaction_ids user_id) (i, t) (s, 0))
    as (e & Hraise & ->).
  - apply same_accounts_refl.
  - intros x [s1 n1] [s2 n2] Hinv Hbody. simpl in *.
    by eapply bulk_edit_body_same_accounts.
  - intros x st e. apply bulk_edit_body_raises.
  - by apply Transaction_in_elem.
  - intros [s1 n1] Hinv. exists AttributeError. by eapply bulk_edit_body_unlinked.
  - split; [done|]. unfold bulk_edit_transactions. rewrite Hraise.
    destruct transaction_ids; [by apply elem_of_nil in Hi|done].
Qed.

(** ** Achievements *)

(** The two counters, whatever the tables hold. *)
Lemma total_transactions_counts (s : DB) (user_id : Z) (R : gset Z) :
  (∀ k, k ∈ R ↔ ∃ t, transactions s !! k = Some t ∧ tx_user_id t = user_id) →
  total_transactions s user_id = Z.of_nat (size R).
Proof.
  intros HR. unfold total_transactions. f_equal.
  rewrite <- size_dom. f_equal. apply set_eq. intros k.
  rewrite HR, elem_of_dom. unfold is_Some.
  setoid_rewrite map_lookup_filter_Some. simpl. done.
Qed.

Lemma days_with_transactions_counts (s : DB) (user_id : Z) (D : gset Z) :
  (∀ d, d ∈ D ↔ ∃ k t, transactions s !! k = Some t ∧ tx_user_id t = user_id
                        ∧ dt_day (tx_date t) = d) →
  days_with_transactions s user_id = Z.of_nat (size D).
Proof.
  intros HD. unfold days_with_transactions. do 2 f_equal. apply set_eq. intros d.
  rewrite HD, elem_of_list_to_set, list_elem_of_fmap. split.
  - intros [[k t] [-> Hin]]. apply elem_of_map_to_list in Hin.
    apply map_lookup_filter_Some in Hin as [Ht Hu]. simpl in *. eauto.
  - intros (k & t & Ht & Hu & <-). exists (k, t). split; [done|].
    apply elem_of_map_to_list, map_lookup_filter_Some. done.
Qed.

(** C8. One evaluation of the achievements of a user.  A locked achievement
    whose counter (the number of transactions of the user for
    [transactions_count], the number of distinct days with a transaction of
    the user for [days_streak]) reaches [condition_value] comes out unlocked,
    with [unlocked_at] the current time.  An unlocked achievement comes out
    as it went in, whatever the counters and the clock are: it is not
    modified and does not go back to locked.  A locked achievement whose
    counter does not reach the value stays as it is.  The two counters are
    what they are said to be: the number of keys of the rows of the user,
    and the number of calendar days that carry such a row. *)
Theorem achievements_unlock_once (now : datetime) (user_id : Z) (s : DB)
    (i : Z) (ach : Achievement) :
  achievements s !! i = Some ach →
  ach_user_id ach = user_id →
  let total := total_transactions s user_id in
  let days := days_with_transactions s user_id in
  let s' := (achievements_view now user_id s).2 in
  let met :=
    (ach_condition_type ach = "transactions_count"%string ∧ ach_condition_value ach ≤ total)
    ∨ (ach_condition_type ach = "days_streak"%string ∧ ach_condition_value ach ≤ days) in
  (ach_is_unlocked ach = false → met →
   ∃ ach', achievements s' !! i = Some ach'
           ∧ ach_is_unlocked ach' = true
           ∧ ach_unlocked_at ach' = Some now
           ∧ ach_user_id ach' = ach_user_id ach
           ∧ ach_condition_type ach' = ach_condition_type ach
           ∧ ach_condition_value ach' = ach_condition_value ach)
  ∧ (ach_is_unlocked ach = true → achievements s' !! i = Some ach)
  ∧ (ach_is_unlocked ach = false → ¬ met → achievements s' !! i = Some ach)
  ∧ (∀ R : gset Z,
       (∀ k, k ∈ R ↔ ∃ t, transactions s !! k = Some t ∧ tx_user_id t = user_id) →
       total = Z.of_nat (size R))
  ∧ (∀ D : gset Z,
       (∀ d, d ∈ D ↔ ∃ k t, transactions s !! k = Some t ∧ tx_user_id t = user_id
                             ∧ dt_day (tx_date t) = d) →
       days = Z.of_nat (size D)).
Proof.
  intros Hi Hu total days s' met. subst s'. unfold achievements_view. simpl.
  rewrite lookup_fmap, Hi. simpl. rewrite decide_True by done.
  fold total days. unfold check_achievement. split_and!.
  - intros Hlocked Hmet. rewrite Hlocked. simpl.
    destruct Hmet as [[Hty Hge]|[Hty Hge]]; rewrite Hty; simpl.
    + rewrite bool_decide_true by lia. simpl. eexists. split; [done|]. by simpl.
    + rewrite bool_decide_true by lia. simpl. eexists. split; [done|]. by simpl.
  - intros Hunlocked. by rewrite Hunlocked.
  - intros Hlocked Hnot. rewrite Hlocked. simpl.
    destruct (String.eqb (ach_condition_type ach) "transactions_count") eqn:E1; simpl.
    + apply String.eqb_eq in E1. case_bool_decide as Hge.
      * destruct Hnot. left. split; [done|lia].
      * rewrite E1. simpl. done.
    + destruct (String.eqb (ach_condition_type ach) "days_streak") eqn:E2; simpl; [|done].
      apply String.eqb_eq in E2. case_bool_decide as Hge; [|done].
      destruct Hnot. right. split; [done|lia].
  - apply total_transactions_counts.
  - apply days_with_transactions_counts.
Qed.

(** ** Cross-user isolation *)

Lemma others_untouched_refl u s : others_untouched u s s.
Proof. by repeat split. Qed.

Lemma others_untouched_trans u s1 s2 s3 :
  others_untouched u s1 s2 → others_untouched u s2 s3 → others_untouched u s1 s3.
Proof.
  intros (T1 & A1 & R1 & N1 & H1 & C1) (T2 & A2 & R2 & N2 & H2 & C2).
  split_and!.
  - intros i t Hne. by rewrite (T2 _ _ Hne), (T1 _ _ Hne).
  - intros i t Hne. by rewrite (A2 _ _ Hne), (A1 _ _ Hne).
  - intros i t Hne. by rewrite (R2 _ _ Hne), (R1 _ _ Hne).
  - intros i t Hne. by rewrite (N2 _ _ Hne), (N1 _ _ Hne).
  - intros i t Hne. by rewrite (H2 _ _ Hne), (H1 _ _ Hne).
  - by rewrite C2.
Qed.

Lemma others_untouched_alter_balance u a f s :
  owned_account u s a →
  (∀ acc, acc_user_id (f acc) = acc_user_id acc) →
  others_untouched u s (set_accounts (alter f a) s).
Proof.
  intros Hown Hf. split_and!; simpl; try done.
  intros i acc' Hne. rewrite lookup_alter. case_decide as E; [subst i|done].
  destruct (accounts s !! a) as [acc|] eqn:Ha; simpl; [|done].
  pose proof (Hown acc Ha) as Hu. split.
  - intros [= <-]. rewrite Hf in Hne. done.
  - intros [= <-]. done.
Qed.

Lemma others_untouched_balance_add u a d s :
  owned_account u s a → others_untouched u s (balance_add a d s).
Proof. intros. by apply others_untouched_alter_balance. Qed.

Lemma others_untouched_balance_sub u a d s :
  owned_account u s a → others_untouched u s (balance_sub a d s).
Proof. intros. by apply others_untouched_alter_balance. Qed.

Lemma others_untouched_insert_tx u i t' s :
  tx_user_id t' = u → owned_slot u s i →
  others_untouched u s (set_transactions (insert i t') s).
Proof.
  intros Hu Hslot. split_and!; simpl; try done.
  intros j t Hne. rewrite lookup_insert. case_decide as E; [subst j|done]. split.
  - intros [= <-]. done.
  - intros Ht. by specialize (Hslot _ Ht).
Qed.



(** Owners of accounts through the primitive updates. *)







(** What the select fields of the forms accept. *)

Lemma account_choices_elem s u a :
  a ∈ account_choices s u ↔ a = 0 ∨ a ∈ transfer_choices s u.
Proof. unfold account_choices. by rewrite elem_of_cons. Qed.










Lemma owned_slot_fresh u s : owned_slot u s (next_id (transactions s)).
Proof. intros t Ht. by rewrite next_id_fresh in Ht. Qed.









Lemma for_each_invariant {A S} (body : A → S → result S) (Inv : S → Prop)
    (l : list A) (st st' : S) :
  Inv st →
  (∀ x st st', x ∈ l → Inv st → body x st = Ok st' → Inv st') →
  for_each body l st = Ok st' → Inv st'.
Proof.
  revert st. induction l as [|x l IH]; intros st Hst Hbody; simpl.
  - by intros [= <-].
  - destruct (body x st) as [st1|e] eqn:Hx; simpl; [|done].
    apply IH.
    + eapply Hbody; [left|done|done].
    + intros y st2 st3 Hy. apply Hbody. by right.
Qed.













(** ** The trigger boundary *)

(** C7. Whatever the two passes do (return or raise, in any store), the
    before-request hook returns normally, and so does the end of
    [create_app]; the request then gets the answer of the authentication hook
    or of its view, computed on the store that the passes left behind, and
    never the error page. *)
Theorem engine_failures_never_surface
    (generate_recurring_occurrences generate_all_notifications : pass)
    (user : option Z) (endpoint : option string) (view : DB → Response * DB) (s : DB) :
  let hook := ensure_recurring_generated generate_recurring_occurrences
                generate_all_notifications in
  (hook s).2 = None
  ∧ (create_app generate_recurring_occurrences s).2 = None
  ∧ handle_request generate_recurring_occurrences generate_all_notifications
      user endpoint view s
    = match enforce_authentication user endpoint with
      | Some r => Responded r (hook s).1
      | None => Responded (view (hook s).1).1 (view (hook s).1).2
      end.
Proof.
  unfold handle_request, ensure_recurring_generated, create_app, try_except_pass, and_then.
  destruct (generate_recurring_occurrences s) as [s1 [e1|]]; simpl.
  - split_and!; [done|done|].
    destruct (enforce_authentication user endpoint); [done|]. by destruct (view s1).
  - destruct (generate_all_notifications s1) as [s2 e2]; simpl.
    split_and!; [done|done|].
    destruct (enforce_authentication user endpoint); [done|]. by destruct (view s2).
Qed.

(** * The calendar *)

Lemma days_in_month_range y m : 28 ≤ days_in_month y m ≤ 31.
Proof.
  unfold days_in_month.
  repeat match goal with |- context [if ?b then _ else _] => destruct b end; lia.
Qed.

Lemma days_before_month_succ y m :
  1 ≤ m → days_before_month y (m + 1) = days_before_month y m + days_in_month y m.
Proof.
  intros Hm. unfold days_before_month.
  replace (Z.to_nat (m + 1 - 1)) with (S (Z.to_nat (m - 1))) by lia.
  simpl days_before_month_nat. do 2 f_equal. lia.
Qed.

Lemma days_before_month_first y : days_before_month y 1 = 0.
Proof. reflexivity. Qed.

Lemma days_before_month_december y :
  days_before_month y 12 = 334 + (if is_leap y then 1 else 0).
Proof.
  unfold days_before_month.
  change (Z.to_nat (12 - 1)) with 11%nat. unfold days_before_month_nat, days_in_month.
  simpl Z.of_nat. simpl Z.eqb. simpl orb. cbv iota.
  destruct (is_leap y); lia.
Qed.

Lemma days_before_year_succ y :
  days_before_year (y + 1) = days_before_year y + 365 + (if is_leap y then 1 else 0).
Proof.
  unfold days_before_year, is_leap.
  replace (y + 1 - 1) with y by lia.
  destruct (y mod 4 =? 0) eqn:E4; destruct (y mod 100 =? 0) eqn:E100;
    destruct (y mod 400 =? 0) eqn:E400; simpl;
    rewrite ?Z.eqb_eq, ?Z.eqb_neq in *;
    Z.div_mod_to_equations; lia.
Qed.

(** [next_day] is one day later on the calendar. *)
Lemma toordinal_next_day d : valid_date d → toordinal (next_day d) = toordinal d + 1.
Proof.
  intros [Hm Hd]. unfold next_day, toordinal.
  destruct (day d <? days_in_month (year d) (month d)) eqn:Hlt; simpl.
  - lia.
  - apply Z.ltb_ge in Hlt. assert (day d = days_in_month (year d) (month d)) as Hlast by lia.
    destruct (month d <? 12) eqn:Hm12; simpl.
    + rewrite days_before_month_succ by lia. lia.
    + apply Z.ltb_ge in Hm12. assert (month d = 12) as H12 by lia.
      rewrite days_before_year_succ, days_before_month_first.
      rewrite H12 in *. rewrite days_before_month_december.
      change (days_in_month (year d) 12) with 31 in Hlast. lia.
Qed.

Lemma valid_date_next_day d : valid_date d → valid_date (next_day d).
Proof.
  intros [Hm Hd]. unfold next_day, valid_date.
  destruct (day d <? days_in_month (year d) (month d)) eqn:Hlt; simpl.
  - apply Z.ltb_lt in Hlt. lia.
  - destruct (month d <? 12) eqn:Hm12; simpl.
    + apply Z.ltb_lt in Hm12.
      pose proof (days_in_month_range (year d) (month d + 1)). lia.
    + pose proof (days_in_month_range (year d + 1) 1). lia.
Qed.

Lemma valid_date_add_days n d : valid_date d → valid_date (add_days n d).
Proof.
  intros Hd. unfold add_days. induction n as [|n IH]; simpl; [done|].
  by apply valid_date_next_day.
Qed.

Lemma toordinal_add_days n d :
  valid_date d → toordinal (add_days n d) = toordinal d + Z.of_nat n.
Proof.
  intros Hd. unfold add_days. induction n as [|n IH]; simpl; [lia|].
  rewrite toordinal_next_day by (by apply valid_date_add_days). lia.
Qed.

(** ** Order of dates *)

Lemma date_ltb_irrefl a : date_ltb a a = false.
Proof. unfold date_ltb. rewrite !Z.ltb_irrefl, !Z.eqb_refl. done. Qed.

Lemma date_ltb_lt a b :
  date_ltb a b = true ↔
  year a < year b ∨ (year a = year b ∧ (month a < month b ∨ (month a = month b ∧ day a < day b))).
Proof.
  unfold date_ltb.
  rewrite !orb_true_iff, !andb_true_iff, !orb_true_iff, !andb_true_iff,
    !Z.ltb_lt, !Z.eqb_eq. tauto.
Qed.

Lemma date_ltb_trans a b c : date_ltb a b = true → date_ltb b c = true → date_ltb a c = true.
Proof. rewrite !date_ltb_lt. lia. Qed.

Lemma date_leb_le a b :
  date_leb a b = true ↔ ¬ (date_ltb b a = true).
Proof. unfold date_leb. destruct (date_ltb b a); simpl; split; try done; intros H; by destruct H. Qed.

Lemma date_ltb_next_day d : date_ltb d (next_day d) = true.
Proof.
  apply date_ltb_lt. unfold next_day.
  destruct (day d <? _); simpl; [lia|]. destruct (month d <? 12) eqn:E; simpl; lia.
Qed.

Lemma date_ltb_add_days n d : date_ltb d (add_days (S n) d) = true.
Proof.
  unfold add_days. induction n as [|n IH]; simpl in *; [apply date_ltb_next_day|].
  eapply date_ltb_trans; [exact IH|apply date_ltb_next_day].
Qed.

(** Every advancement is to a later date. *)
Lemma date_ltb_advance r d : date_ltb d (advance r d) = true.
Proof.
  unfold advance. destruct (frequency r).
  - apply (date_ltb_add_days 0).
  - apply (date_ltb_add_days 6).
  - unfold next_month. destruct (month d <? 12) eqn:E; apply date_ltb_lt; simpl.
    + apply Z.ltb_lt in E. lia.
    + lia.
  - apply date_ltb_lt; simpl. lia.
Qed.

(** ** Ranks *)

Lemma valid_date_in_range d : valid_date d → in_range d.
Proof.
  intros [Hm Hd]. pose proof (days_in_month_range (year d) (month d)).
  unfold in_range. lia.
Qed.

Lemma date_rank_ltb a b :
  in_range a → in_range b → date_ltb a b = true ↔ date_rank a < date_rank b.
Proof. unfold in_range, date_rank. rewrite date_ltb_lt. lia. Qed.

Lemma date_rank_leb a b :
  in_range a → in_range b → date_leb a b = true ↔ date_rank a ≤ date_rank b.
Proof.
  intros Ha Hb. rewrite date_leb_le, (date_rank_ltb b a) by done. lia.
Qed.

Lemma valid_date_advance r d :
  valid_date (start_date r) → valid_date d → valid_date (advance r d).
Proof.
  intros [_ Hs] Hd. unfold advance. destruct (frequency r).
  - by apply valid_date_add_days.
  - by apply valid_date_add_days.
  - destruct Hd as [Hm _]. unfold next_month.
    destruct (month d <? 12) eqn:E; unfold valid_date; simpl.
    + apply Z.ltb_lt in E.
      pose proof (days_in_month_range (year d) (month d + 1)). lia.
    + pose proof (days_in_month_range (year d + 1) 1). lia.
  - destruct Hd as [Hm _]. unfold valid_date; simpl.
    pose proof (days_in_month_range (year d + 1) (month d)). lia.
Qed.

(** * The scheduler *)

Lemma schedule_set_next_due_date r x d k :
  schedule (set_next_due_date x r) d k = schedule r d k.
Proof. unfold schedule. induction k as [|k IH]; simpl; [done|]. by rewrite IH. Qed.

Lemma schedule_succ_r r d k : schedule r d (S k) = schedule r (advance r d) k.
Proof. unfold schedule. by rewrite Nat.iter_succ_r. Qed.

Lemma date_rank_advance r d :
  valid_date (start_date r) → valid_date d → date_rank d < date_rank (advance r d).
Proof.
  intros Hs Hd. apply date_rank_ltb.
  - by apply valid_date_in_range.
  - by apply valid_date_in_range, valid_date_advance.
  - apply date_ltb_advance.
Qed.

Lemma set_next_due_date_id r : set_next_due_date (next_due_date r) r = r.
Proof. by destruct r. Qed.

Lemma schedule_0 r d : schedule r d 0 = d.
Proof. done. Qed.

Lemma caught_up_0 asOf rid r : due asOf r = false → caught_up asOf rid r 0 [] r.
Proof.
  intros Hdue. unfold caught_up. rewrite schedule_0, set_next_due_date_id.
  split_and!; [done|done| |done]. intros j Hj. lia.
Qed.

Lemma caught_up_S asOf rid r k occs r' :
  due asOf r = true →
  caught_up asOf rid (set_next_due_date (advance r (next_due_date r)) r) k occs r' →
  caught_up asOf rid r (S k) (materialize rid r :: occs) r'.
Proof.
  intros Hdue (Hr' & Hoccs & Hall & Hend).
  change (next_due_date (set_next_due_date (advance r (next_due_date r)) r))
    with (advance r (next_due_date r)) in *.
  assert (∀ j, set_next_due_date
                 (schedule (set_next_due_date (advance r (next_due_date r)) r)
                           (advance r (next_due_date r)) j)
                 (set_next_due_date (advance r (next_due_date r)) r)
               = set_next_due_date (schedule r (next_due_date r) (S j)) r) as Hshift.
  { intros j. by rewrite schedule_set_next_due_date, schedule_succ_r. }
  split_and!.
  - by rewrite <- Hshift.
  - rewrite Hoccs. cbn [seq fmap list_fmap]. f_equal.
    rewrite <- fmap_S_seq, <- list_fmap_compose.
    apply list_fmap_ext. intros _ j _. unfold occurrence_at. simpl.
    change (next_due_date (set_next_due_date (advance r (next_due_date r)) r))
      with (advance r (next_due_date r)).
    by rewrite Hshift.
  - intros [|j] Hj.
    + by rewrite schedule_0, set_next_due_date_id.
    + rewrite <- Hshift. apply Hall. lia.
  - done.
Qed.

Lemma catch_up_returns fuel asOf rid r occs r' :
  catch_up fuel asOf rid r = Some (occs, r') → ∃ k, caught_up asOf rid r k occs r'.
Proof.
  revert r occs r'. induction fuel as [|fuel IH]; intros r occs r'; simpl.
  - destruct (due asOf r) eqn:Hdue; [done|]. intros [= <- <-]. exists 0%nat.
    by apply caught_up_0.
  - destruct (due asOf r) eqn:Hdue.
    + destruct (catch_up fuel asOf rid _) as [[occs1 r1]|] eqn:Hrec; simpl; [|done].
      intros [= <- <-]. apply IH in Hrec as [k Hk].
      exists (S k). by apply caught_up_S.
    + intros [= <- <-]. exists 0%nat. by apply caught_up_0.
Qed.

Lemma due_date_leb asOf r : due asOf r = true → date_leb (next_due_date r) asOf = true.
Proof. unfold due. by intros [? _]%andb_true_iff. Qed.

(** For a valid rule the bound is enough: the loop ends. *)
Lemma catch_up_ends fuel asOf rid r :
  in_range asOf → valid_rule r →
  date_rank asOf - date_rank (next_due_date r) < Z.of_nat fuel →
  is_Some (catch_up fuel asOf rid r).
Proof.
  intros HasOf. revert r. induction fuel as [|fuel IH]; intros r [Hs Hn] Hfuel;
    simpl; destruct (due asOf r) eqn:Hdue; eauto;
    apply due_date_leb in Hdue;
    (apply date_rank_leb in Hdue; [|by apply valid_date_in_range|done]); [lia|].
  pose proof (date_rank_advance r (next_due_date r) Hs Hn) as Hadv.
  destruct (IH (set_next_due_date (advance r (next_due_date r)) r)) as [[occs r'] Hrec].
  - split; simpl; [done|by apply valid_date_advance].
  - unfold set_next_due_date. cbn [next_due_date]. lia.
  - rewrite Hrec. simpl. eauto.
Qed.

Lemma catch_up_bound_enough asOf rid r :
  in_range asOf → valid_rule r →
  is_Some (catch_up (catch_up_bound asOf r) asOf rid r).
Proof.
  intros HasOf Hr. apply catch_up_ends; [done|done|]. unfold catch_up_bound. lia.
Qed.

(** ** One unit of work *)

(** What a unit of work does to the state: nothing, or the catch-up of its
    rule. *)
Lemma process_rule_cases asOf rid s :
  process_rule asOf rid s = (s, [])
  ∨ ∃ r k occs r',
      rules s !! rid = Some r
      ∧ active r = true
      ∧ date_leb (next_due_date r) asOf = true
      ∧ caught_up asOf rid r k occs r'
      ∧ process_rule asOf rid s
        = ({| rules := <[rid := deactivate_if_ended r']> (rules s);
              balances := foldl (λ b o, apply_occurrence o b) (balances s) occs;
              ledger := ledger s ++ occs |}, occs).
Proof.
  unfold process_rule. destruct (rules s !! rid) as [r|] eqn:Hr; [|by left].
  destruct (active r && date_leb (next_due_date r) asOf) eqn:Hgo; [|by left].
  apply andb_true_iff in Hgo as [Hact Hle].
  destruct (catch_up _ asOf rid r) as [[occs r']|] eqn:Hloop; [|by left].
  right. apply catch_up_returns in Hloop as [k Hk].
  exists r, k, occs, r'. done.
Qed.

Lemma process_rule_due asOf rid s r :
  in_range asOf → rules s !! rid = Some r → valid_rule r →
  active r = true → date_leb (next_due_date r) asOf = true →
  ∃ k occs r',
    caught_up asOf rid r k occs r'
    ∧ process_rule asOf rid s
      = ({| rules := <[rid := deactivate_if_ended r']> (rules s);
            balances := foldl (λ b o, apply_occurrence o b) (balances s) occs;
            ledger := ledger s ++ occs |}, occs).
Proof.
  intros HasOf Hr Hvalid Hact Hle. unfold process_rule. rewrite Hr, Hact, Hle. cbn [andb].
  destruct (catch_up_bound_enough asOf rid r HasOf Hvalid) as [[occs r'] Hloop].
  rewrite Hloop. apply catch_up_returns in Hloop as [k Hk]. eauto.
Qed.

Lemma process_rule_other asOf rid s rid' :
  rid' ≠ rid → rules (process_rule asOf rid s).1 !! rid' = rules s !! rid'.
Proof.
  intros Hne. destruct (process_rule_cases asOf rid s) as [->|(r & k & occs & r' & _ & _ & _ & _ & ->)];
    simpl; [done|]. by rewrite lookup_insert_ne.
Qed.

Lemma process_rule_output_ids asOf rid s o :
  o ∈ (process_rule asOf rid s).2 → occ_rule_id o = rid.
Proof.
  destruct (process_rule_cases asOf rid s)
    as [->|(r & k & occs & r' & _ & _ & _ & (_ & Hoccs & _) & ->)]; simpl.
  - by intros ?%elem_of_nil.
  - rewrite Hoccs. intros (j & -> & _)%list_elem_of_fmap. done.
Qed.

(** After the catch-up the pointer is past [asOf], or past [end_date] and the
    rule is no longer active. *)
Lemma caught_up_post asOf rid r k occs r' :
  caught_up asOf rid r k occs r' →
  date_ltb asOf (next_due_date (deactivate_if_ended r')) = true
  ∨ active (deactivate_if_ended r') = false.
Proof.
  intros (_ & _ & _ & Hend). unfold due in Hend. unfold deactivate_if_ended.
  apply andb_false_iff in Hend as [Hend|Hend].
  - left. unfold date_leb in Hend. apply negb_false_iff in Hend.
    destruct (end_date r') as [e|]; [|done]. by destruct (date_ltb e (next_due_date r')).
  - destruct (end_date r') as [e|]; [|done].
    unfold date_leb in Hend. apply negb_false_iff in Hend. rewrite Hend. by right.
Qed.

Lemma next_due_date_deactivate_if_ended r :
  next_due_date (deactivate_if_ended r) = next_due_date r.
Proof.
  unfold deactivate_if_ended. destruct (end_date r) as [e|]; [|done].
  by destruct (date_ltb e (next_due_date r)).
Qed.

(** ** Sequences of units *)

Lemma run_units_app us1 us2 s :
  run_units (us1 ++ us2) s
  = let '(s1, o1) := run_units us1 s in
    let '(s2, o2) := run_units us2 s1 in (s2, o1 ++ o2).
Proof.
  revert s. induction us1 as [|[asOf rid] us1 IH]; intros s; simpl.
  - by destruct (run_units us2 s).
  - destruct (process_rule asOf rid s) as [s1 o1]. rewrite IH.
    destruct (run_units us1 s1) as [s2 o2]. destruct (run_units us2 s2) as [s3 o3].
    by rewrite app_assoc.
Qed.

Lemma run_units_other us s rid :
  rid ∉ us.*2 →
  rules (run_units us s).1 !! rid = rules s !! rid
  ∧ filter (λ o, occ_rule_id o = rid) (run_units us s).2 = [].
Proof.
  revert s. induction us as [|[asOf rid'] us IH]; intros s Hnot; simpl; [done|].
  apply not_elem_of_cons in Hnot as [Hne Hnot]. simpl in Hne.
  pose proof (process_rule_other asOf rid' s rid Hne) as Hrules.
  pose proof (process_rule_output_ids asOf rid' s) as Hids.
  destruct (process_rule asOf rid' s) as [s1 o1]. simpl in *.
  destruct (IH s1 Hnot) as [IHr IHo].
  destruct (run_units us s1) as [s2 o2]. simpl in *. split; [congruence|].
  rewrite filter_app, IHo, app_nil_r.
  apply elem_of_nil_inv. intros o [Ho Hin]%list_elem_of_filter.
  apply Hids in Hin. congruence.
Qed.

Lemma rules_in_scope_elem scope s rid :
  rid ∈ rules_in_scope scope s ↔ ∃ r, rules s !! rid = Some r ∧ in_scope scope r = true.
Proof.
  unfold rules_in_scope. rewrite list_elem_of_fmap. split.
  - intros [[rid' r] [-> Hin]]. apply elem_of_map_to_list in Hin.
    apply map_lookup_filter_Some in Hin as [Hr Hs]. eauto.
  - intros (r & Hr & Hs). exists (rid, r). split; [done|].
    by apply elem_of_map_to_list, map_lookup_filter_Some.
Qed.

Lemma rules_in_scope_NoDup scope s : NoDup (rules_in_scope scope s).
Proof. apply NoDup_fst_map_to_list. Qed.

Lemma filter_all {A} (P : A → Prop) `{∀ x, Decision (P x)} (l : list A) :
  Forall P l → filter P l = l.
Proof.
  induction 1 as [|x l Hx Hl IH]; [done|]. rewrite filter_cons_True by done. by f_equal.
Qed.

Lemma units_of_ids (asOf : date) (l : list Z) : ((λ rid, (asOf, rid)) <$> l).*2 = l.
Proof. induction l as [|x l IH]; [done|]. rewrite !fmap_cons. by f_equal. Qed.

(** C3. A valid active rule in the scope of the call whose pointer is not
    after [asOf]: after [tick asOf] its pointer is after [asOf] or the rule
    is inactive.  The occurrences the call produced for the rule are those of
    the [k] first dates of its schedule from the old pointer on, none
    skipped: each of these dates was due, the new pointer is the next date of
    the schedule, and it is not due. *)
Theorem tick_catches_up (asOf : date) (scope : option Z) (s : Scheduler)
    (rid : Z) (r : RecurringRule) :
  valid_date asOf →
  rules s !! rid = Some r →
  valid_rule r →
  in_scope scope r = true →
  active r = true →
  date_leb (next_due_date r) asOf = true →
  ∃ (k : nat) (r' : RecurringRule),
    rules (tick asOf scope s).1 !! rid = Some r'
    ∧ (date_ltb asOf (next_due_date r') = true ∨ active r' = false)
    ∧ next_due_date r' = schedule r (next_due_date r) k
    ∧ filter (λ o, occ_rule_id o = rid) (tick asOf scope s).2
      = occurrence_at rid r <$> seq 0 k
    ∧ (∀ j, (j < k)%nat →
         due asOf (set_next_due_date (schedule r (next_due_date r) j) r) = true)
    ∧ due asOf (set_next_due_date (schedule r (next_due_date r) k) r) = false.
Proof.
  intros HasOf Hr Hvalid Hscope Hact Hle.
  assert (rid ∈ rules_in_scope scope s) as Hin by (apply rules_in_scope_elem; eauto).
  pose proof (rules_in_scope_NoDup scope s) as Hnodup.
  apply list_elem_of_split in Hin as (l1 & l2 & Hsplit).
  rewrite Hsplit in Hnodup. apply NoDup_app in Hnodup as (_ & Hl1 & Hl2).
  apply NoDup_cons in Hl2 as [Hl2 _].
  assert (rid ∉ l1) as Hl1' by (intros Hin1; apply (Hl1 rid Hin1); left).
  unfold tick. rewrite Hsplit, fmap_app, fmap_cons, run_units_app.
  destruct (run_units_other ((λ rid0, (asOf, rid0)) <$> l1) s rid) as [Hr1 Ho1].
  { by rewrite units_of_ids. }
  destruct (run_units ((λ rid0, (asOf, rid0)) <$> l1) s) as [s1 o1]. simpl in Hr1, Ho1.
  cbn [run_units].
  destruct (process_rule_due asOf rid s1 r) as (k & occs & r' & Hk & Hproc);
    [by apply valid_date_in_range|congruence|done|done|done|].
  rewrite Hproc.
  set (s2 := {| rules := _ |}).
  destruct (run_units_other ((λ rid0, (asOf, rid0)) <$> l2) s2 rid) as [Hr2 Ho2].
  { by rewrite units_of_ids. }
  destruct (run_units ((λ rid0, (asOf, rid0)) <$> l2) s2) as [s3 o3]. simpl in Hr2, Ho2.
  simpl. exists k, (deactivate_if_ended r'). split_and!.
  - rewrite Hr2. subst s2. simpl. apply lookup_insert_eq.
  - by eapply caught_up_post.
  - rewrite next_due_date_deactivate_if_ended. destruct Hk as (-> & _). done.
  - rewrite !filter_app, Ho1, Ho2, app_nil_r. simpl.
    destruct Hk as (_ & -> & _).
    apply filter_all, Forall_forall. intros o (j & -> & _)%list_elem_of_fmap. done.
  - by destruct Hk as (_ & _ & Hall & _).
  - destruct Hk as (-> & _ & _ & Hend). done.
Qed.

(** ** No occurrence twice *)

Lemma schedule_later r d x k :
  date_ltb x d = true → date_ltb x (schedule r d k) = true.
Proof.
  intros Hx. unfold schedule. induction k as [|k IH]; simpl; [done|].
  eapply date_ltb_trans; [exact IH|apply date_ltb_advance].
Qed.

Lemma schedule_increasing r d j k :
  (j < k)%nat → date_ltb (schedule r d j) (schedule r d k) = true.
Proof.
  intros Hjk. induction k as [|k IH]; [lia|].
  destruct (decide (j = k)) as [->|Hne].
  - apply date_ltb_advance.
  - eapply date_ltb_trans; [apply IH; lia|apply date_ltb_advance].
Qed.

Lemma schedule_not_before r d j : date_ltb (schedule r d j) d = false.
Proof.
  destruct j as [|j]; [apply date_ltb_irrefl|].
  destruct (date_ltb (schedule r d (S j)) d) eqn:E; [|done].
  pose proof (schedule_increasing r d 0 (S j) ltac:(lia)) as H.
  pose proof (date_ltb_trans _ _ _ H E) as Hbad.
  unfold schedule in Hbad. simpl in Hbad. by rewrite date_ltb_irrefl in Hbad.
Qed.

Lemma process_rule_no_duplicates asOf rid s out :
  behind_pointer s out →
  NoDup (occurrence_key <$> out) →
  behind_pointer (process_rule asOf rid s).1 (out ++ (process_rule asOf rid s).2)
  ∧ NoDup (occurrence_key <$> (out ++ (process_rule asOf rid s).2)).
Proof.
  intros Hinv Hnodup.
  destruct (process_rule_cases asOf rid s)
    as [->|(r & k & occs & r' & Hr & _ & _ & (Hr' & Hoccs & _) & ->)]; simpl.
  { by rewrite app_nil_r. }
  assert (next_due_date (deactivate_if_ended r') = schedule r (next_due_date r) k) as Hnext
    by (by rewrite next_due_date_deactivate_if_ended, Hr').
  split.
  - intros o [Ho|Ho]%elem_of_app.
    + destruct (Hinv o Ho) as (r0 & Hr0 & Hlt).
      destruct (decide (occ_rule_id o = rid)) as [Hid|Hid].
      * exists (deactivate_if_ended r'). simpl. rewrite Hid, lookup_insert_eq.
        split; [done|]. rewrite Hnext. apply schedule_later.
        rewrite Hid in Hr0. congruence.
      * exists r0. simpl. by rewrite lookup_insert_ne.
    + rewrite Hoccs in Ho. apply list_elem_of_fmap in Ho as (j & -> & Hj).
      apply elem_of_seq in Hj.
      exists (deactivate_if_ended r'). simpl. rewrite lookup_insert_eq.
      split; [done|]. rewrite Hnext. apply schedule_increasing. lia.
  - rewrite fmap_app. apply NoDup_app. split_and!; [done| |].
    + intros key (o & -> & Ho)%list_elem_of_fmap (o' & Hkey & Ho')%list_elem_of_fmap.
      rewrite Hoccs in Ho'. apply list_elem_of_fmap in Ho' as (j & -> & _).
      unfold occurrence_key in Hkey. simpl in Hkey. injection Hkey as Hid Hdate.
      destruct (Hinv o Ho) as (r0 & Hr0 & Hlt).
      rewrite Hid, Hr in Hr0. injection Hr0 as <-.
      rewrite Hdate, schedule_not_before in Hlt. done.
    + rewrite Hoccs, <- list_fmap_compose.
      apply NoDup_fmap_2_strong; [|apply NoDup_seq].
      intros i j _ _ Hkey. unfold occurrence_key in Hkey. simpl in Hkey.
      injection Hkey as Hdate.
      destruct (Nat.lt_trichotomy i j) as [Hlt|[->|Hlt]]; [|done|].
      * pose proof (schedule_increasing r (next_due_date r) i j Hlt) as H.
        by rewrite Hdate, date_ltb_irrefl in H.
      * pose proof (schedule_increasing r (next_due_date r) j i Hlt) as H.
        by rewrite Hdate, date_ltb_irrefl in H.
Qed.

Lemma run_units_no_duplicates units s out :
  behind_pointer s out →
  NoDup (occurrence_key <$> out) →
  behind_pointer (run_units units s).1 (out ++ (run_units units s).2)
  ∧ NoDup (occurrence_key <$> (out ++ (run_units units s).2)).
Proof.
  revert s out. induction units as [|[asOf rid] units IH]; intros s out Hinv Hnodup; simpl.
  { by rewrite app_nil_r. }
  destruct (process_rule_no_duplicates asOf rid s out Hinv Hnodup) as [Hinv1 Hnodup1].
  destruct (process_rule asOf rid s) as [s1 o1]. simpl in *.
  destruct (IH s1 (out ++ o1) Hinv1 Hnodup1) as [Hinv2 Hnodup2].
  destruct (run_units units s1) as [s2 o2]. simpl in *.
  by rewrite app_assoc.
Qed.

Lemma behind_pointer_nil s : behind_pointer s [].
Proof. by intros o ?%elem_of_nil. Qed.

(** C2. The units of work of any number of calls of [tick], in any
    interleaving and with any instants: the occurrences they produce carry
    pairwise different pairs of rule and date, and each is dated before the
    pointer of its rule at the end.  In particular this holds of two calls of
    [tick] one after the other. *)
Theorem ticks_never_duplicate (units : list (date * Z)) (s : Scheduler)
    (asOf1 asOf2 : date) (scope1 scope2 : option Z) :
  NoDup (occurrence_key <$> (run_units units s).2)
  ∧ behind_pointer (run_units units s).1 (run_units units s).2
  ∧ NoDup (occurrence_key <$>
             ((tick asOf1 scope1 s).2 ++ (tick asOf2 scope2 (tick asOf1 scope1 s).1).2)).
Proof.
  destruct (run_units_no_duplicates units s [] (behind_pointer_nil s)) as [Hinv Hnodup];
    [constructor|].
  split_and!; [done|done|].
  unfold tick.
  set (us1 := (λ rid, (asOf1, rid)) <$> rules_in_scope scope1 s).
  set (us2 := (λ rid, (asOf2, rid)) <$> rules_in_scope scope2 (run_units us1 s).1).
  destruct (run_units_no_duplicates (us1 ++ us2) s [] (behind_pointer_nil s)) as [_ H];
    [constructor|].
  rewrite run_units_app in H. simpl in H.
  destruct (run_units us1 s) as [s1 o1]. simpl in *.
  by destruct (run_units us2 s1) as [s2 o2].
Qed.

(** ** The advancement of the pointer *)

(** C4. The advancement of a valid date [d] for a rule with a valid
    [start_date] is a valid date.  Daily it is one day later on the calendar
    and weekly seven days later.  Monthly it falls in the next calendar
    month, on the day of the month of the rule, or on the last day of that
    month when the month is shorter.  Yearly it falls in the same month of
    the next year, on the day of the month of the rule or on the last day of
    the month when it is shorter: a rule of 29 February falls on 28 February
    in a year that is not leap.  A monthly rule that starts on 2024-01-31 has
    its next occurrences on 2024-02-29, 2024-03-31 and 2024-04-30, in that
    order. *)
Theorem advance_by_frequency (r : RecurringRule) (d : date) :
  valid_date (start_date r) →
  valid_date d →
  valid_date (advance r d)
  ∧ (frequency r = daily → toordinal (advance r d) = toordinal d + 1)
  ∧ (frequency r = weekly → toordinal (advance r d) = toordinal d + 7)
  ∧ (frequency r = monthly →
       (year (advance r d), month (advance r d)) = next_month d
       ∧ day (advance r d)
         = Z.min (day (start_date r))
                 (days_in_month (year (advance r d)) (month (advance r d))))
  ∧ (frequency r = yearly →
       year (advance r d) = year d + 1
       ∧ month (advance r d) = month d
       ∧ day (advance r d)
         = Z.min (day (start_date r)) (days_in_month (year d + 1) (month d))
       ∧ (month d = 2 → day (start_date r) = 29 → is_leap (year d + 1) = false →
          day (advance r d) = 28))
  ∧ (frequency r = monthly →
       start_date r = {| year := 2024; month := 1; day := 31 |} →
       schedule r (start_date r) <$> [1; 2; 3]%nat
       = [ {| year := 2024; month := 2; day := 29 |};
           {| year := 2024; month := 3; day := 31 |};
           {| year := 2024; month := 4; day := 30 |} ]).
Proof.
  intros Hs Hd. split_and!.
  - by apply valid_date_advance.
  - intros Hf. unfold advance. rewrite Hf. by rewrite toordinal_add_days.
  - intros Hf. unfold advance. rewrite Hf. by rewrite toordinal_add_days.
  - intros Hf. unfold advance. rewrite Hf. by destruct (next_month d).
  - intros Hf. unfold advance. rewrite Hf. simpl. split_and!; try done.
    intros Hm H29 Hleap. rewrite Hm, H29. unfold days_in_month. rewrite Hleap. done.
  - intros Hf Hstart. destruct r; simpl in *. subst. reflexivity.
Qed.

(** The day that a monthly rule keeps is the day of its [start_date]: a rule
    that starts on 2024-02-29 goes on to the 29th of the next months, not to
    their last day. *)
Example monthly_rule_from_29_february (r : RecurringRule) :
  frequency r = monthly →
  start_date r = {| year := 2024; month := 2; day := 29 |} →
  schedule r (start_date r) <$> [1; 2]%nat
  = [ {| year := 2024; month := 3; day := 29 |};
      {| year := 2024; month := 4; day := 29 |} ].
Proof. intros Hf Hs. destruct r; simpl in *. subst. reflexivity. Qed.

(** * The notification evaluator *)

Lemma has_unread_true s owner key :
  has_unread s owner key = true ↔
  ∃ i n, notifications s !! i = Some n ∧ notif_user_id n = owner
         ∧ notif_dedup_key n = key ∧ notif_is_read n = false.
Proof. unfold has_unread. rewrite bool_decide_eq_true. unfold map_Exists. naive_solver. Qed.

Lemma upsert_keeps_rows owner now c out s i n :
  notifications s !! i = Some n →
  notifications (upsert owner now c (out, s)).2 !! i = Some n.
Proof.
  intros Hi. unfold upsert. destruct (has_unread s owner (cand_dedup_key c)); [done|].
  simpl. rewrite lookup_insert_ne; [done|].
  intros <-. by rewrite next_id_fresh in Hi.
Qed.

Lemma upsert_covers owner now c out s :
  has_unread (upsert owner now c (out, s)).2 owner (cand_dedup_key c) = true.
Proof.
  unfold upsert. destruct (has_unread s owner (cand_dedup_key c)) eqn:E; [done|].
  simpl. apply has_unread_true.
  exists (next_id (notifications s)), (new_notification owner now c).
  simpl. by rewrite lookup_insert_eq.
Qed.

Lemma upsert_keeps_unread owner now c out s o k :
  has_unread s o k = true → has_unread (upsert owner now c (out, s)).2 o k = true.
Proof.
  rewrite !has_unread_true. intros (i & n & Hi & ?). exists i, n.
  split; [|done]. by apply upsert_keeps_rows.
Qed.

Lemma upsert_unique owner now c out s :
  unique_unread s → unique_unread (upsert owner now c (out, s)).2.
Proof.
  intros Huniq. unfold upsert.
  destruct (has_unread s owner (cand_dedup_key c)) eqn:E; [done|]. simpl.
  assert (∀ i n, notifications s !! i = Some n → notif_is_read n = false →
                 notif_user_id n = owner → notif_dedup_key n = cand_dedup_key c → False)
    as Hnone.
  { intros i n Hi Hr Hu Hk.
    assert (has_unread s owner (cand_dedup_key c) = true) as Hyes
      by (apply has_unread_true; eauto 10).
    congruence. }
  intros i j ni nj. simpl. rewrite !lookup_insert.
  repeat case_decide; subst.
  - done.
  - intros [= <-] Hj _ Hrj Hu Hk. simpl in *. exfalso. by eapply Hnone.
  - intros Hi [= <-] Hri _ Hu Hk. simpl in *. exfalso. by eapply Hnone.
  - apply Huniq.
Qed.

Lemma upsert_others owner now c out s :
  accounts (upsert owner now c (out, s)).2 = accounts s
  ∧ categories (upsert owner now c (out, s)).2 = categories s
  ∧ transactions (upsert owner now c (out, s)).2 = transactions s
  ∧ recurrings (upsert owner now c (out, s)).2 = recurrings s
  ∧ achievements (upsert owner now c (out, s)).2 = achievements s.
Proof. unfold upsert. by destruct (has_unread s owner (cand_dedup_key c)). Qed.

Lemma upsert_all_invariant (Inv : DB → Prop) owner now cs st :
  (∀ c out s, Inv s → Inv (upsert owner now c (out, s)).2) →
  Inv st.2 → Inv (upsert_all owner now cs st).2.
Proof.
  intros Hstep. revert st. unfold upsert_all.
  induction cs as [|c cs IH]; intros [out s] Hst; [exact Hst|].
  cbn [foldl]. apply IH. destruct (upsert owner now c (out, s)) as [out1 s1] eqn:E.
  specialize (Hstep c out s Hst). by rewrite E in Hstep.
Qed.

Lemma upsert_all_covers owner now cs st c :
  c ∈ cs → has_unread (upsert_all owner now cs st).2 owner (cand_dedup_key c) = true.
Proof.
  revert st. induction cs as [|c0 cs IH]; intros [out s] Hin; [by apply elem_of_nil in Hin|].
  change (upsert_all owner now (c0 :: cs) (out, s))
    with (upsert_all owner now cs (upsert owner now c0 (out, s))).
  apply elem_of_cons in Hin as [->|Hin].
  - apply (upsert_all_invariant (λ s, has_unread s owner (cand_dedup_key c0) = true)).
    + intros. by apply upsert_keeps_unread.
    + apply upsert_covers.
  - by apply IH.
Qed.

Lemma upsert_all_covered owner now cs out s :
  (∀ c, c ∈ cs → has_unread s owner (cand_dedup_key c) = true) →
  upsert_all owner now cs (out, s) = (out, s).
Proof.
  induction cs as [|c cs IH]; intros Hall; [done|].
  change (upsert_all owner now (c :: cs) (out, s))
    with (upsert_all owner now cs (upsert owner now c (out, s))).
  unfold upsert at 1. rewrite Hall by left. apply IH. intros c' Hc'. apply Hall. by right.
Qed.

(** C5. Two evaluations for the same owner, one after the other, on the same
    aggregates, at any two instants: the second inserts nothing and leaves
    the store of the first.  The first keeps every stored notification as it
    was (no row is changed, so no timestamp is refreshed) and changes no
    other table.  When the store has at most one unread notification per
    owner and key, it still has after the evaluation, and after a user marks
    one notification or all of them read; the empty table has. *)
Theorem evaluate_twice_inserts_nothing {Aggregates : Type}
    (checks : list (Aggregates → Z → option Candidate)) (agg : Aggregates)
    (owner : Z) (now1 now2 : datetime) (s : DB) :
  let s1 := (evaluate checks agg owner now1 s).2 in
  evaluate checks agg owner now2 s1 = ([], s1)
  ∧ (∀ i n, notifications s !! i = Some n → notifications s1 !! i = Some n)
  ∧ (accounts s1 = accounts s ∧ categories s1 = categories s
     ∧ transactions s1 = transactions s ∧ recurrings s1 = recurrings s
     ∧ achievements s1 = achievements s)
  ∧ (unique_unread s →
     unique_unread s1
     ∧ (∀ u i, unique_unread (mark_notification_read u i s).2)
     ∧ (∀ u, unique_unread (mark_all_notifications_read u s).2))
  ∧ (notifications s = ∅ → unique_unread s).
Proof.
  intros s1. subst s1. unfold evaluate.
  set (cs := omap (λ check, check agg owner) checks).
  change (foldl (λ st c, upsert owner now1 c st) ([], s) cs)
    with (upsert_all owner now1 cs ([], s)).
  refine (conj _ (conj _ (conj _ (conj _ _)))).
  - apply (upsert_all_covered owner now2 cs []).
    intros c Hc. by apply upsert_all_covers.
  - intros i n Hi.
    apply (upsert_all_invariant (λ s', notifications s' !! i = Some n)); [|done].
    intros. by apply upsert_keeps_rows.
  - apply (upsert_all_invariant
             (λ s', accounts s' = accounts s ∧ categories s' = categories s
                    ∧ transactions s' = transactions s ∧ recurrings s' = recurrings s
                    ∧ achievements s' = achievements s)); [|done].
    intros c out s' (Ha & Hc & Ht & Hr & Hh).
    destruct (upsert_others owner now1 c out s') as (Ha' & Hc' & Ht' & Hr' & Hh').
    split_and!; congruence.
  - intros Huniq. split_and!.
    + apply (upsert_all_invariant unique_unread); [|done].
      intros. by apply upsert_unique.
    + intros u i. unfold mark_notification_read.
      destruct (notifications s !! i) as [n|] eqn:Hn; [|done].
      case_decide; [|done]. simpl.
      intros j1 j2 n1 n2. simpl. rewrite !lookup_insert.
      repeat case_decide; subst; try done.
      * by intros [= <-].
      * by intros _ [= <-].
      * apply Huniq.
    + intros u. unfold mark_all_notifications_read. simpl.
      intros j1 j2 n1 n2. simpl. rewrite !lookup_fmap.
      destruct (notifications s !! j1) as [m1|] eqn:H1; [|done].
      destruct (notifications s !! j2) as [m2|] eqn:H2; [|done]. simpl.
      intros [= <-] [= <-]. repeat case_decide; simpl; try done.
      by apply Huniq.
  - intros Hempty i j ni nj Hi. by rewrite Hempty, lookup_empty in Hi.
Qed.

(** ** What a view reads *)



(** Tables under the same update. *)









(** Queries on stores that agree. *)


































(** The views on one table. *)







(** * The theorems on the sample data *)



Lemma transfer_moves_amount_witness :
  balance_of (transfer 7 sample_transfer sample_store).2 1 = Some (float_of_Z 3800)
  ∧ balance_of (transfer 7 sample_transfer sample_store).2 2 = Some (float_of_Z 1500)
  ∧ units_sum (float_of_Z 3800) (float_of_Z 1500)
    = units_sum (float_of_Z 5000) (float_of_Z 300).
Proof.
  destruct (transfer_moves_amount 7 sample_transfer sample_store
              {| acc_user_id := 7; acc_balance := float_of_Z 5000; acc_is_active := true |}
              {| acc_user_id := 7; acc_balance := float_of_Z 300; acc_is_active := true |})
    as [H _].
  - reflexivity.
  - reflexivity.
  - reflexivity.
  - reflexivity.
  - destruct H as (i1 & i2 & t1 & t2 & _ & _ & _ & _ & _ & _ & _ & _ & _ & _ & _ & _
                   & Hsrc & Hdst & Hsum & _).
    + split_and!; [reflexivity|reflexivity|vm_compute; congruence|vm_compute; reflexivity].
    + split_and!; [exact Hsrc|exact Hdst|].
      apply Hsum; apply (bool_decide_unpack _); vm_compute; exact I.
Defined.

(** C9 as stated fails twice.  On floats: 0.7 go from an account that holds
    1000.0 to one that holds 0.1; the transfer is made, and the two balances,
    which added up to 1000.1, now add up to 1000.0999999999999.  And for an
    account that is closed: 10.0 from the account 2, which holds 1000.0, to
    the closed account 4 of the same user are refused, and no transaction is
    created. *)
Lemma transfer_does_not_keep_the_sum :
  let s := (transfer 7 rounding_transfer float_store).2 in
  balance_of float_store 2 = Some (float_of_Z 1000)
  ∧ balance_of float_store 3 = Some (decimal 1 10)
  ∧ fleb (decimal 7 10) (float_of_Z 1000) = true
  ∧ size (transactions s) = 2%nat
  ∧ balance_of s 2 = Some (fsub (float_of_Z 1000) (decimal 7 10))
  ∧ balance_of s 3 = Some (fadd (decimal 1 10) (decimal 7 10))
  ∧ fadd (fsub (float_of_Z 1000) (decimal 7 10)) (fadd (decimal 1 10) (decimal 7 10))
    = S754_finite false 8796972631510220 (-43)
  ∧ fadd (float_of_Z 1000) (decimal 1 10) = S754_finite false 8796972631510221 (-43)
  ∧ units_sum (fsub (float_of_Z 1000) (decimal 7 10)) (fadd (decimal 1 10) (decimal 7 10))
    ≠ units_sum (float_of_Z 1000) (decimal 1 10)
  ∧ (∃ acc, accounts float_store !! 4 = Some acc ∧ acc_user_id acc = 7)
  ∧ fleb (float_of_Z 10) (float_of_Z 1000) = true
  ∧ transfer 7 closed_transfer float_store = (render_template "transfer.html", float_store).
Proof.
  split_and!; try (vm_compute; reflexivity); try (vm_compute; discriminate).
  eexists. split; vm_compute; reflexivity.
Qed.

Lemma bulk_edit_unlinked_row_raises_witness :
  bulk_edit_transactions 7 [1; 2] None (Some 1) sample_store
  = (jsonify 500 false 0, sample_store).
Proof.
  refine (proj2 (bulk_edit_unlinked_row_raises 7 [1; 2] None (Some 1) sample_store 1 2
                   {| tx_user_id := 7; tx_date := datetime_combine_min 11;
                      tx_amount := float_of_Z 25; tx_type := income;
                      tx_category_id := Some 1; tx_account_id := None |}
                   _ _ _ _ _ _)).
  - reflexivity.
  - vm_compute. eauto.
  - apply (bool_decide_unpack _). vm_compute. exact I.
  - vm_compute. reflexivity.
  - reflexivity.
  - reflexivity.
Defined.

Lemma achievements_unlock_once_witness :
  (∃ ach', achievements (achievements_view (datetime_combine_min 30) 7 streak_store).2 !! 3
           = Some ach'
           ∧ ach_is_unlocked ach' = true
           ∧ ach_unlocked_at ach' = Some (datetime_combine_min 30))
  ∧ achievements (achievements_view (datetime_combine_min 30) 7 streak_store).2 !! 4
    = achievements streak_store !! 4
  ∧ (∃ ach', achievements (achievements_view (datetime_combine_min 30) 7 sample_store).2 !! 1
             = Some ach'
             ∧ ach_is_unlocked ach' = true
             ∧ ach_unlocked_at ach' = Some (datetime_combine_min 30))
  ∧ achievements (achievements_view (datetime_combine_min 30) 7 sample_store).2 !! 2
    = achievements sample_store !! 2
  ∧ days_with_transactions streak_store 7 = 2
  ∧ total_transactions streak_store 7 = 2.
Proof.
  split_and!.
  - destruct (achievements_unlock_once (datetime_combine_min 30) 7 streak_store 3
                {| ach_user_id := 7; ach_condition_type := "days_streak";
                   ach_condition_value := 2; ach_is_unlocked := false;
                   ach_unlocked_at := None |}) as [H _].
    + vm_compute. reflexivity.
    + reflexivity.
    + destruct H as (ach' & H1 & H2 & H3 & _).
      * reflexivity.
      * right. split; [reflexivity|]. vm_compute. discriminate.
      * exists ach'. auto.
  - destruct (achievements_unlock_once (datetime_combine_min 30) 7 streak_store 4
                {| ach_user_id := 7; ach_condition_type := "transactions_count";
                   ach_condition_value := 5; ach_is_unlocked := false;
                   ach_unlocked_at := None |}) as (_ & _ & H & _).
    + vm_compute. reflexivity.
    + reflexivity.
    + rewrite H; [vm_compute; reflexivity|reflexivity|].
      intros [[_ Hle]|[Hty _]]; [|discriminate]. vm_compute in Hle. by apply Hle.
  - destruct (achievements_unlock_once (datetime_combine_min 30) 7 sample_store 1
                {| ach_user_id := 7; ach_condition_type := "transactions_count";
                   ach_condition_value := 2; ach_is_unlocked := false;
                   ach_unlocked_at := None |}) as [H _].
    + vm_compute. reflexivity.
    + reflexivity.
    + destruct H as (ach' & H1 & H2 & H3 & _).
      * reflexivity.
      * left. split; [reflexivity|]. vm_compute. discriminate.
      * exists ach'. auto.
  - destruct (achievements_unlock_once (datetime_combine_min 30) 7 sample_store 2
                {| ach_user_id := 7; ach_condition_type := "days_streak";
                   ach_condition_value := 9; ach_is_unlocked := true;
                   ach_unlocked_at := Some (datetime_combine_min 5) |}) as (_ & H & _).
    + vm_compute. reflexivity.
    + reflexivity.
    + rewrite (H eq_refl). vm_compute. reflexivity.
  - vm_compute. reflexivity.
  - vm_compute. reflexivity.
Defined.



Lemma tick_catches_up_witness :
  (∃ (k : nat) (r' : RecurringRule),
     rules (tick (ymd 2024 4 1) None sample_scheduler).1 !! 3 = Some r'
     ∧ (date_ltb (ymd 2024 4 1) (next_due_date r') = true ∨ active r' = false)
     ∧ next_due_date r' = schedule sample_rule (ymd 2024 1 1) k)
  ∧ occ_date <$> (tick (ymd 2024 4 1) None sample_scheduler).2
    = [ymd 2024 1 1; ymd 2024 2 1; ymd 2024 3 1; ymd 2024 4 1]
  ∧ balances (tick (ymd 2024 4 1) None sample_scheduler).1 !! 1 = Some 1000
  ∧ next_due_date <$> rules (tick (ymd 2024 4 1) None sample_scheduler).1 !! 3
    = Some (ymd 2024 5 1).
Proof.
  split.
  - destruct (tick_catches_up (ymd 2024 4 1) None sample_scheduler 3 sample_rule)
      as (k & r' & H1 & H2 & H3 & _).
    + unfold valid_date, ymd. cbn. lia.
    + reflexivity.
    + unfold valid_rule, valid_date, sample_rule, ymd. cbn. lia.
    + reflexivity.
    + reflexivity.
    + reflexivity.
    + exists k, r'. auto.
  - vm_compute. auto.
Defined.

Lemma advance_by_frequency_witness :
  valid_date (advance end_of_month_rule (ymd 2024 1 31))
  ∧ schedule end_of_month_rule (ymd 2024 1 31) <$> [1; 2; 3]%nat
    = [ymd 2024 2 29; ymd 2024 3 31; ymd 2024 4 30].
Proof.
  destruct (advance_by_frequency end_of_month_rule (ymd 2024 1 31))
    as (Hvalid & _ & _ & _ & _ & Hex).
  - unfold valid_date, end_of_month_rule, ymd. cbn. lia.
  - unfold valid_date, ymd. cbn. lia.
  - split; [exact Hvalid|exact (Hex eq_refl eq_refl)].
Defined.

(** * More on the views *)

(** ** Balance updates that cancel *)

Lemma DB_eq (s1 s2 : DB) :
  accounts s1 = accounts s2 → categories s1 = categories s2 →
  transactions s1 = transactions s2 → recurrings s1 = recurrings s2 →
  notifications s1 = notifications s2 → achievements s1 = achievements s2 →
  s1 = s2.
Proof. destruct s1, s2; simpl; intros; by subst. Qed.

Lemma set_transactions_id s : set_transactions (λ m, m) s = s.
Proof. by destruct s. Qed.

Lemma set_transactions_delete_insert_fresh i t s :
  transactions s !! i = None →
  set_transactions (delete i) (set_transactions (insert i t) s) = s.
Proof.
  intros Hi. apply DB_eq; try done. simpl. rewrite delete_insert_eq. by apply delete_id.
Qed.

Lemma tx_account_set_transactions f s t :
  tx_account (set_transactions f s) t = tx_account s t.
Proof. done. Qed.

Lemma tx_account_linked s t a :
  tx_account_id t = Some a → is_Some (accounts s !! a) → tx_account s t = Some a.
Proof. intros Ha Hs. by apply tx_account_Some. Qed.

Lemma is_Some_accounts_balance_add a d s b :
  is_Some (accounts (balance_add a d s) !! b) ↔ is_Some (accounts s !! b).
Proof. apply same_accounts_is_Some, same_accounts_balance_add. Qed.

Lemma is_Some_accounts_balance_sub a d s b :
  is_Some (accounts (balance_sub a d s) !! b) ↔ is_Some (accounts s !! b).
Proof. apply same_accounts_is_Some, same_accounts_balance_sub. Qed.

(** ** Adding a transaction and deleting it again *)

Lemma acc_is_active_balance_add a d s b :
  acc_is_active <$> accounts (balance_add a d s) !! b = acc_is_active <$> accounts s !! b.
Proof.
  unfold balance_add; simpl. rewrite lookup_alter.
  case_decide; subst; by destruct (accounts s !! _).
Qed.

Lemma acc_is_active_balance_sub a d s b :
  acc_is_active <$> accounts (balance_sub a d s) !! b = acc_is_active <$> accounts s !! b.
Proof.
  unfold balance_sub; simpl. rewrite lookup_alter.
  case_decide; subst; by destruct (accounts s !! _).
Qed.

(** The store after the two requests, when the form is accepted and names a
    stored account. *)
Lemma add_then_delete_linked user_id form s a :
  validate_on_submit s user_id form = true →
  form_account form ≠ 0 →
  form_account form = a →
  is_Some (accounts s !! a) →
  (delete_transaction user_id (next_id (transactions s))
     (add_transaction user_id form s).2).2
  = match form_transaction_type form with
    | income => balance_sub a (form_amount form) (balance_add a (form_amount form) s)
    | expense => balance_add a (form_amount form) (balance_sub a (form_amount form) s)
    end.
Proof.
  intros Hval Hne Ha Hex. unfold add_transaction. rewrite Hval. cbv zeta. unfold snd.
  rewrite (decide_True (P := form_account form ≠ 0)) by done.
  assert (Account_get s (form_account form) = Some a) as ->.
  { unfold Account_get. rewrite Ha. destruct Hex as [x ->]. done. }
  unfold form_transaction_type.
  destruct (String.eqb (form_type form) "income") eqn:Hty.
  - unfold delete_transaction, Transaction_first_by. simpl.
    rewrite lookup_insert_eq. simpl. rewrite decide_True by done.
    unfold rollback_and_delete, snd.
    rewrite tx_account_set_transactions.
    rewrite (tx_account_linked _ _ a) by (first [done | by apply is_Some_accounts_balance_add]).
    simpl.
    change (balance_sub a (form_amount form)
              (set_transactions (insert (next_id (transactions s)) ?t)
                 (balance_add a (form_amount form) s)))
      with (set_transactions (insert (next_id (transactions s)) t)
              (balance_sub a (form_amount form) (balance_add a (form_amount form) s))).
    apply set_transactions_delete_insert_fresh, next_id_fresh.
  - unfold delete_transaction, Transaction_first_by. simpl.
    rewrite lookup_insert_eq. simpl. rewrite decide_True by done.
    unfold rollback_and_delete, snd.
    rewrite tx_account_set_transactions.
    rewrite (tx_account_linked _ _ a) by (first [done | by apply is_Some_accounts_balance_sub]).
    simpl.
    change (balance_add a (form_amount form)
              (set_transactions (insert (next_id (transactions s)) ?t)
                 (balance_sub a (form_amount form) s)))
      with (set_transactions (insert (next_id (transactions s)) t)
              (balance_add a (form_amount form) (balance_sub a (form_amount form) s))).
    apply set_transactions_delete_insert_fresh, next_id_fresh.
Qed.

(** The store after the two requests, otherwise. *)
Lemma add_then_delete_unlinked user_id form s :
  ¬ (validate_on_submit s user_id form = true ∧ form_account form ≠ 0
     ∧ is_Some (accounts s !! form_account form)) →
  (delete_transaction user_id (next_id (transactions s))
     (add_transaction user_id form s).2).2 = s.
Proof.
  intros Hnot. unfold add_transaction.
  destruct (validate_on_submit s user_id form) eqn:Hval; simpl.
  2: { unfold delete_transaction, Transaction_first_by. by rewrite next_id_fresh. }
  assert ((if decide (form_account form ≠ 0) then Account_get s (form_account form) else None)
          = None) as ->.
  { case_decide as Hne; [|done]. unfold Account_get.
    destruct (accounts s !! form_account form) eqn:E; [|done].
    destruct Hnot. split_and!; [done|done|eauto]. }
  unfold delete_transaction, Transaction_first_by. simpl.
  rewrite lookup_insert_eq. simpl. rewrite decide_True by done.
  unfold rollback_and_delete, snd. simpl.
  apply set_transactions_delete_insert_fresh, next_id_fresh.
Qed.

(** X1. Deleting the row that [add_transaction] has just stored takes every
    table but the balances back to what it was before the two requests.  A
    balance is as it was, except that of the account the row was linked to:
    it went through one float addition and one float subtraction of the
    amount, which need not give the old balance back.  When the form is
    refused nothing was stored, the deletion answers 404, and the store is
    as it was. *)
Theorem add_then_delete_restores (user_id : Z) (form : TransactionForm) (s : DB) :
  let s' := (delete_transaction user_id (next_id (transactions s))
               (add_transaction user_id form s).2).2 in
  let ty := form_transaction_type form in
  let d := form_amount form in
  set_accounts (λ _, accounts s) s' = s
  ∧ (∀ a, acc_user_id <$> accounts s' !! a = acc_user_id <$> accounts s !! a)
  ∧ (∀ a, acc_is_active <$> accounts s' !! a = acc_is_active <$> accounts s !! a)
  ∧ (∀ a, balance_of s' a
          = (λ b, if bool_decide (validate_on_submit s user_id form = true
                                  ∧ form_account form ≠ 0 ∧ form_account form = a)
                  then undo_effect ty d (apply_effect ty d b) else b) <$> balance_of s a)
  ∧ (validate_on_submit s user_id form = false →
     delete_transaction user_id (next_id (transactions s)) (add_transaction user_id form s).2
     = (abort404, s)).
Proof.
  intros s' ty d. subst ty d.
  assert (validate_on_submit s user_id form = false →
          delete_transaction user_id (next_id (transactions s))
            (add_transaction user_id form s).2 = (abort404, s)) as Hrefused.
  { intros Hval. unfold add_transaction. rewrite Hval. simpl.
    unfold delete_transaction, Transaction_first_by. by rewrite next_id_fresh. }
  destruct (decide (validate_on_submit s user_id form = true ∧ form_account form ≠ 0
                    ∧ is_Some (accounts s !! form_account form))) as [(Hval & Hne & Hex)|Hnot].
  - pose proof (add_then_delete_linked user_id form s _ Hval Hne eq_refl Hex) as Hs'.
    fold s' in Hs'. split_and!; [| | | |done].
    + rewrite Hs'. apply DB_eq; by destruct (form_transaction_type form).
    + change (same_accounts s s'). rewrite Hs'.
      destruct (form_transaction_type form).
      * eapply same_accounts_trans;
          [apply same_accounts_balance_add|apply same_accounts_balance_sub].
      * eapply same_accounts_trans;
          [apply same_accounts_balance_sub|apply same_accounts_balance_add].
    + intros a. rewrite Hs'.
      destruct (form_transaction_type form);
        by rewrite ?acc_is_active_balance_sub, ?acc_is_active_balance_add,
                   ?acc_is_active_balance_sub.
    + intros a. rewrite Hs'.
      destruct (form_transaction_type form);
        rewrite ?balance_of_balance_sub, ?balance_of_balance_add,
                ?balance_of_balance_sub;
        destruct (balance_of s a); simpl; try done; f_equal;
        case_bool_decide as Hb; case_decide; try done; destruct Hb; tauto.
  - pose proof (add_then_delete_unlinked user_id form s Hnot) as Hs'.
    fold s' in Hs'. rewrite Hs'. split_and!; [by destruct s|done|done| |done].
    intros a. destruct (balance_of s a) as [b|] eqn:Hb; simpl; [|done].
    rewrite bool_decide_eq_false_2; [done|].
    intros (Hval & Hne & <-). apply Hnot. split_and!; [done|done|].
    unfold balance_of in Hb. by destruct (accounts s !! form_account form).
Qed.

(** ** The loop of a bulk deletion *)





Lemma Transaction_in_NoDup s ids u : NoDup (Transaction_in s ids u).*1.
Proof. apply NoDup_fst_map_to_list. Qed.



(** ** What a bulk deletion removes *)


(** ** Submitting the same edit again *)

Lemma transfer_choices_alter_balance (f : Account → Account) b s u a :
  (∀ acc, acc_user_id (f acc) = acc_user_id acc ∧ acc_is_active (f acc) = acc_is_active acc) →
  a ∈ transfer_choices (set_accounts (alter f b) s) u ↔ a ∈ transfer_choices s u.
Proof.
  intros Hf. rewrite !transfer_choices_elem. simpl. rewrite lookup_alter.
  case_decide as Hab; [subst b|done].
  destruct (accounts s !! a) as [acc0|]; simpl; [|by split; intros (? & ? & _)].
  pose proof (Hf acc0) as [Hu Hact]. split.
  - intros (acc & [= <-] & ? & ?). exists acc0. by rewrite <- Hu, <- Hact.
  - intros (acc & [= <-] & ? & ?). exists (f acc0). by rewrite Hu, Hact.
Qed.

Lemma validate_on_submit_ext s s' u form :
  categories s' = categories s →
  (∀ a, a ∈ transfer_choices s' u ↔ a ∈ transfer_choices s u) →
  validate_on_submit s' u form = validate_on_submit s u form.
Proof.
  intros Hc Ha. unfold validate_on_submit, category_choices. rewrite Hc. f_equal.
  apply bool_decide_ext. by rewrite !account_choices_elem, Ha.
Qed.

Lemma validate_on_submit_balance_add a d s u form :
  validate_on_submit (balance_add a d s) u form = validate_on_submit s u form.
Proof.
  apply validate_on_submit_ext; [done|]. intros b.
  by apply transfer_choices_alter_balance.
Qed.

Lemma validate_on_submit_balance_sub a d s u form :
  validate_on_submit (balance_sub a d s) u form = validate_on_submit s u form.
Proof.
  apply validate_on_submit_ext; [done|]. intros b.
  by apply transfer_choices_alter_balance.
Qed.

Lemma validate_on_submit_set_transactions f s u form :
  validate_on_submit (set_transactions f s) u form = validate_on_submit s u form.
Proof. done. Qed.

Lemma Account_get_same s s' i :
  same_accounts s s' → Account_get s' i = Account_get s i.
Proof.
  intros Hs. unfold Account_get. specialize (Hs i).
  by destruct (accounts s' !! i), (accounts s !! i).
Qed.

Lemma set_transactions_insert_insert i t t0 s :
  set_transactions (insert i t) (set_transactions (insert i t0) s)
  = set_transactions (insert i t) s.
Proof. apply DB_eq; try done. simpl. apply insert_insert_eq. Qed.

Lemma balance_add_set_transactions a d f s :
  balance_add a d (set_transactions f s) = set_transactions f (balance_add a d s).
Proof. done. Qed.

Lemma balance_sub_set_transactions a d f s :
  balance_sub a d (set_transactions f s) = set_transactions f (balance_sub a d s).
Proof. done. Qed.


(** The second of two equal edits, on the store that the first has left:
    the row is as the form says, so the second undoes the effect of the
    form and applies it again. *)
Lemma edit_transaction_again u i form (s1 : DB) :
  validate_on_submit s1 u form = true →
  let cat := if decide (form_category form ≠ 0) then Category_get s1 (form_category form) else None in
  let acc := if decide (form_account form ≠ 0) then Account_get s1 (form_account form) else None in
  let t' := {| tx_user_id := u;
               tx_date := datetime_combine_min (form_date form);
               tx_amount := form_amount form;
               tx_type := form_transaction_type form;
               tx_category_id := cat;
               tx_account_id := acc |} in
  let s3 := match acc with
            | Some a =>
                match tx_type t' with
                | income => balance_add a (tx_amount t') (set_transactions (insert i t') s1)
                | expense => balance_sub a (tx_amount t') (set_transactions (insert i t') s1)
                end
            | None => set_transactions (insert i t') s1
            end in
  edit_transaction u i form s3
  = (redirect "transactions",
     match acc with
     | Some a =>
         match tx_type t' with
         | income => balance_add a (tx_amount t') (balance_sub a (tx_amount t') s3)
         | expense => balance_sub a (tx_amount t') (balance_add a (tx_amount t') s3)
         end
     | None => s3
     end).
Proof.
  intros Hval cat acc t' s3.
  assert (transactions s3 !! i = Some t') as Hi.
  { subst s3. destruct acc; [destruct (tx_type t')|]; simpl; apply lookup_insert_eq. }
  assert (validate_on_submit s3 u form = true) as Hval3.
  { subst s3. destruct acc; [destruct (tx_type t')|];
      by rewrite ?validate_on_submit_balance_add, ?validate_on_submit_balance_sub,
                 ?validate_on_submit_set_transactions. }
  assert (categories s3 = categories s1) as Hc3
    by (subst s3; by destruct acc; [destruct (tx_type t')|]).
  assert (same_accounts s1 s3) as Ha3.
  { subst s3. destruct acc; [destruct (tx_type t')|]; intros b; simpl;
      rewrite ?lookup_alter; repeat case_decide; subst; by destruct (accounts s1 !! _). }
  unfold edit_transaction, Transaction_first_by.
  rewrite Hi. simpl. rewrite decide_True by done. rewrite Hval3. cbv zeta.
  f_equal.
  set (s4 := match tx_account s3 t' with Some a => _ | None => s3 end).
  assert (s4 = match acc with
               | Some a => match tx_type t' with
                           | income => balance_sub a (tx_amount t') s3
                           | expense => balance_add a (tx_amount t') s3
                           end
               | None => s3
               end) as Hs4.
  { subst s4. destruct acc as [a|] eqn:Hacc; [|done].
    assert (is_Some (accounts s1 !! a)) as Hex.
    { subst acc. case_decide; [|done]. by apply Account_get_Some in Hacc as [-> ?]. }
    assert (tx_account s3 t' = Some a) as ->; [|done].
    apply tx_account_Some. split; [done|]. by apply (same_accounts_is_Some s1 s3). }
  assert (categories s4 = categories s1) as Hc4.
  { rewrite Hs4. destruct acc; [destruct (tx_type t')|]; by rewrite <- Hc3. }
  assert (same_accounts s1 s4) as Ha4.
  { rewrite Hs4. destruct acc; [destruct (tx_type t')|]; [| |done];
      (eapply same_accounts_trans; [exact Ha3|]);
      [apply same_accounts_balance_sub|apply same_accounts_balance_add]. }
  assert (Category_get s4 = Category_get s1) as ->
    by (unfold Category_get; by rewrite Hc4).
  assert (Account_get s4 (form_account form) = Account_get s1 (form_account form)) as ->
    by (by apply Account_get_same).
  fold cat acc. fold t'.
  assert (set_transactions (insert i t') s4 = s4) as Hins.
  { apply DB_eq; try done. simpl. apply insert_id.
    rewrite Hs4. destruct acc; [destruct (tx_type t')|]; exact Hi. }
  rewrite Hs4 in Hins |- *.
  destruct acc as [a|]; [|exact Hins].
  change (tx_type t') with (form_transaction_type form) in *.
  change (tx_amount t') with (form_amount form) in *.
  destruct (form_transaction_type form).
  - change (balance_add a (form_amount form)
              (set_transactions (insert i t') (balance_sub a (form_amount form) s3)))
      with (balance_add a (form_amount form)
              (balance_sub a (form_amount form) (set_transactions (insert i t') s3))).
    do 2 f_equal. apply DB_eq; try done. simpl. by apply insert_id.
  - change (balance_sub a (form_amount form)
              (set_transactions (insert i t') (balance_add a (form_amount form) s3)))
      with (balance_sub a (form_amount form)
              (balance_add a (form_amount form) (set_transactions (insert i t') s3))).
    do 2 f_equal. apply DB_eq; try done. simpl. by apply insert_id.
Qed.

(** The two edits, when the first is made. *)
Lemma edit_transaction_made_twice user_id trans_id form s t :
  Transaction_first_by s trans_id user_id = Some t →
  validate_on_submit s user_id form = true →
  ∃ s3 acc,
    edit_transaction user_id trans_id form s = (redirect "transactions", s3)
    ∧ (∀ a, acc = Some a ↔
            form_account form ≠ 0 ∧ form_account form = a ∧ is_Some (accounts s3 !! a))
    ∧ edit_transaction user_id trans_id form s3
      = (redirect "transactions",
         match acc with
         | Some a =>
             match form_transaction_type form with
             | income => balance_add a (form_amount form) (balance_sub a (form_amount form) s3)
             | expense => balance_sub a (form_amount form) (balance_add a (form_amount form) s3)
             end
         | None => s3
         end).
Proof.
  intros Ht Hval. unfold edit_transaction at 1. rewrite Ht, Hval. cbv zeta.
  set (s1 := match tx_account s t with Some a => _ | None => s end).
  assert (validate_on_submit s1 user_id form = true) as Hval1.
  { subst s1. destruct (tx_account s t); [destruct (tx_type t)|];
      by rewrite ?validate_on_submit_balance_add, ?validate_on_submit_balance_sub. }
  pose proof (edit_transaction_again user_id trans_id form s1 Hval1) as Heq.
  cbv zeta in Heq.
  set (acc := if decide (form_account form ≠ 0)
              then Account_get s1 (form_account form) else None) in *.
  set (s3 := match acc with Some a => _ | None => _ end) in *.
  exists s3, acc. split; [done|]. split; [|exact Heq].
  assert (same_accounts s1 s3) as Hsame.
  { subst s3. destruct acc; [simpl; destruct (form_transaction_type form)|]; intros b; simpl;
      rewrite ?lookup_alter; repeat case_decide; subst; by destruct (accounts s1 !! _). }
  intros a. rewrite (same_accounts_is_Some s1 s3) by done. subst acc.
  unfold Account_get. case_decide as Hne.
  - destruct (accounts s1 !! form_account form) eqn:E; simpl.
    + split; [intros [= <-]; rewrite E; eauto|by intros (_ & -> & _)].
    + split; [done|]. intros (_ & <- & [x Hx]). congruence.
  - split; [done|]. by intros [? _].
Qed.

(** X4. Submitting the same edit of the same row a second time gets the
    same answer and leaves every table but the balances as the first edit
    left it.  A balance is as the first edit left it, except that of the
    account the form names when the edit is made: the second request undoes
    what the first applied and applies it again, by one float subtraction
    and one float addition, which need not give the same balance back.  It
    holds whatever the first answer was -- a redirect, the form shown again,
    or 404. *)
Theorem edit_transaction_twice (user_id trans_id : Z) (form : TransactionForm) (s : DB) :
  let once := edit_transaction user_id trans_id form s in
  let twice := edit_transaction user_id trans_id form once.2 in
  let ty := form_transaction_type form in
  let d := form_amount form in
  twice.1 = once.1
  ∧ set_accounts (λ _, accounts once.2) twice.2 = once.2
  ∧ (∀ a, acc_user_id <$> accounts twice.2 !! a = acc_user_id <$> accounts once.2 !! a)
  ∧ (∀ a, acc_is_active <$> accounts twice.2 !! a = acc_is_active <$> accounts once.2 !! a)
  ∧ (∀ a, balance_of twice.2 a
          = (λ b, if bool_decide (once.1 = redirect "transactions"
                                  ∧ form_account form ≠ 0 ∧ form_account form = a)
                  then apply_effect ty d (undo_effect ty d b) else b)
            <$> balance_of once.2 a).
Proof.
  intros once twice ty d. subst twice ty d.
  destruct (Transaction_first_by s trans_id user_id) as [t|] eqn:Ht.
  - destruct (validate_on_submit s user_id form) eqn:Hval.
    + destruct (edit_transaction_made_twice user_id trans_id form s t Ht Hval)
        as (s3 & acc & Honce & Hacc & Htwice).
      subst once. rewrite Honce. cbn [fst snd]. rewrite Htwice. cbn [fst snd].
      destruct acc as [a|].
      * destruct (proj1 (Hacc a) eq_refl) as (Hne & Ha & Hex).
        destruct (form_transaction_type form); split_and!; try done.
        -- by apply DB_eq.
        -- intros b. by rewrite (same_accounts_balance_add a (form_amount form)),
                                  (same_accounts_balance_sub a (form_amount form)).
        -- intros b. by rewrite acc_is_active_balance_add, acc_is_active_balance_sub.
        -- intros b. rewrite balance_of_balance_add, balance_of_balance_sub.
           destruct (balance_of s3 b); simpl; [|done]. f_equal.
           destruct (decide (a = b)) as [<-|Hab].
           ++ by rewrite bool_decide_eq_true_2.
           ++ rewrite bool_decide_eq_false_2; [done|]. intros (_ & _ & Hb). congruence.
        -- by apply DB_eq.
        -- intros b. by rewrite (same_accounts_balance_sub a (form_amount form)),
                                  (same_accounts_balance_add a (form_amount form)).
        -- intros b. by rewrite acc_is_active_balance_sub, acc_is_active_balance_add.
        -- intros b. rewrite balance_of_balance_sub, balance_of_balance_add.
           destruct (balance_of s3 b); simpl; [|done]. f_equal.
           destruct (decide (a = b)) as [<-|Hab].
           ++ by rewrite bool_decide_eq_true_2.
           ++ rewrite bool_decide_eq_false_2; [done|]. intros (_ & _ & Hb). congruence.
      * split_and!; try done; [by destruct s3|].
        intros b. destruct (balance_of s3 b) as [x|] eqn:Hx; simpl; [|done].
        rewrite bool_decide_eq_false_2; [done|]. intros (_ & Hne & Hb).
        assert (None = Some b) as Hnone; [|done].
        apply Hacc. split_and!; [done|done|].
        unfold balance_of in Hx. by destruct (accounts s3 !! b).
    + subst once. unfold edit_transaction. rewrite Ht, Hval. cbn [fst snd].
      rewrite Ht, Hval. cbn [fst snd].
      split_and!; try done; [by destruct s|].
      intros a. by destruct (balance_of s a).
  - subst once. unfold edit_transaction. rewrite Ht. cbn [fst snd]. rewrite Ht.
    cbn [fst snd]. split_and!; try done; [by destruct s|].
    intros a. by destruct (balance_of s a).
Qed.

(** ** Transfers end normally *)

(** X5. A transfer request never meets the error page: once the form is
    accepted both accounts are found, so the view either redirects to the
    list of transactions or shows the form again on an unchanged store. *)
Theorem transfer_never_uncaught (user_id : Z) (form : TransferForm) (s : DB) :
  (transfer user_id form s).1 = redirect "transactions"
  ∨ transfer user_id form s = (render_template "transfer.html", s).
Proof.
  unfold transfer.
  destruct (validate_transfer s user_id form) eqn:Hval; [|by right].
  unfold validate_transfer in Hval.
  rewrite andb_true_iff, !bool_decide_eq_true in Hval. destruct Hval as [Hfrom Hto].
  apply transfer_choices_elem in Hfrom as (from_acc & -> & _).
  apply transfer_choices_elem in Hto as (to_acc & -> & _).
  case_decide; [by right|]. destruct (fltb _ _); [by right|]. by left.
Qed.

(** ** Deactivated accounts *)

Lemma transfer_choices_deactivated u acc_id s v a :
  (delete_account u acc_id s).1 = redirect "accounts" →
  a ∈ transfer_choices (delete_account u acc_id s).2 v ↔
  a ≠ acc_id ∧ a ∈ transfer_choices s v.
Proof.
  unfold delete_account.
  destruct (accounts s !! acc_id) as [acc|] eqn:Hacc; [|done].
  case_decide as Hu; [|done]. intros _. simpl.
  rewrite !transfer_choices_elem. simpl. split.
  - intros (x & Hx & Hact & Hv). destruct (decide (a = acc_id)) as [->|Hne].
    + rewrite lookup_insert_eq in Hx. by injection Hx as <-.
    + rewrite lookup_insert_ne in Hx by done. eauto.
  - intros (Hne & x & Hx & Hact & Hv). exists x. by rewrite lookup_insert_ne.
Qed.

(** X6. Deactivating an account keeps its row, its balance and every
    transaction, and takes it out of the forms for good: from then on a
    transaction form that names it and a transfer from it or to it are shown
    again on an unchanged store, whoever sends them.  (The id 0 of a form
    means no account.)  Rows of other users are not touched; an account of
    somebody else, or no account, is answered 404. *)
Theorem deactivated_account_is_refused (user_id acc_id : Z) (s : DB) :
  let s' := (delete_account user_id acc_id s).2 in
  (∀ a, balance_of s' a = balance_of s a)
  ∧ transactions s' = transactions s
  ∧ others_untouched user_id s s'
  ∧ match Account_first_by s acc_id user_id with
    | Some _ =>
        (delete_account user_id acc_id s).1 = redirect "accounts"
        ∧ (acc_is_active <$> accounts s' !! acc_id) = Some false
        ∧ (∀ v form, form_account form = acc_id → acc_id ≠ 0 →
             add_transaction v form s' = (render_template "add_transaction.html", s'))
        ∧ (∀ v form, form_from_account form = acc_id ∨ form_to_account form = acc_id →
             transfer v form s' = (render_template "transfer.html", s'))
    | None => delete_account user_id acc_id s = (abort404, s)
    end.
Proof.
  intros s'. subst s'. unfold Account_first_by.
  destruct (accounts s !! acc_id) as [acc|] eqn:Hacc; simpl.
  2: { unfold delete_account. rewrite Hacc. split_and!; try done; apply others_untouched_refl. }
  destruct (decide (acc_user_id acc = user_id)) as [Hu|Hu].
  2: { unfold delete_account. rewrite Hacc, decide_False by done.
       split_and!; try done; apply others_untouched_refl. }
  assert ((delete_account user_id acc_id s).1 = redirect "accounts") as Hok.
  { unfold delete_account. by rewrite Hacc, decide_True. }
  pose proof (transfer_choices_deactivated user_id acc_id s) as Hch.
  unfold delete_account in *. rewrite Hacc, decide_True in * by done. simpl in *.
  split_and!; try done.
  - intros a. unfold balance_of. simpl. destruct (decide (a = acc_id)) as [->|Hne].
    + by rewrite lookup_insert_eq, Hacc.
    + by rewrite lookup_insert_ne.
  - unfold others_untouched. simpl. split_and!; try done.
    intros i a Ha. destruct (decide (i = acc_id)) as [->|Hne].
    + rewrite lookup_insert_eq, Hacc. split; intros [= <-]; by destruct Ha.
    + by rewrite lookup_insert_ne.
  - by rewrite lookup_insert_eq.
  - intros v form Hf Hnz. unfold add_transaction.
    assert (validate_on_submit
              (set_accounts (insert acc_id (acc_set_inactive acc)) s) v form = false) as ->;
      [|done].
    unfold validate_on_submit. apply andb_false_iff. right.
    apply bool_decide_eq_false. rewrite account_choices_elem, Hf.
    intros [?|Hin]; [done|]. apply (Hch v acc_id Hok) in Hin as [? _]. done.
  - intros v form Hf. unfold transfer.
    assert (validate_transfer
              (set_accounts (insert acc_id (acc_set_inactive acc)) s) v form = false) as ->;
      [|done].
    unfold validate_transfer. apply andb_false_iff.
    destruct Hf as [Hf|Hf]; [left|right]; apply bool_decide_eq_false; rewrite Hf;
      intros Hin; apply (Hch v acc_id Hok) in Hin as [? _]; done.
Qed.

(** ** Anonymous requests *)

Section Protected.
Variable generate_recurring_occurrences : pass.
Variable generate_all_notifications : pass.

(** X7. A view under [login_required] never runs for a visitor who is not
    logged in, whatever the endpoint of the request: one of the endpoints
    that [enforce_authentication] lets through -- the chart endpoints listed
    in [PUBLIC_ENDPOINTS], a static path, no endpoint at all -- is stopped
    by the decorator, the others by the hook.  Either way the answer is the
    redirect to the login page, and the store is the one the background pass
    left.  For a logged-in user the view runs on that store. *)
Theorem login_required_stops_anonymous (endpoint : option string)
    (view : Z → DB → Response * DB) (user : option Z) (s : DB) :
  let s1 := (ensure_recurring_generated generate_recurring_occurrences
               generate_all_notifications s).1 in
  handle_request generate_recurring_occurrences generate_all_notifications
    user endpoint (login_required view user) s
  = match user with
    | Some user_id => Responded (view user_id s1).1 (view user_id s1).2
    | None => Responded (redirect "login") s1
    end.
Proof.
  unfold handle_request, ensure_recurring_generated, try_except_pass.
  destruct (and_then _ _ s) as [s1 e]. simpl.
  destruct user as [u|]; simpl.
  - assert (enforce_authentication (Some u) endpoint = None) as ->.
    { unfold enforce_authentication. destruct endpoint as [e0|]; [|done].
      by destruct (_ || _). }
    by destruct (view u s1).
  - unfold enforce_authentication. destruct endpoint as [e0|]; [|done].
    destruct (_ || _); [done|]. simpl.
    by destruct (bool_decide (e0 ∈ PUBLIC_ENDPOINTS)).
Qed.
End Protected.

(** ** The month of a chart *)

Lemma first_of_month_Ok y m :
  1 ≤ y ≤ 9999 → 1 ≤ m ≤ 12 →
  first_of_month y m
  = Ok {| dt_day := toordinal {| year := y; month := m; day := 1 |}; dt_time := 0 |}.
Proof.
  intros Hy Hm. unfold first_of_month, fits_c_int.
  rewrite bool_decide_eq_true_2 by lia. by rewrite bool_decide_eq_true_2.
Qed.

Lemma first_of_month_Raise y m :
  ¬ (1 ≤ y ≤ 9999 ∧ 1 ≤ m ≤ 12) →
  first_of_month y m
  = Raise (if bool_decide (fits_c_int y ∧ fits_c_int m) then ValueError else OverflowError).
Proof.
  intros H. unfold first_of_month. case_bool_decide; [|done].
  by rewrite bool_decide_eq_false_2.
Qed.

Lemma first_of_month_inv y m dt :
  first_of_month y m = Ok dt →
  1 ≤ y ≤ 9999 ∧ 1 ≤ m ≤ 12
  ∧ dt = {| dt_day := toordinal {| year := y; month := m; day := 1 |}; dt_time := 0 |}.
Proof.
  unfold first_of_month. repeat case_bool_decide; try done.
  intros [= <-]. tauto.
Qed.

(** X8. The month window of the chart views exists for the months 1 to 12
    of the years 1 to 9999, December 9999 excepted, whose end would be in the
    year 10000.  For any other year and month, building the window raises
    an exception: [ValueError] when both numbers fit a C [int], and
    [OverflowError] when one of them does not.  When the window exists it
    runs from midnight of the first day of the month to midnight of the first
    day of the next month. *)
Theorem month_window_defined (y m : Z) :
  if bool_decide (1 ≤ y ≤ 9999 ∧ 1 ≤ m ≤ 12 ∧ ¬ (y = 9999 ∧ m = 12))
  then month_window y m
       = Ok ({| dt_day := toordinal {| year := y; month := m; day := 1 |}; dt_time := 0 |},
             {| dt_day := toordinal (let '(y', m') := next_month {| year := y; month := m; day := 1 |}
                                     in {| year := y'; month := m'; day := 1 |});
                dt_time := 0 |})
  else if bool_decide (- 2 ^ 31 ≤ y < 2 ^ 31 ∧ - 2 ^ 31 ≤ m < 2 ^ 31)
       then month_window y m = Raise ValueError
       else month_window y m = Raise OverflowError.
Proof.
  unfold month_window, next_month. simpl. case_bool_decide as H.
  - destruct H as (Hy & Hm & Hlast).
    rewrite first_of_month_Ok by done. simpl.
    destruct (decide (m = 12)) as [->|Hne].
    + rewrite first_of_month_Ok by lia. simpl. done.
    + rewrite first_of_month_Ok by lia. simpl.
      assert ((m <? 12) = true) as -> by (apply Z.ltb_lt; lia).
      by rewrite Z.add_0_r.
  - destruct (decide (1 ≤ y ≤ 9999 ∧ 1 ≤ m ≤ 12)) as [[Hy Hm]|Hbad].
    + rewrite first_of_month_Ok by done. simpl.
      assert (y = 9999 ∧ m = 12) as [-> ->].
      { destruct (decide (y = 9999 ∧ m = 12)); [done|]. destruct H. done. }
      reflexivity.
    + rewrite first_of_month_Raise by done. unfold fits_c_int.
      by repeat case_bool_decide.
Qed.

Lemma first_of_next_month y m :
  1 ≤ m ≤ 12 →
  toordinal (let '(y', m') := next_month {| year := y; month := m; day := 1 |}
             in {| year := y'; month := m'; day := 1 |})
  = toordinal {| year := y; month := m; day := 1 |} + days_in_month y m.
Proof.
  intros Hm. unfold next_month, toordinal. simpl.
  destruct (m <? 12) eqn:Hlt; simpl.
  - rewrite days_before_month_succ by lia. lia.
  - apply Z.ltb_ge in Hlt. assert (m = 12) as -> by lia.
    rewrite days_before_year_succ, days_before_month_december, days_before_month_first.
    unfold days_in_month. simpl. destruct (is_leap y); lia.
Qed.

Lemma month_start_index y m : 1 ≤ m ≤ 12 →
  month_start (month_index y m) = toordinal {| year := y; month := m; day := 1 |}.
Proof.
  intros Hm. unfold month_start, month_index.
  assert ((y * 12 + (m - 1)) / 12 = y ∧ (y * 12 + (m - 1)) mod 12 = m - 1) as [-> ->]
    by (Z.div_mod_to_equations; lia).
  do 2 f_equal. lia.
Qed.

Lemma month_start_next y m : 1 ≤ m ≤ 12 →
  month_start (month_index y m + 1) = month_start (month_index y m) + days_in_month y m.
Proof.
  intros Hm. pose proof (first_of_next_month y m Hm) as Hn.
  rewrite (month_start_index y m Hm), <- Hn. unfold next_month. simpl.
  destruct (m <? 12) eqn:Hlt.
  - apply Z.ltb_lt in Hlt.
    replace (month_index y m + 1) with (month_index y (m + 1)) by (unfold month_index; lia).
    by rewrite month_start_index by lia.
  - apply Z.ltb_ge in Hlt.
    replace (month_index y m + 1) with (month_index (y + 1) 1) by (unfold month_index; lia).
    by rewrite month_start_index by lia.
Qed.

Lemma month_start_succ k : month_start k < month_start (k + 1).
Proof.
  pose proof (Z.div_mod k 12 ltac:(lia)) as Hk.
  pose proof (Z.mod_pos_bound k 12 ltac:(lia)) as Hr.
  assert (k = month_index (k / 12) (k mod 12 + 1)) as Hki by (unfold month_index; lia).
  rewrite Hki. rewrite month_start_next by lia.
  pose proof (days_in_month_range (k / 12) (k mod 12 + 1)). lia.
Qed.

Lemma month_start_mono k n : month_start k ≤ month_start (k + Z.of_nat n).
Proof.
  induction n as [|n IH]; [by rewrite Z.add_0_r|].
  pose proof (month_start_succ (k + Z.of_nat n)).
  replace (k + Z.of_nat (S n)) with (k + Z.of_nat n + 1) by lia. lia.
Qed.

Lemma month_start_le k k' : k ≤ k' → month_start k ≤ month_start k'.
Proof.
  intros H. replace k' with (k + Z.of_nat (Z.to_nat (k' - k))) by lia.
  apply month_start_mono.
Qed.

Lemma toordinal_in_month d :
  valid_date d →
  month_start (month_index (year d) (month d)) ≤ toordinal d
  < month_start (month_index (year d) (month d) + 1).
Proof.
  intros [Hm Hd]. rewrite month_start_next, month_start_index by done.
  unfold toordinal. simpl. lia.
Qed.

(** The window of a month in day numbers. *)
Lemma month_window_Ok y m :
  1 ≤ y ≤ 9999 → 1 ≤ m ≤ 12 → ¬ (y = 9999 ∧ m = 12) →
  month_window y m
  = Ok ({| dt_day := month_start (month_index y m); dt_time := 0 |},
        {| dt_day := month_start (month_index y m + 1); dt_time := 0 |}).
Proof.
  intros Hy Hm Hlast. unfold month_window.
  rewrite first_of_month_Ok by done. cbn [result_bind].
  rewrite month_start_index by done.
  destruct (decide (m = 12)) as [->|Hne].
  - rewrite first_of_month_Ok by lia. cbn [result_bind].
    replace (month_index y 12 + 1) with (month_index (y + 1) 1) by (unfold month_index; lia).
    by rewrite month_start_index by lia.
  - rewrite first_of_month_Ok by lia. cbn [result_bind].
    replace (month_index y m + 1) with (month_index y (m + 1)) by (unfold month_index; lia).
    rewrite month_start_index by lia. by rewrite Z.add_0_r.
Qed.

Lemma month_window_inv y m w :
  month_window y m = Ok w →
  1 ≤ y ≤ 9999 ∧ 1 ≤ m ≤ 12 ∧ ¬ (y = 9999 ∧ m = 12).
Proof.
  unfold month_window. intros Hw.
  destruct (decide (1 ≤ y ≤ 9999 ∧ 1 ≤ m ≤ 12)) as [[Hy Hm]|Hbad];
    [|by rewrite first_of_month_Raise in Hw].
  split; [done|]. split; [done|]. intros [-> ->].
  rewrite first_of_month_Ok in Hw by done. cbn [result_bind] in Hw.
  rewrite first_of_month_Raise in Hw; [done|]. rewrite decide_True by done. lia.
Qed.

Lemma in_window_days y m w t :
  month_window y m = Ok w →
  0 ≤ dt_time (tx_date t) →
  in_window w t = true ↔
  month_start (month_index y m) ≤ dt_day (tx_date t) < month_start (month_index y m + 1).
Proof.
  intros Hw Htime. pose proof (month_window_inv y m w Hw) as (Hy & Hm & Hlast).
  rewrite month_window_Ok in Hw by done. injection Hw as <-.
  unfold in_window, datetime_leb, datetime_ltb. simpl.
  rewrite andb_true_iff, negb_true_iff, orb_false_iff, orb_true_iff, !andb_true_iff,
    andb_false_iff, !Z.ltb_lt, Z.ltb_ge, Z.eqb_eq, Z.eqb_neq, Z.ltb_ge.
  lia.
Qed.

(** The month of a day, from its day number. *)
Lemma month_of_day d k :
  valid_date d →
  month_start k ≤ toordinal d < month_start (k + 1) ↔
  month_index (year d) (month d) = k.
Proof.
  intros Hd. pose proof (toordinal_in_month d Hd) as Hin. split.
  - intros Hk.
    destruct (Z.lt_trichotomy (month_index (year d) (month d)) k) as [Hlt|[Heq|Hgt]];
      [|done|].
    + pose proof (month_start_le (month_index (year d) (month d) + 1) k ltac:(lia)). lia.
    + pose proof (month_start_le (k + 1) (month_index (year d) (month d)) ltac:(lia)). lia.
  - by intros <-.
Qed.

(** X9. When the window of the year [y] and month [m] exists, a row is
    inside it exactly when its date falls in that month of that year: the
    window leaves out no moment of the month, the last day included, and
    takes in none of another month. *)
Theorem month_window_is_the_month (y m : Z) (w : datetime * datetime)
    (t : Transaction) (d : date) :
  month_window y m = Ok w →
  valid_date d →
  dt_day (tx_date t) = toordinal d →
  0 ≤ dt_time (tx_date t) →
  in_window w t = true ↔ year d = y ∧ month d = m.
Proof.
  intros Hw Hd Hday Htime.
  pose proof (month_window_inv y m w Hw) as (_ & Hm & _).
  rewrite (in_window_days y m w t Hw Htime), Hday, (month_of_day d _ Hd).
  destruct Hd as [Hdm _]. unfold month_index. lia.
Qed.

(** ** The totals of a chart *)

Lemma chart_rows_restrict ty w u s :
  chart_rows ty w u (restrict u s) = chart_rows ty w u s.
Proof.
  apply map_eq; intros i. apply option_eq; intros t. unfold chart_rows. simpl.
  rewrite !map_lookup_filter_Some. simpl. tauto.
Qed.

(** X10. The totals that [api_chart_income_expense] answers to a user are
    computed from the rows of that user alone: the answer on the whole store
    is the answer on the part of the store that the user has, the exception
    for a month that does not exist included. *)
Theorem chart_totals_of_own_rows (user_id y m : Z) (s : DB) :
  api_chart_income_expense user_id y m s
  = api_chart_income_expense user_id y m (restrict user_id s).
Proof.
  unfold api_chart_income_expense.
  destruct (month_window y m) as [w|e]; [|done]. simpl.
  by rewrite !chart_rows_restrict.
Qed.

(** The rows in the order of their keys, when a row is stored under a key
    above all the others. *)
Lemma rows_in_order_insert_last {A} i (x : A) (m : gmap Z A) :
  (∀ k, is_Some (m !! k) → k < i) →
  rows_in_order (<[i:=x]> m) = rows_in_order m ++ [x].
Proof.
  intros Hlast. unfold rows_in_order.
  assert (m !! i = None) as Hi.
  { destruct (m !! i) eqn:E; [|done]. assert (i < i) by (apply Hlast; eauto). lia. }
  assert (merge_sort Z.le (map_to_list (<[i:=x]> m)).*1
          = merge_sort Z.le (map_to_list m).*1 ++ [i]) as ->.
  { apply (StronglySorted_unique Z.le).
    - apply StronglySorted_merge_sort; apply _.
    - apply StronglySorted_app_2;
        [|apply StronglySorted_merge_sort; apply _|repeat constructor].
      intros k1 k2 Hk1 ->%list_elem_of_singleton.
      rewrite merge_sort_Permutation in Hk1.
      apply list_elem_of_fmap in Hk1 as [[k v] [-> Hk]].
      apply elem_of_map_to_list in Hk. simpl.
      assert (k < i) by (apply Hlast; eauto). lia.
    - rewrite !merge_sort_Permutation, map_to_list_insert by done.
      rewrite fmap_cons. simpl. by rewrite Permutation_cons_append. }
  rewrite omap_app. simpl. rewrite lookup_insert_eq. simpl. f_equal.
  apply list_omap_ext, Forall_Forall2_diag, Forall_forall. intros k Hk.
  rewrite merge_sort_Permutation in Hk.
  apply list_elem_of_fmap in Hk as [[k' v] [-> Hk]]. simpl.
  apply elem_of_map_to_list in Hk. rewrite lookup_insert_ne; [done|].
  intros <-. congruence.
Qed.

Lemma sql_sum_snoc xs x :
  sql_sum (xs ++ [x]) = Some (from_option (λ v, fadd v x) x (sql_sum xs)).
Proof. destruct xs as [|x0 xs]; simpl; [done|]. by rewrite foldl_app. Qed.

(** [(v or 0.0) + x or 0.0] is [v + x or 0.0]: a sum that is a zero counts
    as 0.0. *)
Lemma or_zero_fadd v x :
  or_zero (Some (fadd (or_zero v) x)) = or_zero (from_option (λ v, Some (fadd v x)) (Some x) v).
Proof.
  destruct v as [v|]; simpl.
  - destruct v as [s|s| |s mv ev]; try destruct s; try done;
      destruct x as [sx|sx| |sx mx ex]; try destruct sx; done.
  - destruct x as [sx|sx| |sx mx ex]; try destruct sx; done.
Qed.

Lemma sum_amount_insert_last i t (txs : gmap Z Transaction) :
  (∀ k, is_Some (txs !! k) → k < i) →
  sum_amount (<[i:=t]> txs) = or_zero (Some (fadd (sum_amount txs) (tx_amount t))).
Proof.
  intros Hlast. unfold sum_amount.
  rewrite rows_in_order_insert_last, fmap_app by done.
  change (tx_amount <$> [t]) with [tx_amount t].
  rewrite sql_sum_snoc, or_zero_fadd. by destruct (sql_sum _).
Qed.

Lemma chart_rows_insert_fresh ty w u i t s :
  transactions s !! i = None →
  chart_rows ty w u (set_transactions (insert i t) s)
  = if decide (tx_type t = ty ∧ in_window w t = true ∧ tx_user_id t = u)
    then <[i:=t]> (chart_rows ty w u s) else chart_rows ty w u s.
Proof.
  intros Hi. unfold chart_rows. simpl. case_decide as Hp.
  - by rewrite map_filter_insert_True.
  - rewrite map_filter_insert_False by done. by rewrite delete_id.
Qed.

Lemma chart_rows_balance_add ty w u a d s :
  chart_rows ty w u (balance_add a d s) = chart_rows ty w u s.
Proof. done. Qed.

Lemma chart_rows_balance_sub ty w u a d s :
  chart_rows ty w u (balance_sub a d s) = chart_rows ty w u s.
Proof. done. Qed.

(** X11. A transaction that the form accepts shows up in the chart of the
    month of its date, under its type, with its amount: that total becomes
    the old total plus the amount, in floats, a zero counting as 0.0 -- and
    it shows up in the chart of no other month: the totals of every other
    month, and the other total of its own month, are what they were. *)
Theorem added_transaction_in_chart (user_id : Z) (form : TransactionForm) (s : DB)
    (d : date) (y m : Z) (w : datetime * datetime) (inc exp : float) :
  validate_on_submit s user_id form = true →
  valid_date d →
  form_date form = toordinal d →
  month_window y m = Ok w →
  api_chart_income_expense user_id y m s = Ok (inc, exp) →
  let here := bool_decide (year d = y ∧ month d = m) in
  let is_income := String.eqb (form_type form) "income" in
  api_chart_income_expense user_id y m (add_transaction user_id form s).2
  = Ok (if here && is_income then or_zero (Some (fadd inc (form_amount form))) else inc,
        if here && negb is_income then or_zero (Some (fadd exp (form_amount form))) else exp).
Proof.
  intros Hval Hd Hdate Hw Hold here is_income.
  unfold api_chart_income_expense in *. rewrite Hw in *. simpl in Hold |- *.
  injection Hold as <- <-.
  unfold add_transaction. rewrite Hval. cbv zeta. unfold snd.
  set (t := {| tx_user_id := user_id; tx_account_id := _ |}).
  set (s1 := match (if decide (form_account form ≠ 0) then _ else None) with
             | Some a => _ | None => s end).
  assert (transactions s1 = transactions s) as Htx.
  { subst s1. destruct (if decide (form_account form ≠ 0) then _ else None); [|done].
    by destruct (String.eqb _ _). }
  assert (∀ ty, chart_rows ty w user_id s1 = chart_rows ty w user_id s) as Hrows.
  { intros ty. unfold chart_rows. by rewrite Htx. }
  assert (in_window w t = true ↔ year d = y ∧ month d = m) as Hin.
  { pose proof (month_window_inv y m w Hw) as (_ & Hm & _).
    rewrite (in_window_days y m w t Hw) by done.
    change (dt_day (tx_date t)) with (form_date form).
    rewrite Hdate, (month_of_day d _ Hd).
    destruct Hd as [Hdm _]. unfold month_index. lia. }
  assert (transactions s1 !! next_id (transactions s1) = None) as Hfresh
    by apply next_id_fresh.
  rewrite !chart_rows_insert_fresh by done. rewrite !Hrows.
  assert (∀ ty k, is_Some (chart_rows ty w user_id s !! k) → k < next_id (transactions s1))
    as Hlast.
  { intros ty k [x Hk]. unfold chart_rows in Hk.
    apply map_lookup_filter_Some in Hk as [Hk _]. apply next_id_above.
    rewrite Htx. eauto. }
  subst here is_income. unfold form_transaction_type in t.
  destruct (String.eqb (form_type form) "income") eqn:Hty; subst t; simpl;
    case_bool_decide as Hhere; simpl;
    repeat case_decide; rewrite ?sum_amount_insert_last by apply Hlast; simpl;
    try done; exfalso; tauto.
Qed.

(** * Categories by name, templates and debts *)

(** ** Queries by name *)

Lemma first_key_spec {A} (m : gmap Z A) :
  (first_key m = None ↔ m = ∅) ∧ (∀ k, first_key m = Some k → is_Some (m !! k)).
Proof.
  unfold first_key.
  apply (map_fold_weak_ind
           (λ r m, (r = None ↔ m = ∅) ∧ (∀ k, r = Some k → is_Some (m !! k)))).
  - split; [done|]. intros k [=].
  - intros i x m' r Hi [Hnone Hsome]. split.
    + split; [done|]. intros Hemp. by apply insert_non_empty in Hemp.
    + intros k [= <-]. destruct r as [j|]; simpl.
      * destruct (Z.min_spec i j) as [[_ ->]|[_ ->]].
        -- rewrite lookup_insert_eq. eauto.
        -- destruct (decide (j = i)) as [->|Hne]; [rewrite lookup_insert_eq; eauto|].
           rewrite lookup_insert_ne by done. by apply Hsome.
      * rewrite lookup_insert_eq. eauto.
Qed.

Lemma Category_by_name_None st n u :
  Category_by_name st n u = None ↔
  ∀ i c, categories (db st) !! i = Some c → cat_user_id c = Some u →
         category_names st !! i ≠ Some n.
Proof.
  unfold Category_by_name. rewrite (proj1 (first_key_spec _)).
  rewrite map_empty_filter. unfold map_Forall. simpl. split.
  - intros H i c Hc Hu Hn. by apply (H i c Hc).
  - intros H i c Hc [Hu Hn]. by apply (H i c Hc Hu).
Qed.

Lemma Category_by_name_Some st n u k :
  Category_by_name st n u = Some k →
  ∃ c, categories (db st) !! k = Some c ∧ cat_user_id c = Some u
       ∧ category_names st !! k = Some n.
Proof.
  unfold Category_by_name. intros Hk.
  apply (proj2 (first_key_spec _)) in Hk as [c Hc].
  apply map_lookup_filter_Some in Hc as (Hc & Hu & Hn). eauto.
Qed.

(** ** One name per user *)

Lemma names_unique_alt st :
  names_unique st ↔
  ∀ i j ci cj n,
    categories (db st) !! i = Some ci → categories (db st) !! j = Some cj →
    is_Some (cat_user_id ci) → cat_user_id ci = cat_user_id cj →
    category_names st !! i = Some n → category_names st !! j = Some n →
    i = j.
Proof.
  unfold names_unique, map_Forall. split.
  - intros H i j ci cj n Hi Hj Hs Hu Hni Hnj.
    apply (H i ci Hi j cj Hj Hs Hu); [by rewrite Hni|by rewrite Hni, Hnj].
  - intros H i ci Hi j cj Hj Hs Hu [n Hni] Hnj.
    apply (H i j ci cj n Hi Hj Hs Hu Hni). by rewrite <- Hnj.
Qed.

Lemma names_unique_add_category u n st :
  Category_by_name st n u = None → names_unique st → names_unique (add_category u n st).
Proof.
  rewrite !names_unique_alt.
  intros Hnone Huniq i j ci cj n'. unfold add_category. simpl.
  rewrite Category_by_name_None in Hnone.
  pose proof (next_id_fresh (categories (db st))) as Hfresh.
  set (k := next_id (categories (db st))) in *.
  intros Hci Hcj Hs Hu Hni Hnj.
  destruct (decide (i = k)) as [->|Hik], (decide (j = k)) as [->|Hjk]; try done.
  - rewrite lookup_insert_eq in Hci. rewrite lookup_insert_eq in Hni.
    rewrite lookup_insert_ne in Hcj by done. rewrite lookup_insert_ne in Hnj by done.
    injection Hci as <-. injection Hni as <-. simpl in Hu.
    destruct (Hnone j cj Hcj (eq_sym Hu) Hnj).
  - rewrite lookup_insert_eq in Hcj. rewrite lookup_insert_eq in Hnj.
    rewrite lookup_insert_ne in Hci by done. rewrite lookup_insert_ne in Hni by done.
    injection Hcj as <-. injection Hnj as <-. simpl in Hu.
    destruct (Hnone i ci Hci Hu Hni).
  - rewrite lookup_insert_ne in Hci by done. rewrite lookup_insert_ne in Hni by done.
    rewrite lookup_insert_ne in Hcj by done. rewrite lookup_insert_ne in Hnj by done.
    by apply (Huniq i j ci cj n').
Qed.

Lemma bulk_edit_body_categories u c a it st st' :
  bulk_edit_body u c a it st = Ok st' → categories st'.1 = categories st.1.
Proof.
  destruct it as [i t], st as [s n]. unfold bulk_edit_body.
  destruct (bulk_edit_category u c i t s n) as [[t1 s1] n1] eqn:Hcat.
  assert (categories s1 = categories s) as Hs1.
  { unfold bulk_edit_category in Hcat. destruct (truthy c); [|by injection Hcat as _ <- _].
    destruct (Category_first_by s _ u); by injection Hcat as _ <- _. }
  unfold bulk_edit_account.
  destruct (truthy a) as [a0|]; [|by intros [= <-]].
  destruct (Account_first_by s1 a0 u) as [new_acc|]; [|by intros [= <-]].
  destruct (tx_account s1 t1) as [old|]; [|done].
  intros [= <-]. simpl. rewrite <- Hs1.
  by destruct (decide (old ≠ new_acc)); destruct (tx_type t1).
Qed.

Lemma categories_rollback_and_delete i t s :
  categories (rollback_and_delete i t s) = categories s.
Proof.
  unfold rollback_and_delete. simpl.
  by destruct (tx_account s t); [destruct (tx_type t)|].
Qed.

Lemma serve_categories u req s : categories (serve u req s).2 = categories s.
Proof.
  destruct req; simpl.
  - unfold add_transaction. destruct (validate_on_submit s u form); [|done]. simpl.
    destruct (if decide (form_account form ≠ 0) then _ else None); [|done].
    by destruct (String.eqb _ _).
  - unfold edit_transaction. destruct (Transaction_first_by s trans_id u) as [t|]; [|done].
    destruct (validate_on_submit s u form); [|done]. cbv zeta. unfold snd.
    set (s1 := match tx_account s t with Some a => _ | None => s end).
    assert (categories s1 = categories s) as <-
      by (subst s1; by destruct (tx_account s t); [destruct (tx_type t)|]).
    destruct (if decide (form_account form ≠ 0) then _ else None); [|done].
    by destruct (form_transaction_type form).
  - unfold delete_transaction. destruct (Transaction_first_by s trans_id u); [|done].
    apply categories_rollback_and_delete.
  - unfold bulk_edit_transactions. destruct transaction_ids as [|i0 ids0]; [done|].
    destruct (for_each _ _ (s, 0)) as [[s' n]|e] eqn:Hloop; [|done]. simpl.
    change (categories (s', n).1 = categories s).
    apply (for_each_invariant (bulk_edit_body u category_id account_id)
             (λ st, categories st.1 = categories s) (Transaction_in s (i0 :: ids0) u)
             (s, 0) (s', n)); [done| |exact Hloop].
    intros it st1 st2 _ Hinv Hbody. rewrite <- Hinv.
    by eapply bulk_edit_body_categories.
  - unfold bulk_delete_transactions. destruct transaction_ids as [|i0 ids0]; [done|].
    destruct (for_each _ _ (s, 0)) as [[s' n]|e] eqn:Hloop; [|done]. simpl.
    change (categories (s', n).1 = categories s).
    apply (for_each_invariant bulk_delete_body
             (λ st, categories st.1 = categories s) (Transaction_in s (i0 :: ids0) u)
             (s, 0) (s', n)); [done| |exact Hloop].
    intros [i t] [s1 n1] [s2 n2] _ Hinv [= <- _]. rewrite <- Hinv.
    apply categories_rollback_and_delete.
  - unfold transfer, uncaught. destruct (validate_transfer s u form); [|done].
    destruct (accounts s !! _); [|done]. destruct (accounts s !! _); [|done].
    case_decide; [done|]. by destruct (fltb _ _).
  - unfold recurring_delete. destruct (recurrings s !! rec_id); [|done]. by case_decide.
  - unfold mark_notification_read. destruct (notifications s !! notif_id); [|done].
    by case_decide.
  - done.
  - done.
Qed.

Lemma names_unique_set_db f st :
  categories (f (db st)) = categories (db st) → names_unique st → names_unique (set_db f st).
Proof.
  rewrite !names_unique_alt. intros Hc Hu i j ci cj n. simpl. rewrite Hc. apply Hu.
Qed.

Lemma create_payment_transaction_categories u amount date d st :
  names_unique st → names_unique (create_payment_transaction u amount date d st).
Proof.
  intros Hu. unfold create_payment_transaction.
  destruct (Category_by_name st debt_category_name u) as [c|] eqn:Hc.
  - apply names_unique_set_db; [|done]. simpl. by destruct (debt_account (db st) d).
  - apply (names_unique_add_category u debt_category_name st Hc) in Hu.
    apply names_unique_set_db; [|done]. simpl. by destruct (debt_account _ d).
Qed.

Lemma serve_store_names_unique u req st :
  names_unique st → names_unique (serve_store u req st).
Proof.
  intros Hu. destruct req; simpl.
  - apply names_unique_set_db; [apply serve_categories|done].
  - apply names_unique_set_db; [|done]. unfold delete_account.
    destruct (accounts (db st) !! acc_id); [|done]. by case_decide.
  - unfold categories_view. destruct valid; [|done].
    destruct (Category_by_name st name u) eqn:Hn; [done|]. simpl.
    by apply names_unique_add_category.
  - unfold add_quick_category. case_decide; [done|].
    destruct (Category_by_name st name u) eqn:Hn; [done|].
    destruct commit_raises; [done|]. simpl. by apply names_unique_add_category.
  - unfold use_template. destruct (templates st !! template_id) as [tpl|]; [|done].
    case_decide; [|done]. simpl. revert Hu. rewrite !names_unique_alt.
    intros Hu i j ci cj n. simpl.
    assert (categories match tpl_account (db st) tpl with
                       | Some a => match tpl_type tpl with
                                   | income => balance_add a (tpl_amount tpl) (db st)
                                   | expense => balance_sub a (tpl_amount tpl) (db st)
                                   end
                       | None => db st
                       end = categories (db st)) as ->
      by (by destruct (tpl_account _ tpl); [destruct (tpl_type tpl)|]).
    apply Hu.
  - unfold make_payment, uncaught_in. destruct (debts st !! debt_id) as [d|]; [|done].
    case_decide; [|done]. destruct (fleb _ _); [done|].
    destruct (update_debt_balance payment_amount d) as [d1|]; [|done].
    destruct (update_payment_date _ d1) as [d2|]; [|done]. simpl.
    destruct create_transaction.
    + apply (create_payment_transaction_categories u payment_amount
               (default now payment_date) d1 st) in Hu.
      revert Hu. rewrite !names_unique_alt. intros Hu i j ci cj n. simpl. apply Hu.
    + revert Hu. rewrite !names_unique_alt. intros Hu i j ci cj n. simpl. apply Hu.
Qed.

(** X12. No user gets two categories of the same name: when that holds of
    the store, it holds after any sequence of requests -- the category form
    and the quick-add endpoint look the name up before they store it, and a
    payment on a debt creates its category only when the user has none of
    that name; the other requests add no category. *)
Theorem category_names_stay_unique (reqs : list (Z * StoreRequest)) (st : Store) :
  names_unique st → names_unique (serve_store_all reqs st).
Proof.
  revert st. induction reqs as [|[u req] reqs IH]; intros st Hu; [done|].
  unfold serve_store_all in *. simpl. apply IH. by apply serve_store_names_unique.
Qed.

(** ** Payments on a debt *)

Lemma tpl_account_Some s tpl a :
  tpl_account s tpl = Some a → tpl_account_id tpl = Some a.
Proof.
  unfold tpl_account. destruct (tpl_account_id tpl) as [a'|]; simpl; [|done].
  destruct (accounts s !! a'); simpl; [|done]. by intros [= ->].
Qed.

Lemma tpl_account_None s tpl a :
  tpl_account s tpl = None → tpl_account_id tpl = Some a → accounts s !! a = None.
Proof.
  unfold tpl_account. intros H Ha. rewrite Ha in H. simpl in H.
  by destruct (accounts s !! a).
Qed.

Lemma debt_account_Some s d a :
  debt_account s d = Some a → debt_account_id d = Some a ∧ is_Some (accounts s !! a).
Proof.
  unfold debt_account. destruct (debt_account_id d) as [a'|]; simpl; [|done].
  destruct (accounts s !! a') eqn:E; simpl; [|done]. intros [= ->]. eauto.
Qed.

Lemma create_payment_transaction_debts u amount date d st :
  debts (create_payment_transaction u amount date d st) = debts st
  ∧ templates (create_payment_transaction u amount date d st) = templates st.
Proof.
  unfold create_payment_transaction.
  by destruct (Category_by_name st debt_category_name u).
Qed.

(** X14. A payment of a positive amount on a debt of the user either meets
    an exception that leaves the store as it was, or it is recorded and the
    debt is left within its bounds, whatever it held before: the balance of a
    credit card is the old one less the payment, and 0.0 when that is below
    zero; what is paid on another debt is the old sum plus the payment, and
    the amount of the debt when that is above it.  The difference and the
    sum are those of floats, and a balance or a sum that is missing counts
    as 0.0.  No other debt changes. *)
Theorem payment_settles_within (now : datetime) (user_id debt_id : Z) (payment_amount : float)
    (payment_date : option datetime) (create_transaction : bool) (st : Store) (d : Debt) :
  debts st !! debt_id = Some d →
  debt_user_id d = user_id →
  fltb fzero payment_amount = true →
  let out := make_payment now user_id debt_id payment_amount payment_date
               create_transaction st in
  out = uncaught_in st
  ∨ ∃ d', out.1 = redirect "debt_detail"
          ∧ debts out.2 = <[debt_id:=d']> (debts st)
          ∧ debt_settled_within d'
          ∧ match debt_type d with
            | credit_card =>
                debt_current_balance d'
                = Some (let b := fsub (or_zero (debt_current_balance d)) payment_amount in
                        if fltb b fzero then fzero else b)
                ∧ debt_paid_amount d' = debt_paid_amount d
            | _ =>
                (∃ amount, debt_amount d = Some amount
                   ∧ debt_paid_amount d'
                     = Some (let p := fadd (or_zero (debt_paid_amount d)) payment_amount in
                             if fltb amount p then amount else p))
                ∧ debt_current_balance d' = debt_current_balance d
            end.
Proof.
  intros Hd Hu Hpos out. subst out. unfold make_payment.
  rewrite Hd, decide_True by done. rewrite (fltb_not_fleb _ _ Hpos).
  destruct (update_debt_balance payment_amount d) as [d1|e] eqn:H1; [|by left].
  destruct (update_payment_date (default now payment_date) d1) as [d2|e] eqn:H2; [|by left].
  right. exists d2. simpl.
  assert (debt_type d2 = debt_type d1 ∧ debt_amount d2 = debt_amount d1
          ∧ debt_paid_amount d2 = debt_paid_amount d1
          ∧ debt_current_balance d2 = debt_current_balance d1) as (T2 & A2 & P2 & B2).
  { unfold update_payment_date in H2.
    destruct (debt_payment_date d1) as [[day time]|]; [|by injection H2 as <-].
    case_decide; [|by injection H2 as <-].
    destruct (add_one_month day); simpl in H2; [|done]. by injection H2 as <-. }
  split; [done|]. split.
  { destruct create_transaction; [|done].
    by rewrite (proj1 (create_payment_transaction_debts _ _ _ _ _)). }
  unfold debt_settled_within. rewrite T2, A2, P2, B2.
  unfold update_debt_balance in H1.
  destruct (debt_type d) eqn:Hty.
  - injection H1 as <-. simpl. rewrite Hty. split; [|done].
    destruct (fltb (fsub _ _) fzero) eqn:Hlt; simpl; [apply fltb_irrefl|exact Hlt].
  - destruct (debt_amount d) as [amount|] eqn:Ham; [|done]. injection H1 as <-.
    simpl. rewrite Hty, Ham. split; [|split; [eauto|done]].
    destruct (fltb amount (fadd _ _)) eqn:Hlt; simpl; [apply fltb_irrefl|exact Hlt].
  - destruct (debt_amount d) as [amount|] eqn:Ham; [|done]. injection H1 as <-.
    simpl. rewrite Hty, Ham. split; [|split; [eauto|done]].
    destruct (fltb amount (fadd _ _)) eqn:Hlt; simpl; [apply fltb_irrefl|exact Hlt].
Qed.

(** ** A name that is taken *)

Lemma Category_by_name_is_Some st n u :
  is_Some (Category_by_name st n u) ↔
  ∃ i c, categories (db st) !! i = Some c ∧ cat_user_id c = Some u
         ∧ category_names st !! i = Some n.
Proof.
  split.
  - intros [k Hk]. apply Category_by_name_Some in Hk as (c & ?). eauto.
  - intros (i & c & Hc & Hu & Hn).
    destruct (Category_by_name st n u) eqn:E; [eauto|].
    rewrite Category_by_name_None in E. destruct (E i c Hc Hu Hn).
Qed.

Lemma Category_by_name_add_category st n u m v :
  is_Some (Category_by_name (add_category u n st) m v) ↔
  (u = v ∧ n = m) ∨
  ∃ i c, i ≠ next_id (categories (db st)) ∧ categories (db st) !! i = Some c
         ∧ cat_user_id c = Some v ∧ category_names st !! i = Some m.
Proof.
  rewrite Category_by_name_is_Some. unfold add_category. simpl.
  pose proof (next_id_fresh (categories (db st))) as Hfresh.
  set (k := next_id (categories (db st))) in *. split.
  - intros (i & c & Hc & Hu & Hn). destruct (decide (i = k)) as [->|Hne].
    + rewrite lookup_insert_eq in Hc. rewrite lookup_insert_eq in Hn.
      injection Hc as <-. injection Hn as <-. simpl in Hu. injection Hu as <-. by left.
    + rewrite lookup_insert_ne in Hc by done. rewrite lookup_insert_ne in Hn by done.
      right. eauto 10.
  - intros [[<- <-]|(i & c & Hne & Hc & Hu & Hn)].
    + exists k, {| cat_user_id := Some u |}. by rewrite !lookup_insert_eq.
    + exists i, c. by rewrite !lookup_insert_ne.
Qed.

(** X15. Once the quick-add endpoint has stored a category for a user, the
    same name is refused to that user from then on: the endpoint answers 409
    and the form of the categories page is shown again, and neither stores
    anything.  The name stays free for every other user who did not have it.
    An empty name is answered 400. *)
Theorem quick_add_takes_the_name (user_id : Z) (name : string)
    (commit_raises : option Exception) (st : Store) :
  let st' := (add_quick_category user_id name None st).2 in
  if decide (name = ""%string)
  then add_quick_category user_id name commit_raises st = (quick_error 400, st)
  else add_quick_category user_id name commit_raises st' = (quick_error 409, st')
       ∧ categories_view user_id true name st' = (render_template "categories.html", st')
       ∧ ∀ v, v ≠ user_id →
           (is_Some (Category_by_name st' name v) ↔ is_Some (Category_by_name st name v)).
Proof.
  intros st'. destruct (decide (name = ""%string)) as [Hname|Hname].
  { unfold add_quick_category. by rewrite decide_True. }
  assert (is_Some (Category_by_name st' name user_id)) as [k Hk'].
  { subst st'. unfold add_quick_category. rewrite decide_False by done.
    destruct (Category_by_name st name user_id) eqn:Hk; simpl; [by rewrite Hk|].
    apply Category_by_name_add_category. by left. }
  split_and!.
  - unfold add_quick_category. by rewrite decide_False, Hk'.
  - unfold categories_view. by rewrite Hk'.
  - intros v Hv. subst st'. unfold add_quick_category. rewrite decide_False by done.
    destruct (Category_by_name st name user_id) eqn:Hk; simpl; [done|].
    rewrite Category_by_name_add_category, Category_by_name_is_Some.
    pose proof (next_id_fresh (categories (db st))) as Hfresh. split.
    + intros [[? _]|(i & c & _ & H)]; [congruence|eauto].
    + intros (i & c & Hc & H). right. exists i, c. split; [|done].
      intros ->. congruence.
Qed.

(** ** What a payment books *)

(** X16. When the box for a transaction is ticked, a payment that is
    recorded books its full amount: one new row of the user is added, an
    expense of the amount posted, linked to the account of the debt and filed
    under a category of the user named after debt payments, and the account
    loses the full amount, by one float subtraction -- also when the debt
    itself took less because it was capped. *)
Theorem payment_is_booked_in_full (now : datetime) (user_id debt_id : Z)
    (payment_amount : float) (payment_date : option datetime) (st : Store) (d : Debt)
    (a : Z) (b : float) :
  debts st !! debt_id = Some d →
  debt_account (db st) d = Some a →
  balance_of (db st) a = Some b →
  let out := make_payment now user_id debt_id payment_amount payment_date true st in
  out.1 = redirect "debt_detail" →
  fltb fzero payment_amount = true →
  balance_of (db out.2) a = Some (fsub b payment_amount)
  ∧ ∃ i t c cat,
      transactions (db st) !! i = None
      ∧ transactions (db out.2) = <[i:=t]> (transactions (db st))
      ∧ tx_user_id t = user_id ∧ tx_type t = expense ∧ tx_amount t = payment_amount
      ∧ tx_account_id t = Some a
      ∧ tx_date t = default now payment_date
      ∧ tx_category_id t = Some c
      ∧ categories (db out.2) !! c = Some cat ∧ cat_user_id cat = Some user_id
      ∧ category_names out.2 !! c = Some debt_category_name.
Proof.
  intros Hd Ha Hb out Hok Hpos. subst out. unfold make_payment, uncaught_in in *.
  rewrite Hd in *. case_decide as Hu; [|done].
  rewrite (fltb_not_fleb _ _ Hpos) in *.
  destruct (update_debt_balance payment_amount d) as [d1|e] eqn:H1; [|done].
  destruct (update_payment_date (default now payment_date) d1) as [d2|e] eqn:H2; [|done].
  clear Hok. cbn [snd set_debts db category_names].
  assert (debt_account_id d1 = debt_account_id d) as Hacc1.
  { unfold update_debt_balance in H1.
    destruct (debt_type d); [by injection H1 as <-| |];
      (destruct (debt_amount d); [by injection H1 as <-|done]). }
  unfold create_payment_transaction.
  destruct (Category_by_name st debt_category_name user_id) as [c|] eqn:Hc.
  - apply Category_by_name_Some in Hc as (cat & Hcat & Hcu & Hcn).
    cbn [set_db db category_names].
    assert (debt_account (db st) d1 = Some a) as ->
      by (unfold debt_account in *; by rewrite Hacc1).
    split.
    + rewrite balance_of_balance_sub, balance_of_set_transactions, Hb. simpl.
      by rewrite decide_True.
    + eexists _, _, c, cat. split_and!; try done. apply next_id_fresh.
  - cbn [set_db db category_names add_category].
    assert (debt_account
              (set_categories
                 (insert (next_id (categories (db st))) {| cat_user_id := Some user_id |})
                 (db st)) d1 = Some a) as ->
      by (unfold debt_account in *; by rewrite Hacc1).
    split.
    + rewrite balance_of_balance_sub, balance_of_set_transactions.
      unfold balance_of in *. simpl. rewrite Hb. simpl. by rewrite decide_True.
    + eexists _, _, _, _. split_and!; try done.
      * apply next_id_fresh.
      * simpl. apply lookup_insert_eq.
      * done.
      * apply lookup_insert_eq.
Qed.

(** ** Templates and the rows of others *)

(** X17. A template of somebody else is answered 404 on an unchanged store.
    A template of the user, or a shared one, is used: one row of the user is
    added, the use count of the template is raised by one, and the balance
    of the account of the template, when it is stored, moves by the amount
    of the template, by one float addition or subtraction -- whoever that
    account belongs to; no other balance moves.  So when the account of the
    template belongs to the user, the request changes nothing that belongs
    to another user. *)
Theorem use_template_leaves_others_alone (now : datetime) (user_id template_id : Z)
    (st : Store) (template : Template) :
  templates st !! template_id = Some template →
  let out := use_template now user_id template_id st in
  if decide (tpl_user_id template = Some user_id ∨ tpl_user_id template = None)
  then out.1 = redirect "transactions"
       ∧ templates out.2 = <[template_id := tpl_used template]> (templates st)
       ∧ (∃ t, transactions (db out.2)
               = <[next_id (transactions (db st)) := t]> (transactions (db st))
               ∧ tx_user_id t = user_id ∧ tx_amount t = tpl_amount template
               ∧ tx_type t = tpl_type template)
       ∧ (∀ a, balance_of (db out.2) a
               = (λ b, if decide (tpl_account_id template = Some a)
                       then match tpl_type template with
                            | income => fadd b (tpl_amount template)
                            | expense => fsub b (tpl_amount template)
                            end
                       else b) <$> balance_of (db st) a)
       ∧ ((∀ a, tpl_account_id template = Some a → owned_account user_id (db st) a) →
          others_untouched user_id (db st) (db out.2))
  else out = (abort404, st).
Proof.
  intros Ht out. subst out. unfold use_template. rewrite Ht.
  case_decide as Hu; [|done].
  cbv zeta. cbn [fst snd db templates].
  assert (transactions
            match tpl_account (db st) template with
            | Some a => match tpl_type template with
                        | income => balance_add a (tpl_amount template) (db st)
                        | expense => balance_sub a (tpl_amount template) (db st)
                        end
            | None => db st
            end = transactions (db st)) as Htx
    by (by destruct (tpl_account _ template); [destruct (tpl_type template)|]).
  split_and!; try done.
  - eexists. cbn [transactions set_transactions]. rewrite Htx. split_and!; done.
  - intros a. rewrite balance_of_set_transactions.
    destruct (tpl_account (db st) template) as [a'|] eqn:Ha.
    + apply tpl_account_Some in Ha. rewrite Ha.
      destruct (tpl_type template);
        rewrite ?balance_of_balance_add, ?balance_of_balance_sub;
        destruct (balance_of (db st) a); simpl; try done;
        repeat case_decide; simplify_eq; done.
    + destruct (balance_of (db st) a) as [b|] eqn:Hb; simpl; [|done].
      case_decide as Hid; [|done].
      pose proof (tpl_account_None _ _ _ Ha Hid) as Hnone.
      unfold balance_of in Hb. by rewrite Hnone in Hb.
  - intros Hown. eapply others_untouched_trans.
    2: { apply others_untouched_insert_tx; [done|apply owned_slot_fresh]. }
    destruct (tpl_account (db st) template) as [a|] eqn:Ha;
      [|apply others_untouched_refl].
    apply tpl_account_Some in Ha. specialize (Hown a Ha).
    destruct (tpl_type template);
      [by apply others_untouched_balance_add|by apply others_untouched_balance_sub].
Qed.

(** ** A bulk edit of the category alone *)

Lemma bulk_edit_category_loop u category_id account_id c (l : list (Z * Transaction)) s n :
  truthy category_id = Some c →
  truthy account_id = None →
  is_Some (Category_first_by s c u) →
  NoDup l.*1 →
  ∃ s', for_each (bulk_edit_body u category_id account_id) l (s, n)
        = Ok (s', n + Z.of_nat (length l))
        ∧ set_transactions (λ _, transactions s) s' = s
        ∧ ∀ j, transactions s' !! j
               = match (list_to_map l : gmap Z Transaction) !! j with
                 | Some t => Some (tx_set_category c t)
                 | None => transactions s !! j
                 end.
Proof.
  intros Hc Ha. revert s n. induction l as [|[i t] l IH]; intros s n Hcat Hnd.
  - exists s. simpl. rewrite Z.add_0_r. split_and!; try done. by destruct s.
  - rewrite fmap_cons in Hnd. apply NoDup_cons in Hnd as [Hi Hnd].
    destruct Hcat as [x Hx].
    assert (x = c) as ->.
    { unfold Category_first_by in Hx. destruct (categories s !! c); simpl in Hx; [|done].
      case_decide; [|done]. by injection Hx. }
    set (s1 := set_transactions (insert i (tx_set_category c t)) s).
    assert (bulk_edit_body u category_id account_id (i, t) (s, n) = Ok (s1, n + 1)) as Hbody.
    { unfold bulk_edit_body, bulk_edit_category, bulk_edit_account. by rewrite Hc, Hx, Ha. }
    destruct (IH s1 (n + 1)) as (s' & Hloop & Hsame & Htx); [by exists c|done|].
    exists s'. split_and!.
    + cbn [for_each]. rewrite Hbody. cbn [result_bind]. rewrite Hloop.
      do 2 f_equal. rewrite length_cons. lia.
    + subst s1. destruct s, s'. unfold set_transactions in *. simpl in *.
      by injection Hsame as -> -> -> -> ->.
    + intros j. rewrite Htx. cbn [list_to_map foldr]. subst s1. simpl.
      destruct (decide (j = i)) as [->|Hne].
      * rewrite !lookup_insert_eq.
        by rewrite (not_elem_of_list_to_map_1 _ i Hi).
      * by rewrite !lookup_insert_ne.
Qed.

(** X18. A bulk edit that names a category and no account.  When the
    category is one of the user's own, every row of the user among the ids
    is filed under it, the count of the answer is the number of those rows,
    and nothing else changes -- no balance, no row of another user.  When the
    category is not the user's own -- a shared one included -- the answer
    still is 200, with a count of 0, and the store stays as it was. *)
Theorem bulk_edit_of_category_alone (u : Z) (ids : list Z) (category_id account_id : option Z)
    (c : Z) (s : DB) :
  ids ≠ [] →
  truthy category_id = Some c →
  truthy account_id = None →
  let out := bulk_edit_transactions u ids category_id account_id s in
  match Category_first_by s c u with
  | Some _ =>
      out.1 = jsonify 200 true
                (Z.of_nat (size (filter (λ kv, kv.1 ∈ ids ∧ tx_user_id kv.2 = u)
                                        (transactions s))))
      ∧ set_transactions (λ _, transactions s) out.2 = s
      ∧ ∀ j, transactions out.2 !! j
             = (λ t, if decide (j ∈ ids ∧ tx_user_id t = u) then tx_set_category c t else t)
               <$> transactions s !! j
  | None => out = (jsonify 200 true 0, s)
  end.
Proof.
  intros Hne Hc Ha out. subst out. unfold bulk_edit_transactions.
  destruct ids as [|i0 ids0]; [done|]. set (ids := i0 :: ids0) in *.
  destruct (Category_first_by s c u) as [x|] eqn:Hx.
  - destruct (bulk_edit_category_loop u category_id account_id c
                (Transaction_in s ids u) s 0 Hc Ha) as (s' & Hloop & Hsame & Htx).
    { by exists x. }
    { apply Transaction_in_NoDup. }
    rewrite Hloop. simpl. split_and!.
    + do 2 f_equal. unfold Transaction_in. by rewrite length_map_to_list.
    + done.
    + intros j. rewrite Htx. unfold Transaction_in. rewrite list_to_map_to_list.
      destruct (transactions s !! j) as [t|] eqn:Ht; simpl.
      * case_decide as Hsel.
        -- by rewrite (proj2 (map_lookup_filter_Some _ _ _ _) (conj Ht Hsel)).
        -- rewrite (proj2 (map_lookup_filter_None _ _ _)); [done|].
           right. intros t' Ht'. by simplify_eq.
      * rewrite (proj2 (map_lookup_filter_None _ _ _)); [done|]. by left.
  - assert (∀ l n, for_each (bulk_edit_body u category_id account_id) l (s, n) = Ok (s, n))
      as Hloop.
    { induction l as [|[i t] l IH]; intros n; [done|]. cbn [for_each].
      assert (bulk_edit_body u category_id account_id (i, t) (s, n) = Ok (s, n)) as ->
        by (unfold bulk_edit_body, bulk_edit_category, bulk_edit_account;
            by rewrite Hc, Hx, Ha).
      apply IH. }
    by rewrite Hloop.
Qed.
(** ** The chart of the categories *)

Lemma count_in_category_foldl (st : Store) (rows : list Transaction)
    (data : gmap (option string) float) (name : option string) :
  foldl (count_in_category st) data rows !! name
  = match amounts_under st name rows with
    | [] => data !! name
    | xs => Some (foldl fadd (default fzero (data !! name)) xs)
    end.
Proof.
  revert data. induction rows as [|t rows IH]; intros data; [done|].
  cbn [foldl]. rewrite IH. unfold amounts_under, count_in_category.
  rewrite filter_cons. destruct (decide (cat_name st t = name)) as [<-|Hne].
  - rewrite fmap_cons, lookup_insert_eq. cbn [default foldl].
    by destruct (tx_amount <$> filter _ rows).
  - by rewrite lookup_insert_ne.
Qed.

(** X19. What [api_chart_categories] answers under the name of a category
    is the sum of the amounts of the expense rows of the user in the month
    that are filed under that name, added up in floats one after the other
    from 0.0, in the order of the rows -- whatever the categories of the rows
    are, stored or gone, named or not -- and a name with no such row is not
    in the answer.  When the month does not exist the view raises what
    building the window raises. *)
Theorem chart_categories_by_name (user_id y m : Z) (st : Store) :
  match api_chart_categories user_id y m st, month_window y m with
  | Ok data, Ok w =>
      ∀ name,
        data !! name
        = match amounts_under st name
                  (rows_in_order (chart_rows expense w user_id (db st))) with
          | [] => None
          | xs => Some (foldl fadd fzero xs)
          end
  | Raise e1, Raise e2 => e1 = e2
  | _, _ => False
  end.
Proof.
  unfold api_chart_categories.
  destruct (month_window y m) as [w|e]; simpl; [|done].
  intros name. by rewrite count_in_category_foldl, lookup_empty.
Qed.

(** ** The six months of the trend chart *)

Lemma months_before_index today i :
  1 ≤ month today ≤ 12 → 0 ≤ i ≤ 11 →
  let '(y, m) := months_before today i in
  1 ≤ m ≤ 12 ∧ month_index y m = month_index (year today) (month today) - i
  ∧ year today - 1 ≤ y ≤ year today.
Proof.
  intros Hm Hi. unfold months_before, month_index. case_decide; lia.
Qed.

(** X20. In a year from 2 to 9998 the trend chart answers six entries, for
    six months in a row that end with the month of today, oldest first; the
    totals of each entry are those that [api_chart_income_expense] answers
    for that month. *)
Theorem trends_are_six_months_in_a_row (user_id : Z) (today : date) (s : DB) :
  valid_date today →
  2 ≤ year today ≤ 9998 →
  ∃ months_data,
    api_chart_trends user_id today s = Ok months_data
    ∧ length months_data = 6%nat
    ∧ ∀ (k : nat) y m inc exp,
        months_data !! k = Some (y, m, inc, exp) →
        1 ≤ m ≤ 12
        ∧ month_index y m = month_index (year today) (month today) - (5 - Z.of_nat k)
        ∧ api_chart_income_expense user_id y m s = Ok (inc, exp).
Proof.
  intros [Hm _] Hy.
  assert (∀ i acc, 0 ≤ i ≤ 11 →
            ∃ y m inc exp,
              trend_of_month user_id today s i acc = Ok (acc ++ [(y, m, inc, exp)])
              ∧ 1 ≤ m ≤ 12
              ∧ month_index y m = month_index (year today) (month today) - i
              ∧ api_chart_income_expense user_id y m s = Ok (inc, exp)) as Hturn.
  { intros i acc Hi. unfold trend_of_month, api_chart_income_expense.
    pose proof (months_before_index today i Hm Hi) as Hmb.
    destruct (months_before today i) as [y m]. destruct Hmb as (Hm' & Hidx & Hy').
    pose proof (month_window_Ok y m ltac:(lia) Hm' ltac:(lia)) as Hw.
    rewrite Hw. simpl.
    eexists _, _, _, _. split; [reflexivity|]. split; [done|]. split; [done|].
    by rewrite Hw. }
  unfold api_chart_trends. cbn [for_each].
  destruct (Hturn 5 [] ltac:(lia)) as (y5 & m5 & i5 & e5 & -> & B5). cbn [result_bind app].
  destruct (Hturn 4 [(y5, m5, i5, e5)] ltac:(lia)) as (y4 & m4 & i4 & e4 & -> & B4).
  cbn [result_bind app].
  destruct (Hturn 3 [(y5, m5, i5, e5); (y4, m4, i4, e4)] ltac:(lia))
    as (y3 & m3 & i3 & e3 & -> & B3).
  cbn [result_bind app].
  destruct (Hturn 2 [(y5, m5, i5, e5); (y4, m4, i4, e4); (y3, m3, i3, e3)] ltac:(lia))
    as (y2 & m2 & i2 & e2 & -> & B2).
  cbn [result_bind app].
  destruct (Hturn 1 [(y5, m5, i5, e5); (y4, m4, i4, e4); (y3, m3, i3, e3); (y2, m2, i2, e2)]
              ltac:(lia)) as (y1 & m1 & i1 & e1 & -> & B1).
  cbn [result_bind app].
  destruct (Hturn 0 [(y5, m5, i5, e5); (y4, m4, i4, e4); (y3, m3, i3, e3); (y2, m2, i2, e2);
                     (y1, m1, i1, e1)] ltac:(lia)) as (y0 & m0 & i0 & e0 & -> & B0).
  cbn [result_bind app].
  eexists. split; [done|]. split; [done|].
  intros k y m inc exp Hk.
  do 6 (destruct k as [|k]; [injection Hk as <- <- <- <-; simpl;
                             first [exact B5|exact B4|exact B3|exact B2|exact B1|exact B0]|]).
  done.
Qed.

(** * More theorems on the sample data *)

Ltac sample_date_is_valid :=
  unfold valid_date, ymd; cbn [year month day];
  match goal with
  | |- context [days_in_month ?y ?m] =>
      let v := eval vm_compute in (days_in_month y m) in
      change (days_in_month y m) with v
  end; lia.


Lemma month_window_is_the_month_witness :
  in_window february_2024 (row_dated leap_day_evening) = true
  ∧ in_window march_2024 (row_dated leap_day_evening) ≠ true.
Proof.
  split.
  - apply (month_window_is_the_month 2024 2 february_2024 (row_dated leap_day_evening)
             (ymd 2024 2 29)).
    + vm_compute. reflexivity.
    + sample_date_is_valid.
    + reflexivity.
    + simpl. lia.
    + done.
  - intros H.
    apply (month_window_is_the_month 2024 3 march_2024 (row_dated leap_day_evening)
             (ymd 2024 2 29)) in H.
    + destruct H as [_ H]. vm_compute in H. discriminate.
    + vm_compute. reflexivity.
    + sample_date_is_valid.
    + reflexivity.
    + simpl. lia.
Defined.

Lemma added_transaction_in_chart_witness :
  api_chart_income_expense 7 2024 3 (add_transaction 7 march_form sample_store).2
  = Ok (fzero, float_of_Z 120)
  ∧ api_chart_income_expense 7 2024 2 (add_transaction 7 march_form sample_store).2
    = Ok (fzero, fzero).
Proof.
  split.
  - rewrite (added_transaction_in_chart 7 march_form sample_store (ymd 2024 3 15)
               2024 3 march_2024 fzero fzero).
    + reflexivity.
    + vm_compute. reflexivity.
    + sample_date_is_valid.
    + reflexivity.
    + vm_compute. reflexivity.
    + vm_compute. reflexivity.
  - rewrite (added_transaction_in_chart 7 march_form sample_store (ymd 2024 3 15)
               2024 2 february_2024 fzero fzero).
    + reflexivity.
    + vm_compute. reflexivity.
    + sample_date_is_valid.
    + reflexivity.
    + vm_compute. reflexivity.
    + vm_compute. reflexivity.
Defined.

Lemma category_names_stay_unique_witness :
  names_unique (serve_store_all sample_store_requests sample_ledger).
Proof.
  apply category_names_stay_unique.
  apply (bool_decide_unpack _). vm_compute. exact I.
Defined.

Lemma payment_settles_within_witness :
  debt_paid_amount
    <$> debts (make_payment (midnight (ymd 2024 3 20)) 7 1 (float_of_Z 120)
                 (Some (midnight (ymd 2024 3 15))) true sample_ledger).2 !! 1
  = Some (Some (float_of_Z 1000)).
Proof.
  destruct (payment_settles_within (midnight (ymd 2024 3 20)) 7 1 (float_of_Z 120)
              (Some (midnight (ymd 2024 3 15))) true sample_ledger
              {| debt_user_id := 7; debt_type := credit;
                 debt_amount := Some (float_of_Z 1000);
                 debt_paid_amount := Some (float_of_Z 950); debt_current_balance := None;
                 debt_account_id := Some 1;
                 debt_payment_date := Some (ymd 2024 3 15, 0) |})
    as [Hraise|(d' & _ & Hdebts & _ & (amount & Hamount & Hpaid) & _)].
  - vm_compute. reflexivity.
  - reflexivity.
  - vm_compute. reflexivity.
  - apply (f_equal fst) in Hraise. vm_compute in Hraise. discriminate.
  - rewrite Hdebts, lookup_insert_eq. simpl. rewrite Hpaid.
    simpl in Hamount. injection Hamount as <-. vm_compute. reflexivity.
Defined.

Lemma payment_is_booked_in_full_witness :
  balance_of
    (db (make_payment (midnight (ymd 2024 3 20)) 7 1 (float_of_Z 120)
           (Some (midnight (ymd 2024 3 15))) true sample_ledger).2) 1
  = Some (fsub (float_of_Z 5000) (float_of_Z 120))
  ∧ fsub (float_of_Z 5000) (float_of_Z 120) = float_of_Z 4880.
Proof.
  split; [|vm_compute; reflexivity].
  apply (payment_is_booked_in_full (midnight (ymd 2024 3 20)) 7 1 (float_of_Z 120)
           (Some (midnight (ymd 2024 3 15))) sample_ledger
           {| debt_user_id := 7; debt_type := credit; debt_amount := Some (float_of_Z 1000);
              debt_paid_amount := Some (float_of_Z 950); debt_current_balance := None;
              debt_account_id := Some 1;
              debt_payment_date := Some (ymd 2024 3 15, 0) |} 1 (float_of_Z 5000)).
  - vm_compute. reflexivity.
  - vm_compute. reflexivity.
  - reflexivity.
  - vm_compute. reflexivity.
  - vm_compute. reflexivity.
Defined.

Lemma use_template_leaves_others_alone_witness :
  others_untouched 7 (db sample_ledger)
    (db (use_template (midnight (ymd 2024 3 21)) 7 1 sample_ledger).2)
  ∧ balance_of (db (use_template (midnight (ymd 2024 3 21)) 7 1 sample_ledger).2) 1
    = Some (fsub (float_of_Z 5000) (float_of_Z 30))
  ∧ (tpl_use_count
       <$> templates (use_template (midnight (ymd 2024 3 21)) 7 1 sample_ledger).2 !! 1)
    = Some 1.
Proof.
  pose proof (use_template_leaves_others_alone (midnight (ymd 2024 3 21)) 7 1 sample_ledger
                {| tpl_user_id := Some 7; tpl_amount := float_of_Z 30; tpl_type := expense;
                   tpl_category_id := Some 2; tpl_account_id := Some 1;
                   tpl_use_count := 0 |} eq_refl) as H.
  cbv zeta in H. rewrite decide_True in H by (by left).
  destruct H as (_ & Htpl & _ & Hbal & Hothers).
  split_and!.
  - apply Hothers. intros a [= <-] acc Hacc. vm_compute in Hacc. by injection Hacc as <-.
  - rewrite Hbal. reflexivity.
  - rewrite Htpl. reflexivity.
Defined.

Lemma bulk_edit_of_category_alone_witness :
  (bulk_edit_transactions 7 [1; 2; 3] (Some 2) None sample_store).1 = jsonify 200 true 2
  ∧ bulk_edit_transactions 7 [1; 2; 3] (Some 1) (Some 0) sample_store
    = (jsonify 200 true 0, sample_store).
Proof.
  split.
  - pose proof (bulk_edit_of_category_alone 7 [1; 2; 3] (Some 2) None 2 sample_store
                  ltac:(done) eq_refl eq_refl) as H.
    cbv zeta in H.
    assert (Category_first_by sample_store 2 7 = Some 2) as E by (vm_compute; reflexivity).
    rewrite E in H. destruct H as [-> _]. vm_compute. reflexivity.
  - pose proof (bulk_edit_of_category_alone 7 [1; 2; 3] (Some 1) (Some 0) 1 sample_store
                  ltac:(done) eq_refl eq_refl) as H.
    cbv zeta in H.
    assert (Category_first_by sample_store 1 7 = None) as E by (vm_compute; reflexivity).
    rewrite E in H. exact H.
Defined.

Lemma trends_are_six_months_in_a_row_witness :
  ∃ months_data,
    api_chart_trends 7 (ymd 2024 3 15) sample_store = Ok months_data
    ∧ fst <$> months_data
      = [(2023, 10, fzero); (2023, 11, fzero); (2023, 12, fzero); (2024, 1, fzero);
         (2024, 2, fzero); (2024, 3, fzero)].
Proof.
  destruct (trends_are_six_months_in_a_row 7 (ymd 2024 3 15) sample_store)
    as (months_data & Hok & _).
  - sample_date_is_valid.
  - simpl. lia.
  - exists months_data. split; [exact Hok|].
    vm_compute in Hok. injection Hok as <-. reflexivity.
Defined.
